(** * collect-todos: a shallow embedding of [bin/collect-todos.py]

    The script walks sibling repositories, finds TODO/FIXME/BUG comment
    markers line by line, aggregates them per repository, renders a
    Markdown report and exits with status 1 when a finding looks critical.

    Conventions of the embedding.
    - Python [str] values are [string]s of bytes, the UTF-8 form of the
      text; a byte of a file name that is not UTF-8 stands for itself.
      The character classes [\s] and [\w], [str.strip] and the case
      conversions of the command-line options are Python's on the ASCII
      range: a byte above 127 is taken as a caseless symbol that is
      neither a space nor a word character.  The flag i of the pattern
      has, besides the two cases of a letter, the characters outside
      ASCII that fold onto it, and the [text.lower()] of the critical
      test is the interpreter's, which the world supplies.
    - Exceptions are explicit: a call that may raise returns an [option],
      and the text-mode read of a file is a [stream] that ends either at
      the end of file or with an error.
    - The file system and the version-control tool are data: a tree of
      directory entries and, per repository, the outcome of each [git]
      invocation.  Repo names are single path components.
    - The run returns the report, the lines of the Markdown file, the
      items of the JSON file and the exit status.  Writing the two files
      and printing the summary can raise, and the interpreter can fail to
      flush its streams at exit: the world says whether they do.
      Signals and the exhaustion of memory are outside the model. *)

From Stdlib Require Import Bool Arith Lia List Ascii String Permutation.
From Stdlib Require Import DecimalString DecimalNat Sorted.
Import ListNotations.
Open Scope string_scope.
Open Scope list_scope.

Infix "+:+" := String.append (at level 60, right associativity).

(* ------------------------------------------------------------------ *)
(** ** Python string primitives *)

Module PyStr.

Definition between (lo hi : nat) (c : ascii) : bool :=
  Nat.leb lo (nat_of_ascii c) && Nat.leb (nat_of_ascii c) hi.

(** [str.isspace] on one character, also the class [\s]:
    TAB, LF, VT, FF, CR, FS, GS, RS, US and SPACE. *)
Definition isspace (c : ascii) : bool := between 9 13 c || between 28 32 c.

Definition isupper (c : ascii) : bool := between 65 90 c.
Definition islower (c : ascii) : bool := between 97 122 c.
Definition isdigit (c : ascii) : bool := between 48 57 c.

(** The class [\w]: letters, digits and the underscore. *)
Definition isword (c : ascii) : bool :=
  isupper c || islower c || isdigit c || Ascii.eqb c "_".

Definition lower_char (c : ascii) : ascii :=
  if isupper c then ascii_of_nat (nat_of_ascii c + 32) else c.

Definition upper_char (c : ascii) : ascii :=
  if islower c then ascii_of_nat (nat_of_ascii c - 32) else c.

Fixpoint map_chars (f : ascii -> ascii) (s : string) : string :=
  match s with
  | EmptyString => EmptyString
  | String c s' => String (f c) (map_chars f s')
  end.

(** [s.lower()] and [s.upper()], on the letters of ASCII. *)
Definition lower : string -> string := map_chars lower_char.
Definition upper : string -> string := map_chars upper_char.

(** [s.replace(a, b)] for one-character [a] and [b]. *)
Definition replace_char (a b : ascii) : string -> string :=
  map_chars (fun c => if Ascii.eqb c a then b else c).

Fixpoint lstrip (s : string) : string :=
  match s with
  | String c s' => if isspace c then lstrip s' else s
  | EmptyString => EmptyString
  end.

Fixpoint rstrip (s : string) : string :=
  match s with
  | EmptyString => EmptyString
  | String c s' =>
      match rstrip s' with
      | EmptyString => if isspace c then EmptyString else String c EmptyString
      | r => String c r
      end
  end.

(** [s.strip()]. *)
Definition strip (s : string) : string := rstrip (lstrip s).

(** [s.startswith(p)]. *)
Fixpoint startswith (p s : string) : bool :=
  match p with
  | EmptyString => true
  | String a p' =>
      match s with
      | EmptyString => false
      | String b s' => Ascii.eqb a b && startswith p' s'
      end
  end.

(** [s.endswith(p)]. *)
Definition endswith (p s : string) : bool :=
  Nat.leb (String.length p) (String.length s)
  && String.eqb (substring (String.length s - String.length p) (String.length p) s) p.

(** [s[:-n]] for [n] no longer than [s]. *)
Definition drop_last (n : nat) (s : string) : string :=
  substring 0 (String.length s - n) s.

(** [w in t]: [w] occurs in [t] as a contiguous substring. *)
Fixpoint contains (w t : string) : bool :=
  startswith w t
  || match t with
     | EmptyString => false
     | String _ t' => contains w t'
     end.

(** [s.split(sep)] for a one-character separator: never empty. *)
Fixpoint split (sep : ascii) (s : string) : list string :=
  match s with
  | EmptyString => [EmptyString]
  | String c s' =>
      match split sep s' with
      | w :: ws => if Ascii.eqb c sep then EmptyString :: w :: ws
                   else String c w :: ws
      | [] => [EmptyString]
      end
  end.

(** [s.split(sep, 1)] unpacked into two names: [None] stands for the
    [ValueError] raised when [sep] does not occur. *)
Fixpoint split_once (sep : ascii) (s : string) : option (string * string) :=
  match s with
  | EmptyString => None
  | String c s' =>
      if Ascii.eqb c sep then Some (EmptyString, s')
      else match split_once sep s' with
           | Some (a, b) => Some (String c a, b)
           | None => None
           end
  end.

(** [sep.join(l)]. *)
Definition join (sep : string) (l : list string) : string := String.concat sep l.

(** [l[-1]] of a list, with the default for the empty list. *)
Definition last_item (l : list string) : string := List.last l EmptyString.

(** [x in l] for a list (or set) of strings. *)
Definition mem (x : string) (l : list string) : bool :=
  existsb (String.eqb x) l.

(** [str(n)] / [f"{n}"] for a non-negative integer. *)
Definition of_nat (n : nat) : string := NilEmpty.string_of_uint (Nat.to_uint n).

(** [s.encode("utf-8")] returns: the text holds no lone surrogate, which
    for its bytes is to be well-formed UTF-8 (a byte that is not UTF-8
    is how a lone surrogate of a file name is written here). *)
Definition continuation (c : ascii) : bool := between 128 191 c.

Fixpoint encodable (s : string) : bool :=
  match s with
  | EmptyString => true
  | String c s1 =>
      if between 0 127 c then encodable s1
      else if between 194 223 c then
        match s1 with
        | String c1 s2 => continuation c1 && encodable s2
        | _ => false
        end
      else if between 224 239 c then
        match s1 with
        | String c1 (String c2 s3) =>
            (if between 224 224 c then between 160 191 c1
             else if between 237 237 c then between 128 159 c1
             else continuation c1)
            && continuation c2 && encodable s3
        | _ => false
        end
      else if between 240 244 c then
        match s1 with
        | String c1 (String c2 (String c3 s4)) =>
            (if between 240 240 c then between 144 191 c1
             else if between 244 244 c then between 128 143 c1
             else continuation c1)
            && continuation c2 && continuation c3 && encodable s4
        | _ => false
        end
      else false
  end.

(** A string is falsy exactly when it is empty. *)
Definition truthy (s : string) : bool :=
  match s with EmptyString => false | _ => true end.

End PyStr.

(* ------------------------------------------------------------------ *)
(** ** A backtracking matcher for the fragment of [re] the script uses *)

Module Re.

Inductive group := G_prefix | G_marker | G_tag | G_text.

Definition group_eqb (a b : group) : bool :=
  match a, b with
  | G_prefix, G_prefix | G_marker, G_marker | G_tag, G_tag | G_text, G_text => true
  | _, _ => false
  end.

(** Repetition is only ever applied to a character class in the pattern,
    so the syntax has it on classes. *)
Inductive regex : Type :=
| Bol                                (* ^ (no MULTILINE) *)
| Eol                                (* $ : at the end, or before a final newline *)
| Chr (p : ascii -> bool)            (* one character of a class *)
| Lit (s : string)                   (* a literal, under the flag i *)
| Seq (r1 r2 : regex)
| Alt (r1 r2 : regex)
| Opt (r : regex)                    (* r?  greedy *)
| Star (p : ascii -> bool)           (* [p]*  greedy *)
| Plus (p : ascii -> bool)           (* [p]+  greedy *)
| LazyStar (p : ascii -> bool)       (* [p]*? *)
| Grp (g : group) (r : regex).       (* (?P<g>r) *)

Definition spans := list (group * (nat * nat)).

(** Where the matcher stands: the offset in the line, what is left of the
    line, and the spans of the groups closed so far (latest first). *)
Record cursor := Cursor { pos : nat; rest : string; caps : spans }.

Definition newline : ascii := ascii_of_nat 10.

(** The characters outside ASCII that the flag i lets a pattern letter
    match, in UTF-8: U+0130 and U+0131 for [i], U+212A for [k] and U+017F
    for [s]; no other letter has any. *)
Definition folded_forms (a : ascii) : list string :=
  if Ascii.eqb (PyStr.lower_char a) "i"
  then [String (ascii_of_nat 196) (String (ascii_of_nat 176) "");
        String (ascii_of_nat 196) (String (ascii_of_nat 177) "")]
  else if Ascii.eqb (PyStr.lower_char a) "k"
  then [String (ascii_of_nat 226) (String (ascii_of_nat 132) (String (ascii_of_nat 170) ""))]
  else if Ascii.eqb (PyStr.lower_char a) "s"
  then [String (ascii_of_nat 197) (String (ascii_of_nat 191) "")]
  else [].

(** What a pattern character matches under the flag i: its lower-case and
    upper-case forms, and the characters folded onto it. *)
Definition forms (a : ascii) : list string :=
  String (PyStr.lower_char a) "" :: String (PyStr.upper_char (PyStr.lower_char a)) ""
  :: folded_forms a.

(** [s] without the prefix [p], when it starts with it. *)
Fixpoint strip_prefix (p s : string) : option string :=
  match p with
  | EmptyString => Some s
  | String a p' =>
      match s with
      | String b s' => if Ascii.eqb a b then strip_prefix p' s' else None
      | EmptyString => None
      end
  end.

(** The first of the forms that [s] starts with, and what follows it. *)
Fixpoint match_form (fs : list string) (s : string) : option (string * string) :=
  match fs with
  | [] => None
  | f :: fs' =>
      match strip_prefix f s with
      | Some s' => Some (f, s')
      | None => match_form fs' s
      end
  end.

(** [t] is a spelling of the literal [l] under the flag i. *)
Fixpoint spells (l t : string) : bool :=
  match l with
  | EmptyString => match t with EmptyString => true | _ => false end
  | String a l' =>
      match match_form (forms a) t with
      | Some (_, t') => spells l' t'
      | None => false
      end
  end.

Section Matcher.
Context {A : Type}.

Definition orelse (x : option A) (y : unit -> option A) : option A :=
  match x with Some r => Some r | None => y tt end.

Fixpoint star_greedy (p : ascii -> bool) (k : cursor -> option A)
         (n : nat) (s : string) (cs : spans) : option A :=
  match s with
  | String c s' =>
      if p c then orelse (star_greedy p k (S n) s' cs) (fun _ => k (Cursor n s cs))
      else k (Cursor n s cs)
  | EmptyString => k (Cursor n s cs)
  end.

Fixpoint star_lazy (p : ascii -> bool) (k : cursor -> option A)
         (n : nat) (s : string) (cs : spans) : option A :=
  orelse (k (Cursor n s cs))
         (fun _ => match s with
                   | String c s' => if p c then star_lazy p k (S n) s' cs else None
                   | EmptyString => None
                   end).

(** A literal under the flag i, character by character of the pattern. *)
Fixpoint literal (l : string) (k : cursor -> option A)
         (n : nat) (s : string) (cs : spans) : option A :=
  match l with
  | EmptyString => k (Cursor n s cs)
  | String a l' =>
      match match_form (forms a) s with
      | Some (f, s') => literal l' k (n + String.length f) s' cs
      | None => None
      end
  end.

Fixpoint run (r : regex) (c : cursor) (k : cursor -> option A) : option A :=
  match r with
  | Bol => if Nat.eqb (pos c) 0 then k c else None
  | Eol =>
      match rest c with
      | EmptyString => k c
      | String ch EmptyString => if Ascii.eqb ch newline then k c else None
      | _ => None
      end
  | Chr p =>
      match rest c with
      | String ch s' => if p ch then k (Cursor (S (pos c)) s' (caps c)) else None
      | EmptyString => None
      end
  | Lit l => literal l k (pos c) (rest c) (caps c)
  | Seq r1 r2 => run r1 c (fun c' => run r2 c' k)
  | Alt r1 r2 => orelse (run r1 c k) (fun _ => run r2 c k)
  | Opt r1 => orelse (run r1 c k) (fun _ => k c)
  | Star p => star_greedy p k (pos c) (rest c) (caps c)
  | Plus p =>
      match rest c with
      | String ch s' => if p ch then star_greedy p k (S (pos c)) s' (caps c) else None
      | EmptyString => None
      end
  | LazyStar p => star_lazy p k (pos c) (rest c) (caps c)
  | Grp g r1 =>
      run r1 c (fun c' => k (Cursor (pos c') (rest c') ((g, (pos c, pos c')) :: caps c')))
  end.
End Matcher.

(** [pattern.search(line)]: the match at the leftmost start offset. *)
Fixpoint search_from (r : regex) (n : nat) (s : string) : option spans :=
  match run r (Cursor n s []) (fun c => Some (caps c)) with
  | Some m => Some m
  | None =>
      match s with
      | String _ s' => search_from r (S n) s'
      | EmptyString => None
      end
  end.

Definition search (r : regex) (line : string) : option spans := search_from r 0 line.

Fixpoint span_of (g : group) (m : spans) : option (nat * nat) :=
  match m with
  | [] => None
  | (g', sp) :: m' => if group_eqb g g' then Some sp else span_of g m'
  end.

(** [m.group(g)]: [None] when the group took no part in the match. *)
Definition group_text (line : string) (m : spans) (g : group) : option string :=
  match span_of g m with
  | Some (a, b) => Some (substring a (b - a) line)
  | None => None
  end.

End Re.

(* ------------------------------------------------------------------ *)
(** ** Constants of the script *)

Definition DEFAULT_MARKERS : list string := ["TODO"; "FIXME"; "BUG"].

Definition DEFAULT_EXCLUDED_DIRS : list string :=
  [".git"; ".hg"; ".svn"; ".idea"; ".vscode";
   "node_modules"; "dist"; "build"; "out"; "target"; "__pycache__"; ".venv"; "venv";
   ".next"; ".turbo"; ".tox"; ".mypy_cache"; ".pytest_cache"].

Definition DEFAULT_INCLUDE_EXTS : list string :=
  [".py"; ".kt"; ".java"; ".go"; ".ts"; ".tsx"; ".js"; ".jsx";
   ".rb"; ".rs"; ".c"; ".h"; ".cpp"; ".hpp"; ".cs";
   ".yaml"; ".yml"; ".json"; ".sh"; ".bash"; ".zsh";
   ".md"; ".txt"; ".toml"; ".ini"; ".tf"; ".tfvars"; ".dockerfile"; "dockerfile"].

Definition CRITICAL_WORDS : list string :=
  ["urgent"; "blocker"; "security"; "prod"; "production"; "p0"; "sev1"; "severe"].

Module Pattern.
Import Re.

Declare Scope re_scope.
Delimit Scope re_scope with re.
Notation "a ';;' b" := (Seq a b) (at level 61, right associativity) : re_scope.
Notation "a '<|>' b" := (Alt a b) (at level 62, right associativity) : re_scope.

Definition char_is (x : ascii) (c : ascii) : bool := Ascii.eqb c x.
Definition colon_or_dash (c : ascii) : bool := char_is ":" c || char_is "-" c.
Definition separator (c : ascii) : bool := colon_or_dash c || PyStr.isspace c.
Definition not_word (c : ascii) : bool := negb (PyStr.isword c).
Definition not_rparen (c : ascii) : bool := negb (char_is ")" c).
Definition dot (c : ascii) : bool := negb (char_is newline c).

Open Scope re_scope.

(** [TODO_PATTERN], under the flags x (layout and comments in the pattern
    are ignored) and i (literals match in either case). *)
Definition TODO_PATTERN : regex :=
  Grp G_prefix (Bol <|> Chr PyStr.isspace <|> Chr not_word) ;;
  Grp G_marker (Lit "TODO" <|> Lit "FIXME" <|> Lit "BUG") ;;
  Opt ( (Star PyStr.isspace ;; Chr separator ;; Star PyStr.isspace)
        <|> (Star PyStr.isspace ;; Chr (char_is "(") ;; Star PyStr.isspace ;;
             Grp G_tag (Plus not_rparen) ;;
             Star PyStr.isspace ;; Chr (char_is ")") ;; Star PyStr.isspace ;;
             Opt (Chr colon_or_dash) ;; Star PyStr.isspace) ) ;;
  Grp G_text (LazyStar dot) ;; Eol.

Close Scope re_scope.
End Pattern.
Import Pattern.

(* ------------------------------------------------------------------ *)
(** ** Marker scanning: [scan_file] *)

(** What iterating over a text-mode file handle delivers: lines, then the
    end of the file or an exception.  [IOError] at the head is a failure
    to open the file.  The lines are text, decoded with
    [errors="replace"]: a byte of the file that is not UTF-8 arrives as
    U+FFFD. *)
Inductive stream :=
| Eof
| IOError
| Line (l : string) (more : stream).

Record entry := Entry {
  e_line : nat;
  e_marker : string;
  e_tag : string;
  e_text : string;
  e_preview : string
}.

(** The body of the loop for one line: the entry appended, if any. *)
Definition scan_line (markers : list string) (i : nat) (line : string) : option entry :=
  match Re.search TODO_PATTERN line with
  | None => None
  | Some m =>
      let marker := match Re.group_text line m Re.G_marker with Some s => s | None => "" end in
      if negb (PyStr.mem marker markers) then None
      else
        let text := PyStr.strip
                      (match Re.group_text line m Re.G_text with Some s => s | None => "" end) in
        let tag := match Re.group_text line m Re.G_tag with
                   | Some t => if PyStr.truthy t then PyStr.strip t else ""
                   | None => ""
                   end in
        Some (Entry i marker tag text (PyStr.strip line))
  end.

(** The [try] block: the list [todos] after the loop, and whether the loop
    ended by an exception. *)
Fixpoint scan_loop (markers : list string) (i : nat) (f : stream) (todos : list entry)
  : list entry * bool :=
  match f with
  | Eof => (todos, false)
  | IOError => (todos, true)
  | Line l more =>
      match scan_line markers i l with
      | Some e => scan_loop markers (S i) more (todos ++ [e])
      | None => scan_loop markers (S i) more todos
      end
  end.

(** [scan_file]: the handler swallows the exception and the function
    returns [todos] as it stands. *)
Definition scan_file (f : stream) (markers : list string) : list entry :=
  let (todos, raised) := scan_loop markers 1 f [] in
  if raised then todos else todos.

(** [looks_critical].  The text of a finding is any text at all, so
    [text.lower()] is left to the interpreter: [lower] is its [str.lower]. *)
Definition looks_critical (lower : string -> string) (text : string) : bool :=
  let t := lower text in
  existsb (fun word => PyStr.contains word t) CRITICAL_WORDS.


(* ------------------------------------------------------------------ *)
(** ** The file system and file discovery *)

(** A regular file: what a binary-mode read returns ([None] when opening
    or reading raises) and what the text-mode iteration delivers. *)
Record file := File {
  f_bytes : option (list Byte.byte);
  f_text : stream
}.

#[local] Set Warnings "-register-all".

(** A directory is the list of its entries, in the order [scandir] and
    [iterdir] list them. *)
Inductive node :=
| F (f : file)
| D (entries : list (string * node)).

(** A [Path] below some directory, as its components. *)
Definition path := list string.

(** [is_binary_file]. *)
Definition textchars (b : Byte.byte) : bool :=
  let n := Byte.to_nat b in
  existsb (Nat.eqb n) [7; 8; 9; 10; 12; 13; 27] || (Nat.leb 32 n && Nat.ltb n 256).

Definition sample (sample_size : nat) (content : list Byte.byte) : list Byte.byte :=
  firstn sample_size content.

(** [chunk.translate(None, textchars)]: the bytes left once the text bytes
    are deleted. *)
Definition nontext (chunk : list Byte.byte) : list Byte.byte :=
  filter (fun b => negb (textchars b)) chunk.

Definition is_binary_file (f : file) : bool :=
  match f_bytes f with
  | Some content =>
      let chunk := sample 1024 content in
      if existsb (Byte.eqb Byte.x00) chunk then true
      else match nontext chunk with [] => false | _ :: _ => true end
  | None => true
  end.

(** [should_exclude_dir]. *)
Definition should_exclude_dir (dirname : string) (excluded : list string) : bool :=
  PyStr.mem dirname excluded
  || (PyStr.startswith "." dirname && negb (PyStr.mem dirname ["."])).

Definition dir_names (entries : list (string * node)) : list string :=
  flat_map (fun e => match snd e with D _ => [fst e] | F _ => [] end) entries.

Definition file_entries (entries : list (string * node)) : list (string * file) :=
  flat_map (fun e => match snd e with F f => [(fst e, f)] | D _ => [] end) entries.

(** [os.walk(top)], top-down, consumed by a loop whose body replaces
    [dirs] in place by its members satisfying [keep]: the triples yielded,
    in order.  The walk descends only into the directories left in [dirs]. *)
Fixpoint os_walk (keep : string -> bool) (top : path) (n : node)
  : list (path * list string * list (string * file)) :=
  match n with
  | F _ => []
  | D entries =>
      (top, filter keep (dir_names entries), file_entries entries)
      :: (fix descend (es : list (string * node)) :=
            match es with
            | [] => []
            | (name, child) :: es' =>
                match child with
                | D _ => if keep name then os_walk keep (top ++ [name]) child else []
                | F _ => []
                end ++ descend es'
            end) entries
  end.

Fixpoint rfind (c : ascii) (s : string) : option nat :=
  match s with
  | EmptyString => None
  | String a s' =>
      match rfind c s' with
      | Some i => Some (S i)
      | None => if Ascii.eqb a c then Some 0 else None
      end
  end.

(** [PurePath.suffix] of a file name: from the last dot on, unless that
    dot is the first or the last character. *)
Definition suffix (name : string) : string :=
  match rfind "." name with
  | Some i =>
      if Nat.ltb 0 i && Nat.ltb i (String.length name - 1)
      then substring i (String.length name - i) name
      else ""
  | None => ""
  end.

(** The [ext] of line 155. *)
Definition ext_of (name : string) : string :=
  if PyStr.truthy (suffix name) then PyStr.lower (suffix name) else PyStr.lower name.

(** [collect_files]: the eligible files below [repo_dir], each with its
    path relative to [repo_dir]. *)
Definition collect_files (repo_dir : node) (include_exts excluded_dirs : list string)
  : list (path * file) :=
  flat_map
    (fun t : path * list string * list (string * file) =>
       let '(root, _, files) := t in
       flat_map (fun nf : string * file =>
                   let (name, f) := nf in
                   if PyStr.mem (ext_of name) include_exts && negb (is_binary_file f)
                   then [(root ++ [name], f)] else [])
                files)
    (os_walk (fun d => negb (should_exclude_dir d excluded_dirs)) [] repo_dir).

(* ------------------------------------------------------------------ *)
(** ** Remote metadata: [detect_remote_info] and [build_line_link] *)

(** The raw output of each [git] invocation in a repository; [None] when
    [check_output] or the decoding raises. *)
Record git_env := GitEnv {
  git_remote_get_url : option string;
  git_symbolic_ref : option string;
  git_rev_parse : option string
}.

Record remote_info := RemoteInfo {
  host : string;
  orgrepo : string;
  repo : string;
  default_branch : string
}.

(** The helper [_git]: the stripped output. *)
Definition _git (out : option string) : option string := option_map PyStr.strip out.

(** [not x] for a value that is [None] or a string. *)
Definition falsy (x : option string) : bool :=
  match x with Some s => negb (PyStr.truthy s) | None => true end.

(** Lines 96-111: [Some (host, orgrepo)], either of which may still be
    Python's [None]; the outer [None] is an early [return None] or an
    exception caught by the outer handler. *)
Definition parse_remote_url (remote_url : string) : option (option string * option string) :=
  if PyStr.startswith "git@" remote_url then
    match PyStr.split_once "@" remote_url with
    | Some (_, rest) =>
        match PyStr.split_once ":" rest with
        | Some (h, p) => Some (Some h, Some p)
        | None => None
        end
    | None => None
    end
  else if PyStr.startswith "https://" remote_url || PyStr.startswith "http://" remote_url then
    let parts := PyStr.split "/" remote_url in
    if Nat.leb 5 (List.length parts)
    then Some (Some (nth 2 parts ""), Some (PyStr.join "/" (firstn 2 (skipn 3 parts))))
    else Some (None, None)
  else None.

(** Lines 118-126. *)
Definition detect_branch (g : git_env) : string :=
  match _git (git_symbolic_ref g) with
  | Some default_branch => PyStr.last_item (PyStr.split "/" default_branch)
  | None =>
      match _git (git_rev_parse g) with
      | Some default_branch => default_branch
      | None => "main"
      end
  end.

Definition detect_remote_info (g : git_env) : option remote_info :=
  match _git (git_remote_get_url g) with
  | None => None
  | Some remote_url =>
      let remote_url :=
        if PyStr.endswith ".git" remote_url then PyStr.drop_last 4 remote_url else remote_url in
      match parse_remote_url remote_url with
      | None => None
      | Some (h, o) =>
          if falsy h || falsy o then None
          else
            match h, o with
            | Some h, Some o =>
                Some (RemoteInfo h o (PyStr.last_item (PyStr.split "/" o)) (detect_branch g))
            | _, _ => None
            end
      end
  end.

Inductive field := Fhost | Forgrepo | Frepo | Fbranch | Fpath | Fline.

(** A format string: literal text and replacement fields. *)
Inductive segment :=
| Txt (s : string)
| Fld (f : field).

Definition GITHUB_TEMPLATE : list segment :=
  [Txt "https://"; Fld Fhost; Txt "/"; Fld Forgrepo; Txt "/blob/"; Fld Fbranch;
   Txt "/"; Fld Fpath; Txt "#L"; Fld Fline].

Definition GITLAB_TEMPLATE : list segment :=
  [Txt "https://"; Fld Fhost; Txt "/"; Fld Forgrepo; Txt "/-/blob/"; Fld Fbranch;
   Txt "/"; Fld Fpath; Txt "#L"; Fld Fline].

Definition AZURE_TEMPLATE : list segment :=
  [Txt "https://"; Fld Fhost; Txt "/"; Fld Forgrepo; Txt "/_git/"; Fld Frepo;
   Txt "?path=/"; Fld Fpath; Txt "&version=GB"; Fld Fbranch; Txt "&line="; Fld Fline].

Definition LINE_LINK_TEMPLATES : list (string * list segment) :=
  [ ("github.com", GITHUB_TEMPLATE);
    ("gitlab.com", GITLAB_TEMPLATE);
    ("dev.azure.com", AZURE_TEMPLATE) ].

(** [template.format(host=..., orgrepo=..., repo=..., branch=..., path=...,
    line=...)]: every field of the templates is among the keywords, and the
    values are strings and an integer, so the call does not raise. *)
Definition format (template : list segment) (remote : remote_info)
           (branch rel_path : string) (line_no : nat) : string :=
  String.concat ""
    (map (fun sg =>
            match sg with
            | Txt s => s
            | Fld Fhost => host remote
            | Fld Forgrepo => orgrepo remote
            | Fld Frepo => repo remote
            | Fld Fbranch => branch
            | Fld Fpath => rel_path
            | Fld Fline => PyStr.of_nat line_no
            end) template).

Fixpoint first_link (templates : list (string * list segment)) (remote : remote_info)
         (branch rel_path : string) (line_no : nat) : option string :=
  match templates with
  | [] => None
  | (h, template) :: more =>
      if PyStr.contains h (host remote)
      then Some (format template remote branch rel_path line_no)
      else first_link more remote branch rel_path line_no
  end.

(** [build_line_link]. *)
Definition build_line_link (remote : remote_info) (branch rel_path : string) (line_no : nat)
  : option string :=
  first_link LINE_LINK_TEMPLATES remote branch rel_path line_no.

(* ------------------------------------------------------------------ *)
(** ** Sorting and insertion-ordered dictionaries *)

Section Sorting.
Context {A : Type} (le : A -> A -> bool).

Fixpoint insert_sorted (x : A) (l : list A) : list A :=
  match l with
  | [] => [x]
  | y :: l' => if le x y then x :: y :: l' else y :: insert_sorted x l'
  end.

(** [sorted(l)]: a stable sort. *)
Fixpoint sorted (l : list A) : list A :=
  match l with
  | [] => []
  | x :: l' => insert_sorted x (sorted l')
  end.
End Sorting.

(** A [dict] from strings to lists, in insertion order. *)
Definition dict (V : Type) := list (string * list V).

Section Dict.
Context {V : Type}.

(** [d.setdefault(k, []).append(v)]. *)
Fixpoint setdefault_append (d : dict V) (k : string) (v : V) : dict V :=
  match d with
  | [] => [(k, [v])]
  | (k', vs) :: d' =>
      if String.eqb k' k then (k', vs ++ [v]) :: d'
      else (k', vs) :: setdefault_append d' k v
  end.

(** [d.get(k)]: [None] when [k] is not a key. *)
Fixpoint get (d : dict V) (k : string) : option (list V) :=
  match d with
  | [] => None
  | (k', vs) :: d' => if String.eqb k' k then Some vs else get d' k
  end.

Definition keys (d : dict V) : list string := map fst d.
Definition values (d : dict V) : list (list V) := map snd d.

(** [d[k]] for a key of [d]. *)
Definition item (d : dict V) (k : string) : list V :=
  match get d k with Some vs => vs | None => [] end.
End Dict.

(* ------------------------------------------------------------------ *)
(** ** The run: [main] *)

Record args := Args {
  arg_root : string;
  arg_repos : string;
  arg_out_md : string;
  arg_out_json : string;
  arg_marker : string;
  arg_include_ext : string;
  arg_extra_exclude : string;
  arg_no_remote_links : bool;
  arg_branch : string
}.

(** The defaults of [parse_args]. *)
Definition default_args : args :=
  {| arg_root := "..";
     arg_repos := "";
     arg_out_md := "TODO.md";
     arg_out_json := "";
     arg_marker := PyStr.join "," DEFAULT_MARKERS;
     arg_include_ext := PyStr.join "," (sorted String.leb DEFAULT_INCLUDE_EXTS);
     arg_extra_exclude := "";
     arg_no_remote_links := false;
     arg_branch := "" |}.

(** What the run observes of its surroundings. *)
Record world := World {
  (** [str(Path(args.root).resolve())] *)
  w_root : string;
  (** the entries of the root directory, as [iterdir] lists them; [None]
      when the root cannot be listed *)
  w_entries : option (list (string * node));
  (** the [git] outcomes in [root / name] *)
  w_git : string -> git_env;
  (** [datetime.utcnow().isoformat(timespec='seconds')] *)
  w_utcnow : string;
  (** [str.lower] of the interpreter, on any text *)
  w_lower : string -> string;
  (** whether the file [out_md] can be written *)
  w_write_md : bool;
  (** whether the file [out_json] can be written *)
  w_write_json : bool;
  (** whether the [print]s of the summary to the standard output return *)
  w_print : bool;
  (** whether the interpreter, on its way out, flushes the standard
      streams: when it cannot (a closed pipe, a full device), it turns
      the exit status into 120 *)
  w_flush : bool
}.

Record finding := Finding {
  fd_file : string;
  fd_line : nat;
  fd_marker : string;
  fd_tag : string;
  fd_text : string;
  fd_preview : string;
  fd_link : string;
  fd_repo : string
}.

(** [[x.strip() for x in s.split(",") if x.strip()]]. *)
Definition csv (s : string) : list string :=
  filter PyStr.truthy (map PyStr.strip (PyStr.split "," s)).

Definition parse_include_exts (a : args) : list string :=
  map PyStr.lower (csv (arg_include_ext a)).

Definition parse_markers (a : args) : list string :=
  map PyStr.upper (csv (arg_marker a)).

Definition parse_excluded_dirs (a : args) : list string :=
  DEFAULT_EXCLUDED_DIRS
  ++ (if PyStr.truthy (arg_extra_exclude a) then csv (arg_extra_exclude a) else []).

(** The repo names to scan: [None] is the exception of [root.iterdir()]
    on a root that cannot be listed. *)
Definition parse_repos (w : world) (a : args) : option (list string) :=
  if PyStr.truthy (arg_repos a) then Some (csv (arg_repos a))
  else match w_entries w with
       | Some entries => Some (filter (fun n => negb (String.eqb n "super")) (dir_names entries))
       | None => None
       end.

(** [root / repo_name] when it is a directory.  Repo names are single
    path components. *)
Definition repo_dir_of (w : world) (repo_name : string) : option node :=
  match w_entries w with
  | Some entries =>
      match find (fun e => String.eqb (fst e) repo_name) entries with
      | Some (_, D sub) => Some (D sub)
      | _ => None
      end
  | None => None
  end.

(** [os.path.relpath(file_path, repo_dir)]. *)
Definition relpath (p : path) : string := PyStr.join "/" p.

Definition backslash : ascii := ascii_of_nat 92.

Definition normalize_slashes (s : string) : string :=
  PyStr.replace_char backslash "/" s.

(** The two variables the scanning loop updates. *)
Record state := State {
  aggregated : dict finding;
  critical_found : bool
}.

(** Lines 228-246: the body of the loop over the entries of one file. *)
Definition add_entry (w : world) (a : args) (repo_name : string)
           (remote : option remote_info)
           (branch rel_from_repo : string) (st : state) (e : entry) : state :=
  let line_no := e_line e in
  let link :=
    match remote with
    | Some r =>
        if negb (arg_no_remote_links a)
        then build_line_link r branch (normalize_slashes rel_from_repo) line_no
        else None
    | None => None
    end in
  let critical :=
    if looks_critical (w_lower w) (e_text e) then true else critical_found st in
  State
    (setdefault_append (aggregated st) repo_name
       {| fd_file := normalize_slashes rel_from_repo;
          fd_line := line_no;
          fd_marker := e_marker e;
          fd_tag := e_tag e;
          fd_text := e_text e;
          fd_preview := e_preview e;
          fd_link := match link with Some l => l | None => "" end;
          fd_repo := repo_name |})
    critical.

(** Lines 224-246: the loop over the files of one repo. *)
Definition scan_files (w : world) (a : args) (markers : list string) (repo_name : string)
           (remote : option remote_info) (branch : string)
           (files : list (path * file)) (st : state) : state :=
  fold_left
    (fun st (pf : path * file) =>
       let rel_from_repo := relpath (fst pf) in
       let entries := scan_file (f_text (snd pf)) markers in
       fold_left (add_entry w a repo_name remote branch rel_from_repo) entries st)
    files st.

(** Lines 213-246: the body of the loop over the repos. *)
Definition scan_repo (w : world) (a : args) (st : state) (repo_name : string) : state :=
  match repo_dir_of w repo_name with
  | None => st
  | Some repo_dir =>
      let remote :=
        if arg_no_remote_links a then None else detect_remote_info (w_git w repo_name) in
      let branch :=
        if PyStr.truthy (arg_branch a) then arg_branch a
        else match remote with Some r => default_branch r | None => "main" end in
      let files := collect_files repo_dir (parse_include_exts a) (parse_excluded_dirs a) in
      scan_files w a (parse_markers a) repo_name remote branch files st
  end.

Definition scan_repos (w : world) (a : args) (repos : list string) : state :=
  fold_left (scan_repo w a) (sorted String.leb repos) (State [] false).

(** The sort key [(x["marker"], x["file"], x["line"])], compared as tuples. *)
Definition key_le (x y : finding) : bool :=
  match String.compare (fd_marker x) (fd_marker y) with
  | Lt => true
  | Gt => false
  | Eq =>
      match String.compare (fd_file x) (fd_file y) with
      | Lt => true
      | Gt => false
      | Eq => Nat.leb (fd_line x) (fd_line y)
      end
  end.

Definition sort_within_repos (d : dict finding) : dict finding :=
  map (fun kv => (fst kv, sorted key_le (snd kv))) d.

Definition of_codes (l : list nat) : string :=
  string_of_list_ascii (map ascii_of_nat l).

(** The non-ASCII literals of the report, byte for byte as in the source. *)
Definition DASH : string := of_codes [226; 128; 154; 195; 132; 195; 174].
Definition PARTY : string := of_codes [239; 163; 191; 195; 188; 195; 169; 195; 162].

Definition total_count (d : dict finding) : nat :=
  list_sum (map (@List.length finding) (values d)).

Definition md_header (w : world) (repos markers : list string) (d : dict finding)
  : list string :=
  [ "# Consolidated TODOs";
    "";
    "- Generated: " +:+ w_utcnow w +:+ "Z";
    "- Root scanned: `" +:+ w_root w +:+ "`";
    "- Repos scanned: " +:+ (match repos with [] => "(none)" | _ => PyStr.join ", " repos end);
    "- Markers: " +:+ PyStr.join ", " markers;
    "";
    "**Total items:** " +:+ PyStr.of_nat (total_count d) ]
  ++ (if Nat.eqb (total_count d) 0
      then [""; "> " +:+ PARTY +:+ " No TODO-like markers found in the scanned repositories."]
      else [])
  ++ [""].

Definition md_bullet (it : finding) : string :=
  let tag_str := if PyStr.truthy (fd_tag it) then " **[" +:+ fd_tag it +:+ "]**" else "" in
  let location :=
    if PyStr.truthy (fd_link it) then fd_link it
    else "`" +:+ fd_file it +:+ ":" +:+ PyStr.of_nat (fd_line it) +:+ "`" in
  let preview := if PyStr.truthy (fd_text it) then fd_text it else fd_preview it in
  "- " +:+ location +:+ tag_str +:+ " " +:+ DASH +:+ " " +:+ preview.

Definition group_by_marker (items : list finding) : dict finding :=
  fold_left (fun by_marker it => setdefault_append by_marker (fd_marker it) it) items [].

Definition md_marker_block (by_marker : dict finding) (marker : string) : list string :=
  [ "### " +:+ marker +:+ " (" +:+ PyStr.of_nat (List.length (item by_marker marker)) +:+ ")"; "" ]
  ++ map md_bullet (item by_marker marker)
  ++ [""].

Definition md_repo_section (d : dict finding) (repo_name : string) : list string :=
  let items := item d repo_name in
  let by_marker := group_by_marker items in
  [ "## " +:+ repo_name +:+ " (" +:+ PyStr.of_nat (List.length items) +:+ ")"; "" ]
  ++ flat_map (md_marker_block by_marker) (sorted String.leb (keys by_marker))
  ++ [""].

Definition md_lines (w : world) (repos markers : list string) (d : dict finding)
  : list string :=
  md_header w repos markers d
  ++ flat_map (md_repo_section d) (sorted String.leb (keys d)).

Record result := Result {
  (** the report: repo name to sorted findings *)
  r_report : dict finding;
  (** the lines joined into the Markdown file *)
  r_md_lines : list string;
  (** the text written to [out_md] *)
  r_markdown : string;
  (** the ["items"] of the JSON file, when one is asked for *)
  r_json_items : option (list finding);
  (** the status [main] ends with: 1 through [sys.exit], 0 on return *)
  r_exit_code : nat
}.

(** [main]: [None] is a run ended by an uncaught exception.  Nothing
    after the scanning loop is guarded: the two [write_text] calls and the
    [print]s of the summary raise into the caller.  The first raises when
    the text cannot be encoded, which a file or repo name with a byte
    that is not UTF-8 brings about, or the file cannot be written; the
    second writes what [json.dumps] has escaped, and raises only when the
    file cannot be written.  The message to the standard error comes
    right before [sys.exit(1)], and the status is 1 whether it raises or
    not. *)
Definition main (w : world) (a : args) : option result :=
  match parse_repos w a with
  | None => None
  | Some repos =>
      let markers := parse_markers a in
      let st := scan_repos w a repos in
      let d := sort_within_repos (aggregated st) in
      let lines := md_lines w repos markers d in
      let text := PyStr.join (String Re.newline "") lines in
      if negb (PyStr.encodable text && w_write_md w) then None
      else if PyStr.truthy (arg_out_json a) && negb (w_write_json w) then None
      else if negb (w_print w) then None
      else
        Some {| r_report := d;
                r_md_lines := lines;
                r_markdown := text;
                r_json_items :=
                  if PyStr.truthy (arg_out_json a) then Some (List.concat (values d)) else None;
                r_exit_code := if critical_found st then 1 else 0 |}
  end.


(* ------------------------------------------------------------------ *)
(** ** Vocabulary of the statements *)

(** [w] occurs in [t] as a contiguous substring. *)
Definition substring_of (w t : string) : Prop :=
  exists a b, t = a +:+ w +:+ b.

(** The lines a stream delivers before it ends, and whether it ends with
    a failure. *)
Fixpoint delivered (s : stream) : list string :=
  match s with
  | Line l more => l :: delivered more
  | _ => []
  end.

Fixpoint read_fails (s : stream) : bool :=
  match s with
  | Eof => false
  | IOError => true
  | Line _ more => read_fails more
  end.

(** The readable text file made of the given lines. *)
Definition text_stream (lines : list string) : stream := fold_right Line Eof lines.

(** The node at a path below a directory. *)
Fixpoint node_at (n : node) (p : path) : option node :=
  match p with
  | [] => Some n
  | name :: p' =>
      match n with
      | D entries =>
          (fix look (es : list (string * node)) :=
             match es with
             | [] => None
             | (name', child) :: es' =>
                 if String.eqb name' name then node_at child p' else look es'
             end) entries
      | F _ => None
      end
  end.

(** [v] is listed under the key [k] of the dictionary. *)
Definition member {V : Type} (d : dict V) (k : string) (v : V) : Prop :=
  exists vs, In (k, vs) d /\ In v vs.

Definition nonempty_values {V : Type} (d : dict V) : Prop :=
  forall k vs, In (k, vs) d -> vs <> [].

(** The character [c] occurs in [s]. *)
Fixpoint has (c : ascii) (s : string) : bool :=
  match s with
  | EmptyString => false
  | String x s' => Ascii.eqb x c || has c s'
  end.

(** Where a finding of the report comes from: an entry of the scan of a
    collected file of the directory of its repo. *)
Definition produced_by (w : world) (a : args) (repo_name : string) (fd : finding) : Prop :=
  exists repo_dir p f e,
    repo_dir_of w repo_name = Some repo_dir
    /\ In (p, f) (collect_files repo_dir (parse_include_exts a) (parse_excluded_dirs a))
    /\ In e (scan_file (f_text f) (parse_markers a))
    /\ fd_repo fd = repo_name
    /\ fd_file fd = normalize_slashes (relpath p)
    /\ fd_line fd = e_line e
    /\ fd_marker fd = e_marker e
    /\ fd_tag fd = e_tag e
    /\ fd_text fd = e_text e
    /\ fd_preview fd = e_preview e.

(** Some finding of the dictionary looks critical. *)
Definition critical_in (lower : string -> string) (d : dict finding) : Prop :=
  exists k fd, member d k fd /\ looks_critical lower (fd_text fd) = true.

(** What the scanning loop maintains. *)
Definition run_invariant (w : world) (a : args) (st : state) : Prop :=
  nonempty_values (aggregated st)
  /\ (forall k fd, member (aggregated st) k fd -> produced_by w a k fd)
  /\ (critical_found st = true <-> critical_in (w_lower w) (aggregated st)).

(* ------------------------------------------------------------------ *)
(** ** Example inputs *)

Definition nl : string := String Re.newline "".

Definition encode (s : string) : list Byte.byte :=
  map byte_of_ascii (list_ascii_of_string s).

(** A readable text file with the given lines, each ended by a newline. *)
Definition source_file (lines : list string) : file :=
  let with_nl := map (fun l => l +:+ nl) lines in
  File (Some (encode (String.concat "" with_nl))) (text_stream with_nl).

(** A file with a text extension whose content starts with a NUL byte. *)
Definition nul_file : file :=
  File (Some (Byte.x00 :: encode "TODO: inside a binary file"))
       (text_stream ["TODO: inside a binary file"]).

(** A file that cannot be opened. *)
Definition unreadable_file : file := File None IOError.

(** A file whose read fails after its first line. *)
Definition failing_file : file :=
  File (Some (encode "# TODO: first")) (Line ("# TODO: first" +:+ nl) IOError).

Definition github_remote (symbolic_ref rev_parse : option string) : git_env :=
  GitEnv (Some "git@github.com:acme/widgets.git") symbolic_ref rev_parse.

(** [--marker hack]. *)
Definition hack_args : args :=
  {| arg_root := "..";
     arg_repos := "";
     arg_out_md := "TODO.md";
     arg_out_json := "";
     arg_marker := "hack";
     arg_include_ext := PyStr.join "," (sorted String.leb DEFAULT_INCLUDE_EXTS);
     arg_extra_exclude := "";
     arg_no_remote_links := false;
     arg_branch := "" |}.

Definition demo_git (name : string) : git_env :=
  if String.eqb name "app"
  then GitEnv (Some "git@github.com:acme/app.git") (Some "refs/remotes/origin/main") None
  else GitEnv None None None.

Definition app_dir : node :=
  D [ ("main.py",
       F (source_file ["import os";
                       "# TODO(alice): production outage";
                       "x = 1  # FIXME - handle null case"]));
      ("node_modules", D [("dep.js", F (source_file ["// TODO: vendored"]))]);
      ("logo.txt", F nul_file);
      ("notes.bin", F (source_file ["TODO: wrong extension"])) ].

Definition demo_entries : list (string * node) :=
  [ ("app", app_dir);
    ("empty", D []);
    (".tools", D [("gen.py", F (source_file ["# TODO: regenerate"]))]);
    ("super", D [("README.md", F (source_file ["TODO: the aggregator itself"]))]);
    ("README.md", F (source_file ["TODO: a file, not a repo"])) ].

(** A directory tree seen by a run in which every write and print
    succeeds; the texts of the examples are ASCII, lowered letter by
    letter. *)
Definition plain_world (entries : option (list (string * node)))
           (git : string -> git_env) : world :=
  {| w_root := "/work";
     w_entries := entries;
     w_git := git;
     w_utcnow := "2026-01-01T00:00:00";
     w_lower := PyStr.lower;
     w_write_md := true;
     w_write_json := true;
     w_print := true;
     w_flush := true |}.

Definition demo_world : world := plain_world (Some demo_entries) demo_git.

(** A root whose only repo holds the file whose read fails. *)
Definition failing_world : world :=
  plain_world (Some [("app", D [("io.py", F failing_file)])])
              (fun _ => GitEnv None None None).



(** [--repos app,ghost]: the second name has no directory. *)
Definition ghost_args : args :=
  {| arg_root := "..";
     arg_repos := "app,ghost";
     arg_out_md := "TODO.md";
     arg_out_json := "";
     arg_marker := PyStr.join "," DEFAULT_MARKERS;
     arg_include_ext := PyStr.join "," (sorted String.leb DEFAULT_INCLUDE_EXTS);
     arg_extra_exclude := "";
     arg_no_remote_links := false;
     arg_branch := "" |}.


(* ------------------------------------------------------------------ *)
(** ** Vocabulary of the further properties *)

(** The entries of a list of lines numbered from [i], in order. *)
Fixpoint entries_of (markers : list string) (i : nat) (lines : list string) : list entry :=
  match lines with
  | [] => []
  | l :: ls =>
      match scan_line markers i l with
      | Some e => e :: entries_of markers (S i) ls
      | None => entries_of markers (S i) ls
      end
  end.

(** Every character of [s] satisfies [p]. *)
Fixpoint all_chars (p : ascii -> bool) (s : string) : bool :=
  match s with
  | EmptyString => true
  | String c s' => p c && all_chars p s'
  end.

(** The cursors a pattern can lead to from a cursor, whatever the order
    in which the matcher tries them. *)
Fixpoint reach (r : Re.regex) (c c' : Re.cursor) : Prop :=
  match r with
  | Re.Bol => Re.pos c = 0 /\ c' = c
  | Re.Eol => (Re.rest c = "" \/ Re.rest c = String Re.newline "") /\ c' = c
  | Re.Chr p =>
      exists ch s', Re.rest c = String ch s' /\ p ch = true
                    /\ c' = Re.Cursor (S (Re.pos c)) s' (Re.caps c)
  | Re.Lit l =>
      exists t s', Re.rest c = t +:+ s' /\ Re.spells l t = true
                   /\ c' = Re.Cursor (Re.pos c + String.length t) s' (Re.caps c)
  | Re.Seq r1 r2 => exists c1, reach r1 c c1 /\ reach r2 c1 c'
  | Re.Alt r1 r2 => reach r1 c c' \/ reach r2 c c'
  | Re.Opt r1 => reach r1 c c' \/ c' = c
  | Re.Star p | Re.LazyStar p =>
      exists t s', Re.rest c = t +:+ s' /\ all_chars p t = true
                   /\ c' = Re.Cursor (Re.pos c + String.length t) s' (Re.caps c)
  | Re.Plus p =>
      exists t s', Re.rest c = t +:+ s' /\ all_chars p t = true /\ t <> ""
                   /\ c' = Re.Cursor (Re.pos c + String.length t) s' (Re.caps c)
  | Re.Grp g r1 =>
      exists c1, reach r1 c c1
                 /\ c' = Re.Cursor (Re.pos c1) (Re.rest c1)
                                   ((g, (Re.pos c, Re.pos c1)) :: Re.caps c1)
  end.

(** A character of the ASCII range, and a text made of such. *)
Definition is_ascii (c : ascii) : bool := Nat.ltb (nat_of_ascii c) 128.

Definition ascii_text (s : string) : bool := all_chars is_ascii s.

(** [t] is what the marker group of [TODO_PATTERN] can capture: a
    spelling of one of its three keywords under the flag i. *)
Definition spells_keyword (t : string) : bool :=
  Re.spells "TODO" t || Re.spells "FIXME" t || Re.spells "BUG" t.

(** The pattern has a group named [g]. *)
Fixpoint binds (g : Re.group) (r : Re.regex) : bool :=
  match r with
  | Re.Seq r1 r2 | Re.Alt r1 r2 => binds g r1 || binds g r2
  | Re.Opt r1 => binds g r1
  | Re.Grp g' r1 => Re.group_eqb g g' || binds g r1
  | _ => false
  end.

(** The cursor stands in [line] at its offset. *)
Definition on_line (line : string) (c : Re.cursor) : Prop :=
  exists pre, line = pre +:+ Re.rest c /\ String.length pre = Re.pos c.

(** A finding of the report of the demonstration run. *)
Definition demo_finding : finding :=
  Finding "main.py" 2 "TODO" "alice" "production outage"
          "# TODO(alice): production outage"
          "https://github.com/acme/app/blob/main/main.py#L2" "app".

Definition demo_fixme : finding :=
  Finding "main.py" 3 "FIXME" "" "handle null case"
          "x = 1  # FIXME - handle null case"
          "https://github.com/acme/app/blob/main/main.py#L3" "app".

(** The remote and the branch [scan_repo] works out for a repo. *)
Definition remote_of (w : world) (a : args) (repo_name : string) : option remote_info :=
  if arg_no_remote_links a then None else detect_remote_info (w_git w repo_name).

Definition branch_of (a : args) (remote : option remote_info) : string :=
  if PyStr.truthy (arg_branch a) then arg_branch a
  else match remote with Some r => default_branch r | None => "main" end.

(** The finding [add_entry] appends for an entry. *)
Definition finding_of (a : args) (repo_name : string) (remote : option remote_info)
           (branch rel_from_repo : string) (e : entry) : finding :=
  {| fd_file := normalize_slashes rel_from_repo;
     fd_line := e_line e;
     fd_marker := e_marker e;
     fd_tag := e_tag e;
     fd_text := e_text e;
     fd_preview := e_preview e;
     fd_link :=
       match
         match remote with
         | Some r =>
             if negb (arg_no_remote_links a)
             then build_line_link r branch (normalize_slashes rel_from_repo) (e_line e)
             else None
         | None => None
         end
       with Some l => l | None => "" end;
     fd_repo := repo_name |}.

(** The findings a repo name stands for: those of the entries of the
    collected files of its directory. *)
Definition found_in (w : world) (a : args) (repo_name : string) (fd : finding) : Prop :=
  exists repo_dir p f e,
    repo_dir_of w repo_name = Some repo_dir
    /\ In (p, f) (collect_files repo_dir (parse_include_exts a) (parse_excluded_dirs a))
    /\ In e (scan_file (f_text f) (parse_markers a))
    /\ fd = finding_of a repo_name (remote_of w a repo_name)
                       (branch_of a (remote_of w a repo_name)) (relpath p) e.

(** The findings of a list that carry a given marker, in order. *)
Definition with_marker (marker : string) (items : list finding) : list finding :=
  filter (fun it => String.eqb (fd_marker it) marker) items.

(** The directory at a relative path below a node, as its entries. *)
Fixpoint dir_at (rel : path) (n : node) (entries : list (string * node)) : Prop :=
  match rel with
  | [] => n = D entries
  | d :: rel' =>
      exists es sub, n = D es /\ In (d, sub) es /\ dir_at rel' sub entries
  end.

(** The file [f] is the entry [name] of the directory at [dirs] below a
    node. *)
Definition file_at (dirs : path) (n : node) (name : string) (f : file) : Prop :=
  exists entries, dir_at dirs n entries /\ In (name, F f) entries.

(** Lines 93-94: the remote URL without one trailing [.git]. *)
Definition normalize_url (remote_url : string) : string :=
  if PyStr.endswith ".git" remote_url then PyStr.drop_last 4 remote_url else remote_url.

(** The findings one turn of the repo loop appends for a repo name, in
    the order it appends them. *)
Definition repo_findings (w : world) (a : args) (repo_name : string) : list finding :=
  match repo_dir_of w repo_name with
  | None => []
  | Some repo_dir =>
      flat_map
        (fun pf : path * file =>
           map (finding_of a repo_name (remote_of w a repo_name)
                           (branch_of a (remote_of w a repo_name)) (relpath (fst pf)))
               (scan_file (f_text (snd pf)) (parse_markers a)))
        (collect_files repo_dir (parse_include_exts a) (parse_excluded_dirs a))
  end.

(* ------------------------------------------------------------------ *)
(** ** Strings: substrings, joins and decimal numerals *)

Section StringFacts.

Lemma append_assoc (a b c : string) : (a +:+ b) +:+ c = a +:+ b +:+ c.
Proof. induction a as [|x a IH]; simpl; [reflexivity | now rewrite IH]. Qed.

Lemma append_nil_r (a : string) : a +:+ "" = a.
Proof. induction a as [|x a IH]; simpl; [reflexivity | now rewrite IH]. Qed.

Lemma startswith_spec (w t : string) :
  PyStr.startswith w t = true <-> exists b, t = w +:+ b.
Proof.
  revert t; induction w as [|x w IH]; intros t; simpl.
  - split; [intros _; now exists t | reflexivity].
  - destruct t as [|y t].
    + split; [discriminate | intros [b Hb]; discriminate].
    + rewrite andb_true_iff, Ascii.eqb_eq, IH. split.
      * intros [-> [b ->]]. now exists b.
      * intros [b Hb]. injection Hb as -> ->. split; [reflexivity | now exists b].
Qed.

Lemma contains_spec (w t : string) :
  PyStr.contains w t = true <-> substring_of w t.
Proof.
  unfold substring_of. induction t as [|y t IH].
  - simpl. rewrite orb_false_r, startswith_spec. split.
    + intros [b Hb]. now exists "", b.
    + intros [a [b Hab]]. destruct a; simpl in Hab; [now exists b | discriminate].
  - cbn [PyStr.contains]. rewrite orb_true_iff, IH, startswith_spec. split.
    + intros [[b Hb] | [a [b Hab]]].
      * now exists "", b.
      * exists (String y a), b. simpl. now rewrite Hab.
    + intros [a [b Hab]]. destruct a as [|x a]; simpl in Hab.
      * left. now exists b.
      * right. exists a, b. congruence.
Qed.


End StringFacts.

(* ------------------------------------------------------------------ *)
(** ** Marker scanning *)

(** C6: with the default marker set, a file whose line is
    [// TODO(alice): fix race condition] yields exactly one entry, with
    marker TODO, tag alice and text [fix race condition]; a file whose line
    is [# FIXME - handle null case] yields exactly one entry, with marker
    FIXME, an empty tag and text [handle null case].  The same holds when
    the line is delivered with its newline. *)
Theorem scan_file_scenarios :
  let markers := parse_markers default_args in
  let nl := String Re.newline "" in
  markers = DEFAULT_MARKERS
  /\ scan_file (text_stream ["// TODO(alice): fix race condition"]) markers
     = [Entry 1 "TODO" "alice" "fix race condition" "// TODO(alice): fix race condition"]
  /\ scan_file (text_stream ["// TODO(alice): fix race condition" +:+ nl]) markers
     = [Entry 1 "TODO" "alice" "fix race condition" "// TODO(alice): fix race condition"]
  /\ scan_file (text_stream ["# FIXME - handle null case"]) markers
     = [Entry 1 "FIXME" "" "handle null case" "# FIXME - handle null case"]
  /\ scan_file (text_stream ["# FIXME - handle null case" +:+ nl]) markers
     = [Entry 1 "FIXME" "" "handle null case" "# FIXME - handle null case"].
Proof. vm_compute. repeat split. Qed.

(** Every entry [scan_line] produces carries a marker of the configured
    list. *)
Lemma scan_line_marker (markers : list string) (i : nat) (line : string) (e : entry) :
  scan_line markers i line = Some e -> In (e_marker e) markers.
Proof.
  unfold scan_line. destruct (Re.search TODO_PATTERN line) as [m|]; [|discriminate].
  destruct (PyStr.mem _ markers) eqn:Hmem; simpl; [|discriminate].
  intros H; injection H as <-. simpl.
  unfold PyStr.mem in Hmem. apply existsb_exists in Hmem as [x [Hin Heq]].
  apply String.eqb_eq in Heq. now subst.
Qed.

Lemma scan_loop_In (markers : list string) (f : stream) :
  forall i todos e,
    In e (fst (scan_loop markers i f todos)) ->
    In e todos \/ exists j line, In line (delivered f) /\ scan_line markers j line = Some e.
Proof.
  induction f as [| |l more IH]; intros i todos e; simpl; auto.
  destruct (scan_line markers i l) as [e'|] eqn:Hl; intros H; apply IH in H.
  - destruct H as [H | [j [line [Hin Hs]]]].
    + apply in_app_or in H as [H | [<- | []]]; [now left |].
      right. exists i, l. auto.
    + right. exists j, line. auto.
  - destruct H as [H | [j [line [Hin Hs]]]]; [now left |].
    right. exists j, line. auto.
Qed.

Lemma scan_file_eq (f : stream) (markers : list string) :
  scan_file f markers = fst (scan_loop markers 1 f []).
Proof. unfold scan_file. destruct (scan_loop markers 1 f []) as [t []]; reflexivity. Qed.

Lemma scan_file_marker (f : stream) (markers : list string) (e : entry) :
  In e (scan_file f markers) -> In (e_marker e) markers.
Proof.
  rewrite scan_file_eq. intros H. apply scan_loop_In in H as [[] | [j [line [_ Hs]]]].
  eapply scan_line_marker; eauto.
Qed.

(** C2: the pattern matches markers in any letter case, but the matched
    text is compared as it stands with the upper-cased configured list, so
    a marker written in lower or mixed case is matched and then dropped:
    no finding is produced for it, while the same line with the marker in
    upper case yields its finding.  The pattern also fixes the three
    keywords it recognises, so a configured marker outside them is never
    found. *)
Theorem scan_file_lowercase_marker_dropped :
  let markers := parse_markers default_args in
  Re.group_text "# todo: fix me" 
     (match Re.search TODO_PATTERN "# todo: fix me" with Some m => m | None => [] end)
     Re.G_marker = Some "todo"
  /\ scan_file (text_stream ["# todo: fix me"]) markers = []
  /\ scan_file (text_stream ["# Fixme - handle null case"]) markers = []
  /\ scan_file (text_stream ["# TODO: fix me"]) markers
     = [Entry 1 "TODO" "" "fix me" "# TODO: fix me"]
  /\ scan_file (text_stream ["# HACK: fix me"]) (parse_markers hack_args) = [].
Proof. vm_compute. repeat split. Qed.

(* ------------------------------------------------------------------ *)
(** ** Remote metadata *)





(** C9: the template is chosen by testing whether a provider host occurs
    inside the remote host as a substring, in the order of the table: a
    host containing [github.com] gets the GitHub link, otherwise one
    containing [gitlab.com] the GitLab link, otherwise one containing
    [dev.azure.com] the Azure DevOps link, and a host containing none of
    the three gets no link. *)
Theorem link_template_by_substring
        (remote : remote_info) (branch rel_path : string) (line_no : nat) :
  let link := build_line_link remote branch rel_path line_no in
  let fill template := Some (format template remote branch rel_path line_no) in
  (substring_of "github.com" (host remote) -> link = fill GITHUB_TEMPLATE)
  /\ (~ substring_of "github.com" (host remote) ->
      substring_of "gitlab.com" (host remote) -> link = fill GITLAB_TEMPLATE)
  /\ (~ substring_of "github.com" (host remote) ->
      ~ substring_of "gitlab.com" (host remote) ->
      substring_of "dev.azure.com" (host remote) -> link = fill AZURE_TEMPLATE)
  /\ (~ substring_of "github.com" (host remote) ->
      ~ substring_of "gitlab.com" (host remote) ->
      ~ substring_of "dev.azure.com" (host remote) -> link = None).
Proof.
  cbv zeta. unfold build_line_link, LINE_LINK_TEMPLATES. cbn [first_link].
  rewrite <- !contains_spec.
  destruct (PyStr.contains "github.com" (host remote));
    destruct (PyStr.contains "gitlab.com" (host remote));
    destruct (PyStr.contains "dev.azure.com" (host remote));
    repeat split; intros; try reflexivity; try congruence; exfalso; auto.
Qed.

Lemma link_template_by_substring_witness :
  build_line_link (RemoteInfo "github.com.example.org" "acme/widgets" "widgets" "main")
                  "main" "src/a.py" 12
  = Some "https://github.com.example.org/acme/widgets/blob/main/src/a.py#L12"
  /\ build_line_link (RemoteInfo "git.example.org" "acme/widgets" "widgets" "main")
                     "main" "src/a.py" 12
     = None.
Proof.
  split.
  - apply (proj1 (link_template_by_substring
                    (RemoteInfo "github.com.example.org" "acme/widgets" "widgets" "main")
                    "main" "src/a.py" 12)).
    exists "", ".example.org". reflexivity.
  - apply (proj2 (proj2 (proj2 (link_template_by_substring
                    (RemoteInfo "git.example.org" "acme/widgets" "widgets" "main")
                    "main" "src/a.py" 12))));
      intros H; apply contains_spec in H; vm_compute in H; discriminate.
Defined.

(* ------------------------------------------------------------------ *)
(** ** Dictionaries, sorting and loops *)

Section DictFacts.
Context {V : Type}.

Lemma member_setdefault_append (d : dict V) (k : string) (v : V) k' v' :
  member (setdefault_append d k v) k' v' <-> member d k' v' \/ (k' = k /\ v' = v).
Proof.
  unfold member. induction d as [|[k0 vs0] d IH]; simpl.
  - split.
    + intros [vs [[H | []] Hin]]. injection H as <- <-.
      destruct Hin as [<- | []]. now right.
    + intros [[vs [[] _]] | [-> ->]]. exists [v]. simpl. auto.
  - destruct (String.eqb k0 k) eqn:Hk.
    + apply String.eqb_eq in Hk. subst k0. split.
      * intros [vs [[H | H] Hin]].
        -- injection H as <- <-. apply in_app_or in Hin as [Hin | [<- | []]].
           ++ left. exists vs0. simpl. auto.
           ++ now right.
        -- left. exists vs. simpl. auto.
      * intros [[vs [[H | H] Hin]] | [-> ->]].
        -- injection H as <- <-. exists (vs0 ++ [v]). split; [now left |].
           apply in_or_app. now left.
        -- exists vs. simpl. auto.
        -- exists (vs0 ++ [v]). split; [now left |]. apply in_or_app. simpl. auto.
    + split.
      * intros [vs [[H | H] Hin]].
        -- injection H as <- <-. left. exists vs0. simpl. auto.
        -- destruct (proj1 IH (ex_intro _ vs (conj H Hin))) as [[vs' [H1 H2]] | H'].
           ++ left. exists vs'. simpl. auto.
           ++ now right.
      * intros [[vs [[H | H] Hin]] | H'].
        -- injection H as <- <-. exists vs0. simpl. auto.
        -- destruct (proj2 IH (or_introl (ex_intro _ vs (conj H Hin)))) as [vs' [H1 H2]].
           exists vs'. simpl. auto.
        -- destruct (proj2 IH (or_intror H')) as [vs' [H1 H2]].
           exists vs'. simpl. auto.
Qed.

Lemma nonempty_setdefault_append (d : dict V) (k : string) (v : V) :
  nonempty_values d -> nonempty_values (setdefault_append d k v).
Proof.
  unfold nonempty_values. induction d as [|[k0 vs0] d IH]; simpl; intros Hd k' vs'.
  - intros [H | []]. injection H as <- <-. discriminate.
  - destruct (String.eqb k0 k).
    + intros [H | H].
      * injection H as <- <-. intros E. apply app_eq_nil in E as [_ E]. discriminate.
      * eapply Hd. right. exact H.
    + intros [H | H].
      * injection H as <- <-. eapply Hd. left. reflexivity.
      * eapply IH; [|exact H]. intros k1 vs1 H1. eapply Hd. right. exact H1.
Qed.

Lemma get_None (d : dict V) (k : string) :
  get d k = None <-> ~ In k (keys d).
Proof.
  induction d as [|[k0 vs0] d IH]; simpl.
  - tauto.
  - destruct (String.eqb k0 k) eqn:Hk.
    + apply String.eqb_eq in Hk. split; [discriminate | intros H; exfalso; auto].
    + apply String.eqb_neq in Hk. rewrite IH. tauto.
Qed.

Lemma key_member (d : dict V) (k : string) :
  nonempty_values d -> In k (keys d) -> exists v, member d k v.
Proof.
  intros Hd Hk. unfold keys in Hk. apply in_map_iff in Hk as [[k0 vs] [E Hin]].
  simpl in E. subst k0. destruct vs as [|v vs].
  - exfalso. eapply Hd; eauto.
  - exists v, (v :: vs). simpl. auto.
Qed.

End DictFacts.

Section SortFacts.
Context {A : Type} (le : A -> A -> bool).

Lemma insert_sorted_perm (x : A) (l : list A) :
  Permutation (insert_sorted le x l) (x :: l).
Proof.
  induction l as [|y l IH]; simpl; [reflexivity|].
  destruct (le x y); [reflexivity|].
  rewrite IH. apply perm_swap.
Qed.

Lemma sorted_perm (l : list A) : Permutation (sorted le l) l.
Proof.
  induction l as [|x l IH]; simpl; [reflexivity|].
  rewrite insert_sorted_perm. now constructor.
Qed.

Lemma sorted_In (l : list A) (x : A) : In x (sorted le l) <-> In x l.
Proof.
  split; apply Permutation_in; [apply sorted_perm | symmetry; apply sorted_perm].
Qed.

End SortFacts.

Lemma sort_within_repos_keys (d : dict finding) :
  keys (sort_within_repos d) = keys d.
Proof.
  unfold keys, sort_within_repos. rewrite map_map. apply map_ext. intros [k vs]. reflexivity.
Qed.

Lemma sort_within_repos_member (d : dict finding) (k : string) (fd : finding) :
  member (sort_within_repos d) k fd <-> member d k fd.
Proof.
  unfold member, sort_within_repos. split.
  - intros [vs [Hin Hfd]]. apply in_map_iff in Hin as [[k0 vs0] [E Hin]].
    simpl in E. injection E as -> <-. exists vs0. split; [assumption|].
    now apply sorted_In in Hfd.
  - intros [vs [Hin Hfd]]. exists (sorted key_le vs). split.
    + apply in_map_iff. exists (k, vs). auto.
    + now apply sorted_In.
Qed.

Lemma fold_left_invariant {A B : Type} (f : A -> B -> A) (P : A -> Prop) (l : list B) :
  (forall a b, In b l -> P a -> P (f a b)) -> forall a, P a -> P (fold_left f l a).
Proof.
  induction l as [|b l IH]; simpl; intros Hf a Ha; [assumption|].
  apply IH; [intros; apply Hf; auto | apply Hf; auto].
Qed.

(* ------------------------------------------------------------------ *)
(** ** File discovery *)

Lemma node_induction (P : node -> Prop) :
  (forall f, P (F f)) ->
  (forall entries, Forall (fun e => P (snd e)) entries -> P (D entries)) ->
  forall n, P n.
Proof.
  intros HF HD. fix IH 1. intros [f | entries].
  - apply HF.
  - apply HD.
    refine ((fix go (es : list (string * node)) : Forall (fun e => P (snd e)) es :=
               match es with
               | [] => Forall_nil _
               | e :: es' => Forall_cons e _ (go es')
               end) entries).
    destruct e as [name child]. simpl. apply IH.
Qed.

(** Every directory the walk yields is reached from the top through
    directories that were kept, and the [dirs] it is left with are kept. *)
Lemma os_walk_kept (keep : string -> bool) (n : node) :
  forall top t,
    In t (os_walk keep top n) ->
    (exists rel, fst (fst t) = top ++ rel /\ Forall (fun d => keep d = true) rel)
    /\ Forall (fun d => keep d = true) (snd (fst t)).
Proof.
  induction n as [f | entries IH] using node_induction; intros top t; simpl; [intros []|].
  intros [<- | Hin].
  - simpl. split.
    + exists []. rewrite app_nil_r. auto.
    + apply Forall_forall. intros d Hd. now apply filter_In in Hd.
  - revert Hin. induction entries as [|[name child] es IHes]; [intros []|].
    apply Forall_cons_iff in IH as [Hchild Hes]. simpl in Hchild.
    intros Hin. apply in_app_or in Hin as [Hin | Hin].
    + destruct child as [f | sub]; [destruct Hin|].
      destruct (keep name) eqn:Hkeep; [|destruct Hin].
      apply Hchild in Hin as [[rel [E Hrel]] Hdirs]. split; [|assumption].
      exists (name :: rel). rewrite E, <- app_assoc. split; [reflexivity|].
      constructor; assumption.
    + apply IHes; assumption.
Qed.

Lemma collect_files_spec (repo_dir : node) (include_exts excluded_dirs : list string)
      (p : path) (f : file) :
  In (p, f) (collect_files repo_dir include_exts excluded_dirs) ->
  exists dirs name,
    p = dirs ++ [name]
    /\ Forall (fun d => should_exclude_dir d excluded_dirs = false) dirs
    /\ PyStr.mem (ext_of name) include_exts = true
    /\ is_binary_file f = false.
Proof.
  unfold collect_files. intros H.
  apply in_flat_map in H as [[[root dirs] files] [Hwalk Hin]].
  apply in_flat_map in Hin as [[name f'] [_ Hin]].
  destruct (PyStr.mem (ext_of name) include_exts) eqn:Hext; [|destruct Hin].
  destruct (is_binary_file f') eqn:Hbin; [destruct Hin|].
  destruct Hin as [E | []]. injection E as <- <-.
  apply os_walk_kept in Hwalk as [[rel [E Hrel]] _]. simpl in E. subst root.
  exists rel, name. repeat split; try assumption.
  eapply Forall_impl; [|exact Hrel]. simpl. intros d Hd.
  now apply negb_true_iff in Hd.
Qed.

(* ------------------------------------------------------------------ *)
(** ** The scanning loop *)

Section Run.
Variable w : world.
Variable a : args.

Lemma add_entry_invariant repo_name remote branch repo_dir p f e st :
  repo_dir_of w repo_name = Some repo_dir ->
  In (p, f) (collect_files repo_dir (parse_include_exts a) (parse_excluded_dirs a)) ->
  In e (scan_file (f_text f) (parse_markers a)) ->
  run_invariant w a st ->
  run_invariant w a (add_entry w a repo_name remote branch (relpath p) st e).
Proof.
  intros Hdir Hp He (Hne & Hprov & Hcrit). unfold add_entry, run_invariant. simpl.
  split; [|split].
  - now apply nonempty_setdefault_append.
  - intros k fd Hm. apply member_setdefault_append in Hm as [Hm | [-> ->]]; [auto|].
    exists repo_dir, p, f, e. simpl. repeat split; assumption.
  - unfold critical_in. split.
    + destruct (looks_critical (w_lower w) (e_text e)) eqn:Hc.
      * intros _. eexists repo_name, _. split.
        -- apply member_setdefault_append. right. split; reflexivity.
        -- exact Hc.
      * intros H. apply Hcrit in H as [k [fd [Hm Hfd]]]. exists k, fd.
        split; [|assumption]. apply member_setdefault_append. now left.
    + intros [k [fd [Hm Hfd]]].
      apply member_setdefault_append in Hm as [Hm | [-> ->]].
      * destruct (looks_critical (w_lower w) (e_text e)); [reflexivity|].
        apply Hcrit. exists k, fd. auto.
      * simpl in Hfd. now rewrite Hfd.
Qed.

Lemma scan_files_invariant repo_name remote branch repo_dir files st :
  repo_dir_of w repo_name = Some repo_dir ->
  incl files (collect_files repo_dir (parse_include_exts a) (parse_excluded_dirs a)) ->
  run_invariant w a st ->
  run_invariant w a (scan_files w a (parse_markers a) repo_name remote branch files st).
Proof.
  intros Hdir Hincl. unfold scan_files. apply fold_left_invariant.
  intros st' [p f] Hpf. simpl. apply fold_left_invariant.
  intros st'' e He. eapply add_entry_invariant; eauto.
Qed.

Lemma scan_repo_invariant st repo_name :
  run_invariant w a st -> run_invariant w a (scan_repo w a st repo_name).
Proof.
  intros Hst. unfold scan_repo. destruct (repo_dir_of w repo_name) as [repo_dir|] eqn:Hdir;
    [|assumption].
  eapply scan_files_invariant; eauto. apply incl_refl.
Qed.

Lemma scan_repos_invariant repos : run_invariant w a (scan_repos w a repos).
Proof.
  unfold scan_repos. apply fold_left_invariant.
  - intros st r _. apply scan_repo_invariant.
  - split; [|split]; simpl.
    + intros k vs [].
    + intros k fd [vs [[] _]].
    + split; [discriminate | intros [k [fd [[vs [[] _]] _]]]].
Qed.
End Run.

(* ------------------------------------------------------------------ *)
(** ** The critical gate *)

(** A run that is not ended by an exception has listed its repos and
    written and printed its outputs. *)
Lemma main_Some_run (w : world) (a : args) (r : result) :
  main w a = Some r ->
  exists repos,
    parse_repos w a = Some repos
    /\ PyStr.encodable (r_markdown r) = true
    /\ w_write_md w = true
    /\ (PyStr.truthy (arg_out_json a) = true -> w_write_json w = true)
    /\ w_print w = true
    /\ r = {| r_report := sort_within_repos (aggregated (scan_repos w a repos));
              r_md_lines := md_lines w repos (parse_markers a)
                              (sort_within_repos (aggregated (scan_repos w a repos)));
              r_markdown := PyStr.join (String Re.newline "")
                              (md_lines w repos (parse_markers a)
                                 (sort_within_repos (aggregated (scan_repos w a repos))));
              r_json_items :=
                if PyStr.truthy (arg_out_json a)
                then Some (List.concat
                             (values (sort_within_repos (aggregated (scan_repos w a repos)))))
                else None;
              r_exit_code := if critical_found (scan_repos w a repos) then 1 else 0 |}.
Proof.
  unfold main. destruct (parse_repos w a) as [repos|]; [|discriminate].
  cbv zeta.
  destruct (PyStr.encodable _) eqn:Henc; [|discriminate].
  destruct (w_write_md w) eqn:Hmd; [|discriminate].
  destruct (PyStr.truthy (arg_out_json a)) eqn:Hj;
    [destruct (w_write_json w) eqn:Hjson; [|discriminate] |];
    (destruct (w_print w) eqn:Hprint; [|discriminate]);
    simpl; intros H; injection H as <-; exists repos; simpl;
    repeat split; auto; discriminate.
Qed.

Lemma main_Some (w : world) (a : args) (r : result) :
  main w a = Some r ->
  exists repos,
    parse_repos w a = Some repos
    /\ r_report r = sort_within_repos (aggregated (scan_repos w a repos))
    /\ r_md_lines r = md_lines w repos (parse_markers a) (r_report r)
    /\ r_exit_code r = (if critical_found (scan_repos w a repos) then 1 else 0).
Proof.
  intros H. apply main_Some_run in H as (repos & Hp & _ & _ & _ & _ & ->).
  exists repos. repeat split. exact Hp.
Qed.

Lemma looks_critical_spec (lower : string -> string) (text : string) :
  looks_critical lower text = true
  <-> exists word, In word CRITICAL_WORDS /\ substring_of word (lower text).
Proof.
  unfold looks_critical. rewrite existsb_exists.
  split; intros [word [Hin H]]; exists word; (split; [assumption|]);
    now apply contains_spec.
Qed.




(* ------------------------------------------------------------------ *)
(** ** The Markdown report *)


Lemma has_append (c : ascii) (s t : string) : has c (s +:+ t) = has c s || has c t.
Proof. induction s as [|x s IH]; simpl; [reflexivity | now rewrite IH, orb_assoc]. Qed.

Lemma numeral_no_space (n : nat) : has " " (PyStr.of_nat n) = false.
Proof.
  unfold PyStr.of_nat. induction (Nat.to_uint n) as [|u IH|u IH|u IH|u IH|u IH|u IH|u IH|u IH|u IH|u IH];
    simpl; auto.
Qed.

Lemma count_suffix_head (y d1 d2 : string) :
  has " " d1 = false ->
  " (" +:+ d1 +:+ ")" = y +:+ " (" +:+ d2 +:+ ")" -> y = "".
Proof.
  intros Hd E. destruct y as [|c y]; [reflexivity|].
  simpl in E. injection E as _ E.
  destruct y as [|c2 y]; simpl in E; [discriminate|].
  injection E as _ E.
  assert (H : has " " (d1 +:+ ")") = has " " (y +:+ " (" +:+ d2 +:+ ")")) by now rewrite E.
  rewrite !has_append, Hd in H. simpl in H. rewrite orb_true_r in H. discriminate.
Qed.

(** A heading determines the name it was built from. *)
Lemma count_suffix_inj (x y : string) (n m : nat) :
  x +:+ " (" +:+ PyStr.of_nat n +:+ ")" = y +:+ " (" +:+ PyStr.of_nat m +:+ ")" -> x = y.
Proof.
  revert y. induction x as [|c x IH]; intros y E.
  - symmetry. eapply count_suffix_head; [apply numeral_no_space | exact E].
  - destruct y as [|c' y].
    + eapply count_suffix_head; [apply numeral_no_space | symmetry; exact E].
    + simpl in E. injection E as -> E. f_equal. auto.
Qed.

Lemma md_header_no_heading (w : world) (repos markers : list string) (d : dict finding)
      (line : string) :
  In line (md_header w repos markers d) -> PyStr.startswith "## " line = false.
Proof.
  unfold md_header. intros H.
  apply in_app_or in H as [H | H]; [|apply in_app_or in H as [H | H]].
  - simpl in H. repeat (destruct H as [<- | H]; [reflexivity|]). destruct H.
  - destruct (Nat.eqb (total_count d) 0); simpl in H;
      repeat (destruct H as [<- | H]; [reflexivity|]); destruct H.
  - simpl in H. repeat (destruct H as [<- | H]; [reflexivity|]). destruct H.
Qed.

Lemma md_marker_block_no_heading (by_marker : dict finding) (marker line : string) :
  In line (md_marker_block by_marker marker) -> PyStr.startswith "## " line = false.
Proof.
  unfold md_marker_block. intros H.
  apply in_app_or in H as [H | H]; [|apply in_app_or in H as [H | H]].
  - simpl in H. repeat (destruct H as [<- | H]; [reflexivity|]). destruct H.
  - apply in_map_iff in H as [it [<- _]]. reflexivity.
  - simpl in H. repeat (destruct H as [<- | H]; [reflexivity|]). destruct H.
Qed.

(** The only lines of the report that start a repo section are the
    headings of the keys of the report. *)
Lemma md_lines_headings (w : world) (repos markers : list string) (d : dict finding)
      (line : string) :
  In line (md_lines w repos markers d) ->
  PyStr.startswith "## " line = true ->
  exists k, In k (keys d)
            /\ line = "## " +:+ k +:+ " (" +:+ PyStr.of_nat (List.length (item d k)) +:+ ")".
Proof.
  unfold md_lines. intros H Hs. apply in_app_or in H as [H | H].
  - apply md_header_no_heading in H. congruence.
  - apply in_flat_map in H as [k [Hk H]]. apply sorted_In in Hk.
    unfold md_repo_section in H.
    apply in_app_or in H as [H | H]; [|apply in_app_or in H as [H | H]].
    + destruct H as [<- | [<- | []]]; [|discriminate].
      exists k. split; [assumption | reflexivity].
    + apply in_flat_map in H as [m [_ H]].
      apply md_marker_block_no_heading in H. congruence.
    + destruct H as [<- | []]. discriminate.
Qed.

Lemma md_no_section (w : world) (repos markers : list string) (d : dict finding)
      (name : string) (n : nat) :
  ~ In name (keys d) ->
  ~ In ("## " +:+ name +:+ " (" +:+ PyStr.of_nat n +:+ ")") (md_lines w repos markers d).
Proof.
  intros Hk Hin. apply md_lines_headings in Hin as [k [Hkd E]]; [|reflexivity].
  simpl in E. injection E as E. apply count_suffix_inj in E. congruence.
Qed.

(* ------------------------------------------------------------------ *)
(** ** The run as a whole *)

Lemma report_provenance (w : world) (a : args) (r : result) (k : string) (fd : finding) :
  main w a = Some r -> member (r_report r) k fd -> produced_by w a k fd.
Proof.
  intros H Hm. apply main_Some in H as (repos & _ & E & _). rewrite E in Hm.
  apply (proj1 (sort_within_repos_member _ _ _)) in Hm.
  destruct (scan_repos_invariant w a repos) as (_ & Hprov & _). auto.
Qed.

Lemma report_key_member (w : world) (a : args) (r : result) (k : string) :
  main w a = Some r -> In k (keys (r_report r)) -> exists fd, member (r_report r) k fd.
Proof.
  intros H Hk. apply main_Some in H as (repos & _ & E & _). rewrite E in *.
  rewrite sort_within_repos_keys in Hk.
  destruct (scan_repos_invariant w a repos) as (Hne & _ & _).
  apply key_member in Hk as [fd Hm]; [|exact Hne].
  exists fd. apply (proj2 (sort_within_repos_member _ _ _) Hm).
Qed.

Lemma scan_files_nothing (w : world) (a : args) (markers : list string) (repo_name : string)
      (remote : option remote_info) (branch : string) (files : list (path * file)) :
  (forall p f, In (p, f) files -> scan_file (f_text f) markers = []) ->
  forall st, scan_files w a markers repo_name remote branch files st = st.
Proof.
  unfold scan_files. induction files as [|[p f] files IH]; simpl; intros H st; [reflexivity|].
  rewrite (H p f (or_introl eq_refl)). simpl. apply IH. intros; eapply H; eauto.
Qed.



(** C3 (as stated, refuted): the repo [empty] is scanned and has no
    eligible file, yet the report has no entry for it and the Markdown has
    no heading for it. *)
Lemma empty_repo_section_counterexample :
  exists r repos,
    main demo_world default_args = Some r
    /\ parse_repos demo_world default_args = Some repos
    /\ In "empty" repos
    /\ repo_dir_of demo_world "empty" = Some (D [])
    /\ collect_files (D []) (parse_include_exts default_args)
                     (parse_excluded_dirs default_args) = []
    /\ get (r_report r) "empty" <> Some []
    /\ ~ In "## empty (0)" (r_md_lines r).
Proof.
  eexists. eexists. split; [vm_compute; reflexivity|].
  split; [vm_compute; reflexivity|].
  split; [simpl; auto|].
  split; [reflexivity|]. split; [reflexivity|].
  split; [vm_compute; discriminate|].
  cbn [r_md_lines]. intros H.
  repeat (destruct H as [H | H]; [discriminate H|]). destruct H.
Qed.

(** C3 (amended): a scanned repo directory that yields zero findings
    leaves the report as it was on its turn of the loop: it has no entry
    in the report, and the Markdown has no section heading for it,
    whatever the count. *)
Theorem empty_repo_has_no_section (w : world) (a : args) (r : result)
        (name : string) (repo_dir : node) :
  main w a = Some r ->
  repo_dir_of w name = Some repo_dir ->
  (forall p f,
      In (p, f) (collect_files repo_dir (parse_include_exts a) (parse_excluded_dirs a)) ->
      scan_file (f_text f) (parse_markers a) = []) ->
  (forall st, scan_repo w a st name = st)
  /\ get (r_report r) name = None
  /\ forall n, ~ In ("## " +:+ name +:+ " (" +:+ PyStr.of_nat n +:+ ")") (r_md_lines r).
Proof.
  intros Hmain Hdir Hnone. split.
  { intros st. unfold scan_repo. rewrite Hdir. now apply scan_files_nothing. }
  assert (Hk : ~ In name (keys (r_report r))).
  { intros Hk. destruct (report_key_member w a r name Hmain Hk) as [fd Hm].
    destruct (report_provenance w a r name fd Hmain Hm)
      as (d & p & f & e & Hd & Hp & He & _).
    assert (d = repo_dir) by congruence. subst d.
    rewrite (Hnone p f Hp) in He. destruct He. }
  split; [now apply get_None|].
  intros n. apply main_Some in Hmain as (repos & _ & _ & -> & _).
  now apply md_no_section.
Qed.

Lemma empty_repo_has_no_section_witness :
  exists r,
    main demo_world default_args = Some r
    /\ get (r_report r) "empty" = None
    /\ ~ In "## empty (0)" (r_md_lines r).
Proof.
  eexists. split; [vm_compute; reflexivity|].
  pose proof (empty_repo_has_no_section demo_world default_args _ "empty" (D [])
                eq_refl eq_refl (fun p f (H : In (p, f) []) => match H with end)) as H.
  split; [apply H | apply (proj2 (proj2 H) 0)].
Defined.

(* ------------------------------------------------------------------ *)
(** ** Exclusion rules *)

(** C4 (as stated, refuted): the directory-name rule is applied to the
    directories met during the walk of a repo, not to the repo's own
    top directory.  The sibling directory [.tools], whose name begins with
    a dot and so satisfies the rule, is scanned as a repo and its file
    [gen.py] yields a finding. *)
Lemma excluded_dir_counterexample :
  exists r fd,
    main demo_world default_args = Some r
    /\ node_at (D demo_entries) [".tools"; "gen.py"]
       = Some (F (source_file ["# TODO: regenerate"]))
    /\ should_exclude_dir ".tools" (parse_excluded_dirs default_args) = true
    /\ member (r_report r) ".tools" fd
    /\ fd_file fd = "gen.py"
    /\ fd_text fd = "regenerate".
Proof.
  eexists. eexists. split; [vm_compute; reflexivity|].
  split; [reflexivity|]. split; [reflexivity|].
  split.
  - eexists. split; [left; reflexivity | left; reflexivity].
  - split; reflexivity.
Qed.

(** C4 (amended): below the top directory of a repo, a file that lies
    inside a directory satisfying the directory-name rule, or whose
    extension (or whole name, when it has none) is not in the allow-list,
    is never collected; the walk only ever yields directories reached
    through directories that do not satisfy the rule, and leaves only such
    directories to descend into; and every finding of the report comes
    from the scan of a collected file, whose path below its repo therefore
    crosses no excluded directory and whose extension is allowed. *)
Theorem excluded_files_never_reported (w : world) (a : args) (r : result) :
  main w a = Some r ->
  let include_exts := parse_include_exts a in
  let excluded_dirs := parse_excluded_dirs a in
  (forall repo_dir dirs name f,
      Exists (fun d => should_exclude_dir d excluded_dirs = true) dirs
      \/ PyStr.mem (ext_of name) include_exts = false ->
      ~ In (dirs ++ [name], f) (collect_files repo_dir include_exts excluded_dirs))
  /\ (forall repo_dir top dirs files,
         In (top, dirs, files)
            (os_walk (fun d => negb (should_exclude_dir d excluded_dirs)) [] repo_dir) ->
         Forall (fun d => should_exclude_dir d excluded_dirs = false) top
         /\ Forall (fun d => should_exclude_dir d excluded_dirs = false) dirs)
  /\ (forall repo_name fd,
         member (r_report r) repo_name fd ->
         exists repo_dir dirs name f,
           repo_dir_of w repo_name = Some repo_dir
           /\ In (dirs ++ [name], f) (collect_files repo_dir include_exts excluded_dirs)
           /\ fd_file fd = normalize_slashes (relpath (dirs ++ [name]))
           /\ Forall (fun d => should_exclude_dir d excluded_dirs = false) dirs
           /\ PyStr.mem (ext_of name) include_exts = true).
Proof.
  intros Hmain include_exts excluded_dirs. split; [|split].
  - intros repo_dir dirs name f Hbad Hin.
    apply collect_files_spec in Hin as (dirs' & name' & E & Hdirs & Hext & _).
    apply app_inj_tail in E as [-> ->]. destruct Hbad as [Hex | Hne].
    + apply Exists_exists in Hex as [d [Hd Ht]].
      rewrite Forall_forall in Hdirs. rewrite (Hdirs d Hd) in Ht. discriminate.
    + congruence.
  - intros repo_dir top dirs files Hin.
    apply os_walk_kept in Hin as [[rel [E Hrel]] Hdirs]. simpl in *. subst top.
    split; (eapply Forall_impl; [|eassumption]); simpl; intros d Hd;
      now apply negb_true_iff in Hd.
  - intros repo_name fd Hm.
    destruct (report_provenance w a r repo_name fd Hmain Hm)
      as (repo_dir & p & f & e & Hd & Hp & _ & _ & Hfile & _).
    destruct (collect_files_spec _ _ _ _ _ Hp) as (dirs & name & -> & Hdirs & Hext & _).
    exists repo_dir, dirs, name, f. auto.
Qed.

Lemma excluded_files_never_reported_witness :
  exists r,
    main demo_world default_args = Some r
    /\ ~ In (["node_modules"] ++ ["dep.js"], source_file ["// TODO: vendored"])
            (collect_files app_dir
                           (parse_include_exts default_args)
                           (parse_excluded_dirs default_args))
    /\ ~ In ([] ++ ["notes.bin"], source_file ["TODO: wrong extension"])
            (collect_files app_dir
                           (parse_include_exts default_args)
                           (parse_excluded_dirs default_args)).
Proof.
  eexists. split; [vm_compute; reflexivity|].
  pose proof (excluded_files_never_reported demo_world default_args _ eq_refl) as [H _].
  split; apply H.
  - left. constructor. reflexivity.
  - right. reflexivity.
Defined.



(* ------------------------------------------------------------------ *)
(** ** Read failures *)

Lemma scan_loop_delivered (markers : list string) (s : stream) :
  forall i todos,
    fst (scan_loop markers i s todos)
    = fst (scan_loop markers i (text_stream (delivered s)) todos).
Proof.
  induction s as [| |l more IH]; intros i todos; simpl; try reflexivity.
  destruct (scan_line markers i l); apply IH.
Qed.

Lemma scan_file_delivered (s : stream) (markers : list string) :
  scan_file s markers = scan_file (text_stream (delivered s)) markers.
Proof. rewrite !scan_file_eq. apply scan_loop_delivered. Qed.

(** C7: a file whose read raises after its first line has been delivered
    is not passed over.  The handler of [scan_file] follows the loop, so
    the entry of the line read before the failure is returned; the run,
    which the failure does not end, reports it and exits with status 0.
    A file that cannot be opened yields nothing. *)
Theorem read_failure_keeps_partial_findings :
  read_fails (f_text failing_file) = true
  /\ scan_file (f_text failing_file) DEFAULT_MARKERS
     = [Entry 1 "TODO" "" "first" "# TODO: first"]
  /\ scan_file (f_text unreadable_file) DEFAULT_MARKERS = []
  /\ exists r,
       main failing_world default_args = Some r
       /\ r_report r = [("app", [Finding "io.py" 1 "TODO" "" "first" "# TODO: first" "" "app"])]
       /\ r_exit_code r = 0.
Proof.
  split; [reflexivity|]. split; [vm_compute; reflexivity|]. split; [reflexivity|].
  vm_compute. eexists. split; [reflexivity|]. split; reflexivity.
Qed.

(** X28: a failure while a file is read ends the scan of the file the
    way the end of the file does: the entries are those of the lines
    delivered before it, none when no line was delivered; and the files
    of the repo scanned before and after it contribute what they would
    if the file had ended there. *)
Theorem read_failure_acts_as_end_of_file (s : stream) (markers : list string) :
  scan_file s markers = scan_file (text_stream (delivered s)) markers
  /\ (delivered s = [] -> scan_file s markers = [])
  /\ (forall w a repo_name remote branch before after p bytes st,
         scan_files w a markers repo_name remote branch
                    (before ++ (p, File bytes s) :: after) st
         = scan_files w a markers repo_name remote branch
                      (before ++ (p, File bytes (text_stream (delivered s))) :: after) st).
Proof.
  split; [apply scan_file_delivered|]. split.
  - intros E. rewrite scan_file_delivered, E. reflexivity.
  - intros. unfold scan_files. rewrite !fold_left_app. simpl.
    now rewrite <- scan_file_delivered.
Qed.

(* ------------------------------------------------------------------ *)
(** ** Further properties: scanning a file *)

Lemma substring_of_refl (s : string) : substring_of s s.
Proof. exists "", "". simpl. now rewrite append_nil_r. Qed.

Lemma substring_of_empty (s : string) : substring_of "" s.
Proof. exists "", s. reflexivity. Qed.

Lemma substring_of_trans (a b c : string) :
  substring_of a b -> substring_of b c -> substring_of a c.
Proof.
  intros [p [q ->]] [p' [q' ->]]. exists (p' +:+ p), (q +:+ q').
  now rewrite !append_assoc.
Qed.

Lemma substring_of_cons (c : ascii) (a s : string) :
  substring_of a s -> substring_of a (String c s).
Proof. intros [p [q ->]]. now exists (String c p), q. Qed.

Lemma substring_substring_of (s : string) :
  forall a n, substring_of (substring a n s) s.
Proof.
  induction s as [|c s IH]; intros a n.
  - destruct a, n; simpl; apply substring_of_refl.
  - destruct a as [|a].
    + destruct n as [|n]; simpl; [apply substring_of_empty|].
      destruct (IH 0 n) as [p [q E]]. revert E.
      (* a substring taken from offset 0 is a prefix *)
      assert (Hpre : forall t m, exists q', t = substring 0 m t +:+ q').
      { clear. induction t as [|x t IHt]; intros m.
        - destruct m; now exists "".
        - destruct m as [|m]; simpl; [now exists (String x t)|].
          destruct (IHt m) as [q' E]. exists q'. now rewrite <- E. }
      intros _. destruct (Hpre s n) as [q' E]. exists "", q'. simpl. now rewrite <- E.
    + simpl. apply substring_of_cons, IH.
Qed.

Lemma lstrip_suffix (s : string) : exists pre, s = pre +:+ PyStr.lstrip s.
Proof.
  induction s as [|c s [pre E]]; simpl; [now exists ""|].
  destruct (PyStr.isspace c); [|now exists ""].
  exists (String c pre). simpl. now rewrite <- E.
Qed.

Lemma rstrip_prefix (s : string) : exists post, s = PyStr.rstrip s +:+ post.
Proof.
  induction s as [|c s [post E]]; simpl; [now exists ""|].
  destruct (PyStr.rstrip s) as [|x r] eqn:Hr.
  - destruct (PyStr.isspace c).
    + exists (String c s). reflexivity.
    + exists post. simpl in *. now rewrite E at 1.
  - exists post. simpl in *. now rewrite E at 1.
Qed.

Lemma strip_substring_of (s : string) : substring_of (PyStr.strip s) s.
Proof.
  unfold PyStr.strip. destruct (lstrip_suffix s) as [pre E].
  destruct (rstrip_prefix (PyStr.lstrip s)) as [post E'].
  exists pre, post. now rewrite <- E'.
Qed.

Lemma group_text_substring_of (line : string) (m : Re.spans) (g : Re.group) (t : string) :
  Re.group_text line m g = Some t -> substring_of t line.
Proof.
  unfold Re.group_text. destruct (Re.span_of g m) as [[a b]|]; [|discriminate].
  intros H; injection H as <-. apply substring_substring_of.
Qed.

(** What one line contributes. *)
Lemma scan_line_fields (markers : list string) (i : nat) (line : string) (e : entry) :
  scan_line markers i line = Some e ->
  e_line e = i
  /\ e_preview e = PyStr.strip line
  /\ substring_of (e_marker e) line
  /\ substring_of (e_tag e) line
  /\ substring_of (e_text e) line.
Proof.
  unfold scan_line. destruct (Re.search TODO_PATTERN line) as [m|]; [|discriminate].
  destruct (Re.group_text line m Re.G_marker) as [mk|] eqn:Hmk.
  2:{ destruct (negb (PyStr.mem "" markers)); [discriminate|].
      intros H; injection H as <-. simpl. repeat split.
      - apply substring_of_empty.
      - destruct (Re.group_text line m Re.G_tag) as [t|] eqn:Ht; [|apply substring_of_empty].
        destruct (PyStr.truthy t); [|apply substring_of_empty].
        eapply substring_of_trans; [apply strip_substring_of|].
        eapply group_text_substring_of; eauto.
      - destruct (Re.group_text line m Re.G_text) as [t|] eqn:Ht; [|apply substring_of_empty].
        eapply substring_of_trans; [apply strip_substring_of|].
        eapply group_text_substring_of; eauto. }
  destruct (negb (PyStr.mem mk markers)); [discriminate|].
  intros H; injection H as <-. simpl. repeat split.
  - eapply group_text_substring_of; eauto.
  - destruct (Re.group_text line m Re.G_tag) as [t|] eqn:Ht; [|apply substring_of_empty].
    destruct (PyStr.truthy t); [|apply substring_of_empty].
    eapply substring_of_trans; [apply strip_substring_of|].
    eapply group_text_substring_of; eauto.
  - destruct (Re.group_text line m Re.G_text) as [t|] eqn:Ht; [|apply substring_of_empty].
    eapply substring_of_trans; [apply strip_substring_of|].
    eapply group_text_substring_of; eauto.
Qed.

Lemma scan_loop_entries (markers : list string) (s : stream) :
  forall i todos,
    fst (scan_loop markers i s todos) = todos ++ entries_of markers i (delivered s).
Proof.
  induction s as [| |l more IH]; intros i todos; simpl; try now rewrite app_nil_r.
  destruct (scan_line markers i l) as [e|]; rewrite IH; [|reflexivity].
  now rewrite <- app_assoc.
Qed.

Lemma scan_file_entries (s : stream) (markers : list string) :
  scan_file s markers = entries_of markers 1 (delivered s).
Proof. rewrite scan_file_eq. apply scan_loop_entries. Qed.

Lemma entries_of_In (markers : list string) (lines : list string) :
  forall i e,
    In e (entries_of markers i lines)
    <-> exists n line, nth_error lines n = Some line /\ scan_line markers (i + n) line = Some e.
Proof.
  induction lines as [|l ls IH]; intros i e; simpl.
  - split; [intros [] | intros [n [line [H _]]]; destruct n; discriminate].
  - assert (Hrest : In e (entries_of markers (S i) ls) <->
                    exists n line, nth_error (l :: ls) (S n) = Some line
                                   /\ scan_line markers (i + S n) line = Some e).
    { rewrite IH. split; intros [n [line [H1 H2]]]; exists n, line; split; auto;
        [now rewrite Nat.add_succ_r | now rewrite Nat.add_succ_r in H2]. }
    destruct (scan_line markers i l) as [e0|] eqn:Hl; simpl.
    + split.
      * intros [<- | H].
        -- exists 0, l. rewrite Nat.add_0_r. auto.
        -- apply Hrest in H as [n [line [H1 H2]]]. exists (S n), line. auto.
      * intros [[|n] [line [H1 H2]]].
        -- simpl in H1. injection H1 as <-. rewrite Nat.add_0_r in H2. left. congruence.
        -- right. apply Hrest. exists n, line. auto.
    + split.
      * intros H. apply Hrest in H as [n [line [H1 H2]]]. exists (S n), line. auto.
      * intros [[|n] [line [H1 H2]]].
        -- simpl in H1. injection H1 as <-. rewrite Nat.add_0_r in H2. congruence.
        -- apply Hrest. exists n, line. auto.
Qed.

Lemma entries_of_lines_from (markers : list string) (lines : list string) :
  forall i, Forall (fun e => i <= e_line e) (entries_of markers i lines).
Proof.
  induction lines as [|l ls IH]; intros i; simpl; [constructor|].
  assert (Hrest : Forall (fun e => i <= e_line e) (entries_of markers (S i) ls)).
  { eapply Forall_impl; [|apply IH]. simpl. intros; lia. }
  destruct (scan_line markers i l) as [e|] eqn:Hl; [|assumption].
  constructor; [|assumption]. apply scan_line_fields in Hl as [-> _]. lia.
Qed.

Lemma entries_of_increasing (markers : list string) (lines : list string) :
  forall i, StronglySorted lt (map e_line (entries_of markers i lines)).
Proof.
  induction lines as [|l ls IH]; intros i; simpl; [constructor|].
  destruct (scan_line markers i l) as [e|] eqn:Hl; [|apply IH].
  simpl. constructor; [apply IH|].
  apply scan_line_fields in Hl as [-> _].
  apply Forall_map. eapply Forall_impl; [|apply entries_of_lines_from]. simpl. intros; lia.
Qed.

(** X1: the entries of a scanned file are exactly what its delivered lines
    contribute, each under its 1-based line number: an entry is in the
    result if and only if it is the entry of the line at that number, and
    its preview is that line stripped. *)
Theorem scan_file_line_numbers (s : stream) (markers : list string) (e : entry) :
  In e (scan_file s markers)
  <-> exists line,
        1 <= e_line e
        /\ nth_error (delivered s) (e_line e - 1) = Some line
        /\ scan_line markers (e_line e) line = Some e
        /\ e_preview e = PyStr.strip line.
Proof.
  rewrite scan_file_entries, entries_of_In. split.
  - intros [n [line [Hn Hs]]]. exists line.
    destruct (scan_line_fields _ _ _ _ Hs) as (Hl & Hp & _).
    simpl in Hl. rewrite Hl. simpl. rewrite Nat.sub_0_r. repeat split; auto; lia.
  - intros [line (H1 & Hn & Hs & _)]. exists (e_line e - 1), line. split; [assumption|].
    replace (1 + (e_line e - 1)) with (e_line e) by lia. assumption.
Qed.

(** X2: the entries of a scanned file come in strictly increasing line
    order, so a line contributes at most one entry. *)
Theorem scan_file_lines_increasing (s : stream) (markers : list string) :
  StronglySorted lt (map e_line (scan_file s markers)).
Proof. rewrite scan_file_entries. apply entries_of_increasing. Qed.

(** X3: nothing in an entry is made up: its marker is one of the
    configured markers and occurs verbatim in its line, and its tag and
    its text are substrings of that line. *)
Theorem scan_file_fields_from_line (s : stream) (markers : list string) (e : entry) :
  In e (scan_file s markers) ->
  exists line,
    In line (delivered s)
    /\ In (e_marker e) markers
    /\ substring_of (e_marker e) line
    /\ substring_of (e_tag e) line
    /\ substring_of (e_text e) line.
Proof.
  rewrite scan_file_entries. intros H. apply entries_of_In in H as [n [line [Hn Hs]]].
  exists line. split; [eapply nth_error_In; eauto|].
  split; [eapply scan_line_marker; eauto|].
  apply scan_line_fields in Hs. tauto.
Qed.

Lemma scan_file_fields_from_line_witness :
  exists line,
    In line ["# TODO(bob): tidy up" +:+ nl]
    /\ In "TODO" DEFAULT_MARKERS
    /\ substring_of "TODO" line
    /\ substring_of "bob" line
    /\ substring_of "tidy up" line.
Proof.
  apply (scan_file_fields_from_line (text_stream ["# TODO(bob): tidy up" +:+ nl])
           DEFAULT_MARKERS (Entry 1 "TODO" "bob" "tidy up" "# TODO(bob): tidy up")).
  vm_compute. left. reflexivity.
Defined.

(* ------------------------------------------------------------------ *)
(** ** Further properties: what the pattern can match *)

Lemma append_length (a b : string) :
  String.length (a +:+ b) = String.length a + String.length b.
Proof. induction a as [|x a IH]; simpl; [reflexivity | now rewrite IH]. Qed.

Lemma star_greedy_sound {A : Type} (p : ascii -> bool) (k : Re.cursor -> option A)
      (s : string) :
  forall n cs x,
    Re.star_greedy p k n s cs = Some x ->
    exists t s', s = t +:+ s' /\ all_chars p t = true
                 /\ k (Re.Cursor (n + String.length t) s' cs) = Some x.
Proof.
  induction s as [|c s IH]; intros n cs x; simpl.
  - intros H. exists "", "". simpl. rewrite Nat.add_0_r. auto.
  - destruct (p c) eqn:Hp.
    + unfold Re.orelse. destruct (Re.star_greedy p k (S n) s cs) as [y|] eqn:Hrec.
      * intros H; injection H as <-. apply IH in Hrec as (t & s' & -> & Ht & Hk).
        exists (String c t), s'. simpl. rewrite Hp, Ht. rewrite Nat.add_succ_r. auto.
      * intros H. exists "", (String c s). simpl. rewrite Nat.add_0_r. auto.
    + intros H. exists "", (String c s). simpl. rewrite Nat.add_0_r. auto.
Qed.

Lemma star_lazy_sound {A : Type} (p : ascii -> bool) (k : Re.cursor -> option A)
      (s : string) :
  forall n cs x,
    Re.star_lazy p k n s cs = Some x ->
    exists t s', s = t +:+ s' /\ all_chars p t = true
                 /\ k (Re.Cursor (n + String.length t) s' cs) = Some x.
Proof.
  induction s as [|c s IH]; intros n cs x; simpl; unfold Re.orelse.
  - destruct (k (Re.Cursor n "" cs)) as [y|] eqn:Hk; [|discriminate].
    intros H; injection H as <-. exists "", "". simpl. rewrite Nat.add_0_r. auto.
  - destruct (k (Re.Cursor n (String c s) cs)) as [y|] eqn:Hk.
    + intros H; injection H as <-. exists "", (String c s). simpl. rewrite Nat.add_0_r. auto.
    + destruct (p c) eqn:Hp; [|discriminate].
      intros H. apply IH in H as (t & s' & -> & Ht & Hk').
      exists (String c t), s'. simpl. rewrite Hp, Ht, Nat.add_succ_r. auto.
Qed.

Lemma strip_prefix_spec (p s s' : string) :
  Re.strip_prefix p s = Some s' <-> s = p +:+ s'.
Proof.
  revert s. induction p as [|a p IH]; intros s; simpl.
  - split; [intros H; now injection H | intros ->; reflexivity].
  - destruct s as [|b s]; [split; discriminate|].
    destruct (Ascii.eqb a b) eqn:E.
    + apply Ascii.eqb_eq in E. subst b. rewrite IH. split; [now intros -> | intros H; now injection H].
    + apply Ascii.eqb_neq in E. split; [discriminate | intros H; injection H; congruence].
Qed.

Lemma match_form_sound (fs : list string) (s f s' : string) :
  Re.match_form fs s = Some (f, s') -> In f fs /\ s = f +:+ s'.
Proof.
  induction fs as [|g fs IH]; simpl; [discriminate|].
  destruct (Re.strip_prefix g s) as [q|] eqn:E.
  - intros H; injection H as <- <-. split; [now left | now apply strip_prefix_spec].
  - intros H. apply IH in H as [Hin Hs]. auto.
Qed.

(** The choice of a form looks at no more of the text than the form. *)
Lemma match_form_local (fs : list string) (f t s' : string) :
  Re.match_form fs (f +:+ t +:+ s') = Some (f, t +:+ s') ->
  Re.match_form fs (f +:+ t) = Some (f, t).
Proof.
  induction fs as [|g fs IH]; simpl; [discriminate|].
  destruct (Re.strip_prefix g (f +:+ t)) as [q|] eqn:E.
  - apply strip_prefix_spec in E.
    assert (E' : Re.strip_prefix g (f +:+ t +:+ s') = Some (q +:+ s')).
    { apply strip_prefix_spec. now rewrite <- !append_assoc, E, !append_assoc. }
    rewrite E'. intros H; injection H as -> Hq.
    pose proof (proj2 (strip_prefix_spec f (f +:+ t) t) eq_refl) as H1.
    pose proof (proj2 (strip_prefix_spec f (f +:+ t) q) E) as H2. congruence.
  - destruct (Re.strip_prefix g (f +:+ t +:+ s')) as [q|] eqn:E'; [|exact IH].
    intros H; injection H as -> ->.
    assert (Hf : Re.strip_prefix f (f +:+ t) = Some t) by now apply strip_prefix_spec.
    congruence.
Qed.

Lemma literal_sound {A : Type} (l : string) (k : Re.cursor -> option A) :
  forall n s cs x,
    Re.literal l k n s cs = Some x ->
    exists t s', s = t +:+ s' /\ Re.spells l t = true
                 /\ k (Re.Cursor (n + String.length t) s' cs) = Some x.
Proof.
  induction l as [|a l IH]; intros n s cs x; cbn [Re.literal Re.spells].
  - intros H. exists "", s. simpl. rewrite Nat.add_0_r. auto.
  - destruct (Re.match_form (Re.forms a) s) as [[f s1]|] eqn:E; [|discriminate].
    intros H. apply IH in H as (t & s' & -> & Ht & Hk).
    pose proof (match_form_sound _ _ _ _ E) as [_ ->].
    exists (f +:+ t), s'. rewrite append_assoc. split; [reflexivity|].
    rewrite (match_form_local _ _ _ _ E), append_length, Nat.add_assoc. auto.
Qed.

(** Whatever the matcher returns, it returns from a cursor the pattern
    can lead to. *)
Lemma run_sound {A : Type} (r : Re.regex) :
  forall (c : Re.cursor) (k : Re.cursor -> option A) (x : A),
    Re.run r c k = Some x -> exists c', reach r c c' /\ k c' = Some x.
Proof.
  induction r as [| |p|l|r1 IH1 r2 IH2|r1 IH1 r2 IH2|r1 IH1|p|p|p|g r1 IH1];
    intros c k x; simpl.
  - destruct (Nat.eqb (Re.pos c) 0) eqn:E; [|discriminate].
    apply Nat.eqb_eq in E. intros H. exists c. auto.
  - destruct (Re.rest c) as [|ch [|ch' s']] eqn:Hr; try discriminate.
    + intros H. exists c. auto.
    + destruct (Ascii.eqb ch Re.newline) eqn:E; [|discriminate].
      apply Ascii.eqb_eq in E. subst ch. intros H. exists c. auto.
  - destruct (Re.rest c) as [|ch s'] eqn:Hr; [discriminate|].
    destruct (p ch) eqn:Hp; [|discriminate].
    intros H. eexists. split; [|exact H]. exists ch, s'. auto.
  - intros H. apply literal_sound in H as (t & s' & Hs & Ht & Hk).
    eexists. split; [|exact Hk]. exists t, s'. auto.
  - intros H. apply IH1 in H as (c1 & H1 & H). apply IH2 in H as (c2 & H2 & H).
    exists c2. split; [exists c1; auto | assumption].
  - unfold Re.orelse. destruct (Re.run r1 c k) as [y|] eqn:E.
    + intros H; injection H as <-. apply IH1 in E as (c' & H1 & Hk). exists c'. auto.
    + intros H. apply IH2 in H as (c' & H2 & Hk). exists c'. auto.
  - unfold Re.orelse. destruct (Re.run r1 c k) as [y|] eqn:E.
    + intros H; injection H as <-. apply IH1 in E as (c' & H1 & Hk). exists c'. auto.
    + intros H. exists c. auto.
  - intros H. apply star_greedy_sound in H as (t & s' & Hs & Ht & Hk).
    eexists. split; [|exact Hk]. exists t, s'. auto.
  - destruct (Re.rest c) as [|ch s0] eqn:Hr; [discriminate|].
    destruct (p ch) eqn:Hp; [|discriminate].
    intros H. apply star_greedy_sound in H as (t & s' & -> & Ht & Hk).
    eexists. split; [|exact Hk]. exists (String ch t), s'. simpl.
    rewrite Hp, Ht, Nat.add_succ_r. repeat split; auto. discriminate.
  - intros H. apply star_lazy_sound in H as (t & s' & Hs & Ht & Hk).
    eexists. split; [|exact Hk]. exists t, s'. auto.
  - intros H. apply IH1 in H as (c1 & H1 & Hk).
    eexists. split; [|exact Hk]. exists c1. auto.
Qed.

Lemma search_from_sound (r : Re.regex) (s : string) :
  forall n m,
    Re.search_from r n s = Some m ->
    exists pre s' c',
      s = pre +:+ s'
      /\ reach r (Re.Cursor (n + String.length pre) s' []) c'
      /\ m = Re.caps c'.
Proof.
  induction s as [|ch s IH]; intros n m; simpl.
  - destruct (Re.run r (Re.Cursor n "" []) _) as [y|] eqn:E; [|discriminate].
    intros H; injection H as <-. apply run_sound in E as (c' & Hc & Hk).
    injection Hk as <-. exists "", "", c'. simpl. rewrite Nat.add_0_r. auto.
  - destruct (Re.run r (Re.Cursor n (String ch s) []) _) as [y|] eqn:E.
    + intros H; injection H as <-. apply run_sound in E as (c' & Hc & Hk).
      injection Hk as <-. exists "", (String ch s), c'. simpl. rewrite Nat.add_0_r. auto.
    + intros H. apply IH in H as (pre & s' & c' & -> & Hc & ->).
      exists (String ch pre), s', c'. simpl. rewrite Nat.add_succ_r. auto.
Qed.

(** A pattern changes the span of a group only if it has that group. *)
Lemma reach_span_other (g : Re.group) (r : Re.regex) :
  binds g r = false ->
  forall c c', reach r c c' -> Re.span_of g (Re.caps c') = Re.span_of g (Re.caps c).
Proof.
  induction r as [| |p|l|r1 IH1 r2 IH2|r1 IH1 r2 IH2|r1 IH1|p|p|p|g' r1 IH1];
    simpl; intros Hb c c'.
  - now intros [_ ->].
  - now intros [_ ->].
  - now intros (ch & s' & _ & _ & ->).
  - now intros (t & s' & _ & _ & ->).
  - apply orb_false_iff in Hb as [H1 H2]. intros (c1 & Hc1 & Hc').
    rewrite (IH2 H2 _ _ Hc'). now apply IH1.
  - apply orb_false_iff in Hb as [H1 H2]. intros [H | H]; [now apply IH1 | now apply IH2].
  - intros [H | ->]; [now apply IH1 | reflexivity].
  - now intros (t & s' & _ & _ & ->).
  - now intros (t & s' & _ & _ & _ & ->).
  - now intros (t & s' & _ & _ & ->).
  - apply orb_false_iff in Hb as [H1 H2]. intros (c1 & Hc1 & ->). simpl.
    rewrite H1. now apply IH1.
Qed.

Lemma substring_middle (pre t post : string) :
  substring (String.length pre) (String.length t) (pre +:+ t +:+ post) = t.
Proof.
  induction pre as [|x pre IH]; simpl; [|exact IH].
  induction t as [|y t IHt]; simpl.
  - destruct post; reflexivity.
  - now rewrite IHt.
Qed.

Lemma isspace_not_word (c : ascii) : PyStr.isspace c = true -> PyStr.isword c = false.
Proof. destruct c as [[] [] [] [] [] [] [] []]; vm_compute; congruence. Qed.

Lemma upper_char_idempotent (c : ascii) :
  PyStr.upper_char (PyStr.upper_char c) = PyStr.upper_char c.
Proof. destruct c as [[] [] [] [] [] [] [] []]; reflexivity. Qed.

Lemma upper_lower_char (c : ascii) :
  PyStr.upper_char (PyStr.lower_char c) = PyStr.upper_char c.
Proof. destruct c as [[] [] [] [] [] [] [] []]; reflexivity. Qed.

Lemma lower_upper_char (c : ascii) :
  PyStr.lower_char (PyStr.upper_char c) = PyStr.lower_char c.
Proof. destruct c as [[] [] [] [] [] [] [] []]; reflexivity. Qed.

Lemma lower_char_idempotent (c : ascii) :
  PyStr.lower_char (PyStr.lower_char c) = PyStr.lower_char c.
Proof. destruct c as [[] [] [] [] [] [] [] []]; reflexivity. Qed.

Lemma map_chars_compose (f g : ascii -> ascii) (s : string) :
  PyStr.map_chars f (PyStr.map_chars g s) = PyStr.map_chars (fun c => f (g c)) s.
Proof. induction s as [|c s IH]; simpl; [reflexivity | now rewrite IH]. Qed.

Lemma map_chars_ext (f g : ascii -> ascii) (s : string) :
  (forall c, f c = g c) -> PyStr.map_chars f s = PyStr.map_chars g s.
Proof. intros H. induction s as [|c s IH]; simpl; [reflexivity | now rewrite IH, H]. Qed.

Lemma upper_idempotent (s : string) : PyStr.upper (PyStr.upper s) = PyStr.upper s.
Proof.
  unfold PyStr.upper. rewrite map_chars_compose. apply map_chars_ext, upper_char_idempotent.
Qed.

Lemma upper_lower (s : string) : PyStr.upper (PyStr.lower s) = PyStr.upper s.
Proof.
  unfold PyStr.upper, PyStr.lower. rewrite map_chars_compose.
  apply map_chars_ext, upper_lower_char.
Qed.

Lemma lower_upper (s : string) : PyStr.lower (PyStr.upper s) = PyStr.lower s.
Proof.
  unfold PyStr.upper, PyStr.lower. rewrite map_chars_compose.
  apply map_chars_ext, lower_upper_char.
Qed.

Lemma lower_idempotent (s : string) : PyStr.lower (PyStr.lower s) = PyStr.lower s.
Proof.
  unfold PyStr.lower. rewrite map_chars_compose. apply map_chars_ext, lower_char_idempotent.
Qed.

(** What a match of [TODO_PATTERN] says about the marker it captured. *)
Lemma search_marker (line : string) (m : Re.spans) :
  Re.search TODO_PATTERN line = Some m ->
  exists pre t post,
    line = pre +:+ t +:+ post
    /\ Re.group_text line m Re.G_marker = Some t
    /\ spells_keyword t = true
    /\ (pre = "" \/ exists pre' ch, pre = pre' +:+ String ch "" /\ PyStr.isword ch = false).
Proof.
  unfold Re.search. intros H.
  apply search_from_sound in H as (pre0 & s0 & c' & -> & H & ->).
  unfold TODO_PATTERN in H. destruct H as (c1 & H1 & c2 & H2 & H3).
  assert (Hspan : Re.span_of Re.G_marker (Re.caps c')
                  = Re.span_of Re.G_marker (Re.caps c2)).
  { eapply reach_span_other; [|exact H3]. reflexivity. }
  unfold Re.group_text. rewrite Hspan. clear H3 Hspan.
  destruct H1 as (c1' & HP & ->). destruct H2 as (c2' & HM & ->).
  assert (Hpre : exists pre, pre0 +:+ s0 = pre +:+ Re.rest c1'
                             /\ String.length pre = Re.pos c1'
                             /\ (pre = "" \/ exists pre' ch, pre = pre' +:+ String ch ""
                                                         /\ PyStr.isword ch = false)).
  { destruct HP as [[Hpos ->] | [(ch & s' & Hr & Hp & ->) | (ch & s' & Hr & Hp & ->)]];
      simpl in *.
    - exists pre0. repeat split; auto. left. destruct pre0; [reflexivity | discriminate].
    - subst s0. exists (pre0 +:+ String ch ""). rewrite append_assoc. simpl.
      rewrite append_length. simpl. repeat split; [lia|].
      right. exists pre0, ch. split; [reflexivity | now apply isspace_not_word].
    - subst s0. exists (pre0 +:+ String ch ""). rewrite append_assoc. simpl.
      rewrite append_length. simpl. repeat split; [lia|].
      right. exists pre0, ch. split; [reflexivity|].
      unfold not_word in Hp. now apply negb_true_iff in Hp. }
  destruct Hpre as (pre & Hline & Hlen & Hb). cbn [reach] in HM.
  assert (Hlit : exists t s', Re.rest c1' = t +:+ s'
                             /\ spells_keyword t = true
                             /\ Re.pos c2' = Re.pos c1' + String.length t).
  { unfold spells_keyword.
    destruct HM as [(t & s' & Hr & Ht & ->) | [(t & s' & Hr & Ht & ->) | (t & s' & Hr & Ht & ->)]];
      exists t, s'; rewrite Ht; (split; [exact Hr|]);
      (split; [now rewrite ?orb_true_r | reflexivity]). }
  destruct Hlit as (t & s' & Hr & Ht & Hpos). simpl. rewrite Hpos.
  exists pre, t, s'. rewrite Hline, Hr. repeat split; auto.
  replace (Re.pos c1' + String.length t - Re.pos c1') with (String.length t) by lia.
  rewrite <- Hlen. now rewrite substring_middle.
Qed.

Lemma all_chars_append (p : ascii -> bool) (a b : string) :
  all_chars p (a +:+ b) = all_chars p a && all_chars p b.
Proof. induction a as [|x a IH]; simpl; [reflexivity | now rewrite IH, andb_assoc]. Qed.

Lemma folded_forms_not_ascii (a : ascii) (f : string) :
  In f (Re.folded_forms a) -> ascii_text f = false.
Proof.
  unfold Re.folded_forms.
  destruct (Ascii.eqb (PyStr.lower_char a) "i"); [intros [<- | [<- | []]]; reflexivity|].
  destruct (Ascii.eqb (PyStr.lower_char a) "k"); [intros [<- | []]; reflexivity|].
  destruct (Ascii.eqb (PyStr.lower_char a) "s"); [intros [<- | []]; reflexivity | intros []].
Qed.

(** An ASCII spelling of a literal is the literal up to letter case. *)
Lemma spells_lower (l : string) :
  forall t, Re.spells l t = true -> ascii_text t = true -> PyStr.lower t = PyStr.lower l.
Proof.
  induction l as [|a l IH]; intros t; cbn [Re.spells].
  - destruct t; [reflexivity | discriminate].
  - destruct (Re.match_form (Re.forms a) t) as [[f t']|] eqn:E; [|discriminate].
    apply match_form_sound in E as [Hin ->]. intros Hs Ha.
    unfold ascii_text in Ha. rewrite all_chars_append in Ha.
    apply andb_true_iff in Ha as [Hf Ht].
    destruct Hin as [<- | [<- | Hin]].
    + unfold PyStr.lower in *. simpl. now rewrite lower_char_idempotent, (IH t' Hs Ht).
    + unfold PyStr.lower in *. simpl.
      now rewrite lower_upper_char, lower_char_idempotent, (IH t' Hs Ht).
    + apply folded_forms_not_ascii in Hin. unfold ascii_text in Hin. congruence.
Qed.

Lemma spells_keyword_ascii (t : string) :
  spells_keyword t = true -> ascii_text t = true ->
  In (PyStr.lower t) ["todo"; "fixme"; "bug"].
Proof.
  unfold spells_keyword. intros H Ha.
  apply orb_true_iff in H as [H | H]; [apply orb_true_iff in H as [H | H]|];
    rewrite (spells_lower _ _ H Ha); vm_compute; tauto.
Qed.

Lemma scan_line_marker_keyword (markers : list string) (i : nat) (line : string) (e : entry) :
  scan_line markers i line = Some e ->
  spells_keyword (e_marker e) = true
  /\ exists pre post,
       line = pre +:+ e_marker e +:+ post
       /\ (pre = "" \/ exists pre' ch, pre = pre' +:+ String ch "" /\ PyStr.isword ch = false).
Proof.
  unfold scan_line. destruct (Re.search TODO_PATTERN line) as [m|] eqn:Hs; [|discriminate].
  apply search_marker in Hs as (pre & t & post & Hline & -> & Ht & Hb).
  destruct (negb (PyStr.mem t markers)); [discriminate|].
  intros H; injection H as <-. simpl. split; [assumption|]. exists pre, post. auto.
Qed.

(** The flag i reaches beyond ASCII: the dotted capital I (U+0130) spells
    the I of FIXME, so a line with such a marker is found when that very
    spelling is configured, and only then. *)
Example scan_file_dotted_capital_i :
  let marker := "F" +:+ of_codes [196; 176] +:+ "XME" in
  scan_file (text_stream ["# " +:+ marker +:+ ": later"]) [marker]
  = [Entry 1 marker "" "later" ("# " +:+ marker +:+ ": later")]
  /\ scan_file (text_stream ["# " +:+ marker +:+ ": later"]) DEFAULT_MARKERS = [].
Proof. vm_compute. split; reflexivity. Qed.

(** X4: an entry's marker is a spelling of TODO, FIXME or BUG under the
    flag i of the pattern, which for a marker in ASCII means up to letter
    case, and in its line it stands at the very start or right after a
    byte that is not an ASCII letter, a digit or an underscore. *)
Theorem scan_file_marker_boundary (s : stream) (markers : list string) (e : entry) :
  In e (scan_file s markers) ->
  spells_keyword (e_marker e) = true
  /\ (ascii_text (e_marker e) = true ->
      In (PyStr.lower (e_marker e)) ["todo"; "fixme"; "bug"])
  /\ exists line pre post,
       In line (delivered s)
       /\ line = pre +:+ e_marker e +:+ post
       /\ (pre = "" \/ exists pre' ch, pre = pre' +:+ String ch "" /\ PyStr.isword ch = false).
Proof.
  rewrite scan_file_entries. intros H. apply entries_of_In in H as [n [line [Hn Hs]]].
  apply scan_line_marker_keyword in Hs as [Hk (pre & post & Hl & Hb)].
  split; [assumption|]. split; [now apply spells_keyword_ascii|].
  exists line, pre, post. split; [eapply nth_error_In; eauto | auto].
Qed.

Lemma scan_file_marker_boundary_witness :
  spells_keyword "FIXME" = true
  /\ (ascii_text "FIXME" = true -> In (PyStr.lower "FIXME") ["todo"; "fixme"; "bug"])
  /\ exists line pre post,
       In line ["x = 1  # FIXME - later"]
       /\ line = pre +:+ "FIXME" +:+ post
       /\ (pre = "" \/ exists pre' ch, pre = pre' +:+ String ch "" /\ PyStr.isword ch = false).
Proof.
  apply (scan_file_marker_boundary (text_stream ["x = 1  # FIXME - later"]) DEFAULT_MARKERS
           (Entry 1 "FIXME" "" "later" "x = 1  # FIXME - later")).
  vm_compute. left. reflexivity.
Defined.

(** X5: the pattern fixes the keywords: when none of the configured
    markers is a spelling of TODO, FIXME or BUG under the flag i,
    scanning finds nothing, whatever the file holds. *)
Theorem scan_file_foreign_markers (s : stream) (markers : list string) :
  (forall m, In m markers -> spells_keyword m = false) ->
  scan_file s markers = [].
Proof.
  intros Hm. destruct (scan_file s markers) as [|e l] eqn:E; [reflexivity|].
  assert (Hin : In e (scan_file s markers)) by (rewrite E; now left).
  rewrite scan_file_entries in Hin. apply entries_of_In in Hin as [n [line [Hn Hs]]].
  exfalso. assert (Hmk : In (e_marker e) markers) by (eapply scan_line_marker; eauto).
  apply Hm in Hmk. apply scan_line_marker_keyword in Hs as [Hk _]. congruence.
Qed.

Lemma scan_file_foreign_markers_witness :
  scan_file (text_stream ["# HACK: tidy"; "# TODO: tidy"]) ["HACK"; "XXX"] = [].
Proof.
  apply (scan_file_foreign_markers (text_stream ["# HACK: tidy"; "# TODO: tidy"]) ["HACK"; "XXX"]).
  intros m [<- | [<- | []]]; reflexivity.
Defined.

Lemma parse_markers_upper (a : args) (m : string) :
  In m (parse_markers a) -> PyStr.upper m = m.
Proof.
  unfold parse_markers. intros H. apply in_map_iff in H as [x [<- _]].
  apply upper_idempotent.
Qed.

(* ------------------------------------------------------------------ *)
(** ** Further properties: the report *)

Lemma add_entry_finding_of w a repo_name remote branch rel st e :
  add_entry w a repo_name remote branch rel st e
  = State (setdefault_append (aggregated st) repo_name
                             (finding_of a repo_name remote branch rel e))
          (if looks_critical (w_lower w) (e_text e) then true else critical_found st).
Proof. reflexivity. Qed.

Lemma add_entries_member w a repo_name remote branch rel (entries : list entry) :
  forall st k fd,
    member (aggregated (fold_left (add_entry w a repo_name remote branch rel) entries st)) k fd
    <-> member (aggregated st) k fd
        \/ (k = repo_name
            /\ exists e, In e entries /\ fd = finding_of a repo_name remote branch rel e).
Proof.
  induction entries as [|e0 es IH]; intros st k fd; simpl.
  - split; [auto | intros [H | [_ [e [[] _]]]]; assumption].
  - rewrite IH, add_entry_finding_of. simpl. rewrite member_setdefault_append. split.
    + intros [[H | [-> ->]] | [-> [e [He ->]]]]; auto.
      * right. split; [reflexivity|]. exists e0. auto.
      * right. split; [reflexivity|]. exists e. auto.
    + intros [H | [-> [e [[<- | He] ->]]]]; auto.
      right. split; [reflexivity|]. exists e. auto.
Qed.

Lemma scan_files_member w a markers repo_name remote branch (files : list (path * file)) :
  forall st k fd,
    member (aggregated (scan_files w a markers repo_name remote branch files st)) k fd
    <-> member (aggregated st) k fd
        \/ (k = repo_name
            /\ exists p f e,
                 In (p, f) files /\ In e (scan_file (f_text f) markers)
                 /\ fd = finding_of a repo_name remote branch (relpath p) e).
Proof.
  unfold scan_files. induction files as [|[p0 f0] files IH]; intros st k fd; simpl.
  - split; [auto | intros [H | [_ (p & f & e & [] & _)]]; assumption].
  - rewrite IH, add_entries_member. split.
    + intros [[H | [-> [e [He ->]]]] | [-> (p & f & e & Hin & He & ->)]]; auto.
      * right. split; [reflexivity|]. exists p0, f0, e. auto.
      * right. split; [reflexivity|]. exists p, f, e. auto.
    + intros [H | [-> (p & f & e & [E | Hin] & He & ->)]]; auto.
      * injection E as <- <-. left. right. split; [reflexivity|]. exists e. auto.
      * right. split; [reflexivity|]. exists p, f, e. auto.
Qed.

Lemma scan_repo_member w a st repo_name k fd :
  member (aggregated (scan_repo w a st repo_name)) k fd
  <-> member (aggregated st) k fd \/ (k = repo_name /\ found_in w a repo_name fd).
Proof.
  unfold scan_repo, found_in.
  destruct (repo_dir_of w repo_name) as [repo_dir|] eqn:Hdir.
  - rewrite scan_files_member. fold (remote_of w a repo_name).
    fold (branch_of a (remote_of w a repo_name)). split.
    + intros [H | [-> (p & f & e & Hin & He & ->)]]; auto.
      right. split; [reflexivity|]. exists repo_dir, p, f, e. auto.
    + intros [H | [-> (d & p & f & e & Hd & Hin & He & ->)]]; auto.
      injection Hd as <-. right. split; [reflexivity|]. exists p, f, e. auto.
  - split; [auto|]. intros [H | [_ (d & p & f & e & Hd & _)]]; [assumption | discriminate].
Qed.

Lemma fold_scan_repo_member w a (names : list string) :
  forall st k fd,
    member (aggregated (fold_left (scan_repo w a) names st)) k fd
    <-> member (aggregated st) k fd \/ (In k names /\ found_in w a k fd).
Proof.
  induction names as [|n names IH]; intros st k fd; simpl.
  - split; [auto | intros [H | [[] _]]; assumption].
  - rewrite IH, scan_repo_member. split.
    + intros [[H | [-> H]] | [Hin H]]; auto.
    + intros [H | [[<- | Hin] H]]; auto.
Qed.

(** The report holds exactly the findings of the repos scanned. *)
Lemma report_member_iff (w : world) (a : args) (r : result) (repos : list string)
      (k : string) (fd : finding) :
  main w a = Some r ->
  parse_repos w a = Some repos ->
  (member (r_report r) k fd <-> In k repos /\ found_in w a k fd).
Proof.
  intros Hmain Hrepos. apply main_Some in Hmain as (repos' & Hrepos' & E & _).
  assert (repos' = repos) by congruence. subst repos'. rewrite E.
  rewrite sort_within_repos_member. unfold scan_repos. rewrite fold_scan_repo_member.
  rewrite sorted_In. split; [|auto]. intros [[vs [[] _]] | H]. assumption.
Qed.

(** X7: the report holds exactly the findings of the repos scanned: a
    finding is listed under a repo name if and only if that name is one of
    the repo names, it has a directory under the root, and the finding is
    the one built from an entry of the scan of a collected file of that
    directory, with the repo's remote and branch.  Nothing is lost and
    nothing is added between the scan and the report. *)
Theorem report_exact (w : world) (a : args) (r : result) (repos : list string)
        (k : string) (fd : finding) :
  main w a = Some r ->
  parse_repos w a = Some repos ->
  (member (r_report r) k fd
   <-> In k repos
       /\ exists repo_dir p f e,
            repo_dir_of w k = Some repo_dir
            /\ In (p, f) (collect_files repo_dir (parse_include_exts a) (parse_excluded_dirs a))
            /\ In e (scan_file (f_text f) (parse_markers a))
            /\ fd = finding_of a k (remote_of w a k) (branch_of a (remote_of w a k))
                               (relpath p) e).
Proof. apply report_member_iff. Qed.

Lemma report_exact_witness :
  exists r, main demo_world default_args = Some r /\ member (r_report r) "app" demo_finding.
Proof.
  eexists. split; [vm_compute; reflexivity|].
  apply (report_exact demo_world default_args _ ["app"; "empty"; ".tools"] "app" demo_finding
           eq_refl eq_refl).
  split; [left; reflexivity|].
  exists app_dir, ["main.py"],
    (source_file ["import os"; "# TODO(alice): production outage";
                  "x = 1  # FIXME - handle null case"]),
    (Entry 2 "TODO" "alice" "production outage" "# TODO(alice): production outage").
  split; [reflexivity|]. split; [vm_compute; left; reflexivity|].
  split; [vm_compute; left; reflexivity | vm_compute; reflexivity].
Defined.

(** X8: a finding has a link only when links are enabled, the remote of
    its repo was detected and a provider host occurs in the remote host;
    the link is then the one built for the finding's file and line on the
    branch given by [--branch] or, without it, on the detected branch.
    With [--no-remote-links], or without a detected remote, the link is
    empty. *)
Theorem report_links (w : world) (a : args) (r : result) (repos : list string)
        (k : string) (fd : finding) :
  main w a = Some r ->
  parse_repos w a = Some repos ->
  member (r_report r) k fd ->
  (arg_no_remote_links a = true -> fd_link fd = "")
  /\ (detect_remote_info (w_git w k) = None -> fd_link fd = "")
  /\ (fd_link fd <> "" ->
      exists remote,
        arg_no_remote_links a = false
        /\ detect_remote_info (w_git w k) = Some remote
        /\ build_line_link remote
             (if PyStr.truthy (arg_branch a) then arg_branch a else default_branch remote)
             (fd_file fd) (fd_line fd)
           = Some (fd_link fd)).
Proof.
  intros Hmain Hrepos Hm.
  apply (report_member_iff w a r repos k fd Hmain Hrepos) in Hm
    as [_ (d & p & f & e & _ & _ & _ & ->)].
  unfold finding_of, remote_of, branch_of. cbn [fd_link fd_file fd_line].
  destruct (arg_no_remote_links a); simpl.
  - repeat split; auto. intros H. now contradiction H.
  - destruct (detect_remote_info (w_git w k)) as [remote|]; simpl.
    + split; [discriminate|]. split; [discriminate|].
      intros Hl. exists remote. repeat split.
      destruct (build_line_link remote _ _ _) as [l|]; [reflexivity | now contradiction Hl].
    + repeat split; auto. intros H. now contradiction H.
Qed.

Lemma report_links_witness :
  exists r,
    main demo_world default_args = Some r
    /\ exists remote,
         arg_no_remote_links default_args = false
         /\ detect_remote_info (w_git demo_world "app") = Some remote
         /\ build_line_link remote
              (if PyStr.truthy (arg_branch default_args) then arg_branch default_args
               else default_branch remote)
              (fd_file demo_finding) (fd_line demo_finding)
            = Some (fd_link demo_finding).
Proof.
  eexists. split; [vm_compute; reflexivity|].
  refine (proj2 (proj2 (report_links demo_world default_args _ ["app"; "empty"; ".tools"]
                          "app" demo_finding eq_refl eq_refl _)) _).
  - vm_compute. eexists. split; [right; left; reflexivity | right; left; reflexivity].
  - discriminate.
Defined.

Lemma key_le_total (x y : finding) : key_le x y = false -> key_le y x = true.
Proof.
  unfold key_le.
  rewrite (String.compare_antisym (fd_marker y) (fd_marker x)).
  rewrite (String.compare_antisym (fd_file y) (fd_file x)).
  destruct (String.compare (fd_marker x) (fd_marker y)); simpl; try discriminate; auto.
  destruct (String.compare (fd_file x) (fd_file y)); simpl; try discriminate; auto.
  intros H. apply Nat.leb_gt in H. apply Nat.leb_le. lia.
Qed.

Section SortedFacts.
Context {A : Type} (le : A -> A -> bool).
Hypothesis le_total : forall x y, le x y = false -> le y x = true.

Lemma insert_sorted_Sorted (x : A) (l : list A) :
  Sorted (fun a b => le a b = true) l ->
  Sorted (fun a b => le a b = true) (insert_sorted le x l).
Proof.
  induction l as [|y l IH]; simpl; intros Hs.
  - repeat constructor.
  - destruct (le x y) eqn:E.
    + constructor; [assumption | constructor; assumption].
    + apply Sorted_inv in Hs as [Hs Hhd]. constructor; [auto|].
      destruct l as [|z l]; simpl.
      * constructor. now apply le_total.
      * destruct (le x z); constructor; [now apply le_total | now inversion Hhd].
Qed.

Lemma sorted_Sorted (l : list A) : Sorted (fun a b => le a b = true) (sorted le l).
Proof.
  induction l as [|x l IH]; simpl; [constructor | now apply insert_sorted_Sorted].
Qed.
End SortedFacts.

(** X9: in the report, the findings of each repo are ordered by marker,
    then file, then line: each finding is at most its successor in the
    tuple order of the sort key. *)
Theorem report_sorted (w : world) (a : args) (r : result) (k : string) (items : list finding) :
  main w a = Some r ->
  In (k, items) (r_report r) ->
  Sorted (fun x y => key_le x y = true) items.
Proof.
  intros Hmain Hin. apply main_Some in Hmain as (repos & _ & E & _). rewrite E in Hin.
  unfold sort_within_repos in Hin. apply in_map_iff in Hin as [[k0 vs] [H _]].
  injection H as _ <-. apply sorted_Sorted, key_le_total.
Qed.

Lemma report_sorted_witness :
  exists r,
    main demo_world default_args = Some r
    /\ Sorted (fun x y => key_le x y = true) [demo_fixme; demo_finding].
Proof.
  eexists. split; [vm_compute; reflexivity|].
  apply (report_sorted demo_world default_args _ "app" _ eq_refl).
  vm_compute. right. left. reflexivity.
Defined.

Section DictMoreFacts.
Context {V : Type}.

Lemma keys_setdefault_append (d : dict V) (k : string) (v : V) :
  keys (setdefault_append d k v) = if PyStr.mem k (keys d) then keys d else keys d ++ [k].
Proof.
  unfold PyStr.mem. induction d as [|[k0 vs0] d IH]; simpl; [reflexivity|].
  rewrite (String.eqb_sym k k0). destruct (String.eqb k0 k); simpl; [reflexivity|].
  rewrite IH. unfold keys. now destruct (existsb (String.eqb k) (map fst d)).
Qed.

Lemma mem_In (x : string) (l : list string) : PyStr.mem x l = true <-> In x l.
Proof.
  unfold PyStr.mem. rewrite existsb_exists. split.
  - intros [y [Hin E]]. apply String.eqb_eq in E. now subst.
  - intros H. exists x. split; [assumption | apply String.eqb_refl].
Qed.

Lemma NoDup_setdefault_append (d : dict V) (k : string) (v : V) :
  NoDup (keys d) -> NoDup (keys (setdefault_append d k v)).
Proof.
  intros H. rewrite keys_setdefault_append. destruct (PyStr.mem k (keys d)) eqn:E; [assumption|].
  apply NoDup_app; [assumption | repeat constructor; intros [] | ].
  intros x Hx [<- | []]. apply mem_In in Hx. congruence.
Qed.

Lemma get_In (d : dict V) (k : string) (vs : list V) :
  NoDup (keys d) -> In (k, vs) d -> get d k = Some vs.
Proof.
  induction d as [|[k0 vs0] d IH]; simpl; [intros _ []|].
  intros Hnd [E | Hin].
  - injection E as -> ->. now rewrite String.eqb_refl.
  - apply NoDup_cons_iff in Hnd as [Hk Hnd]. destruct (String.eqb k0 k) eqn:E.
    + apply String.eqb_eq in E. subst k0. exfalso. apply Hk.
      unfold keys. apply in_map_iff. exists (k, vs). auto.
    + auto.
Qed.

Lemma item_setdefault_append (d : dict V) (k : string) (v : V) (k' : string) :
  item (setdefault_append d k v) k'
  = if String.eqb k k' then item d k ++ [v] else item d k'.
Proof.
  unfold item. induction d as [|[k0 vs0] d IH]; simpl.
  - destruct (String.eqb k k'); reflexivity.
  - destruct (String.eqb k0 k) eqn:E0; simpl.
    + apply String.eqb_eq in E0. subst k0. destruct (String.eqb k k'); reflexivity.
    + destruct (String.eqb k0 k') eqn:E1.
      * destruct (String.eqb k k') eqn:E2; [|reflexivity].
        apply String.eqb_eq in E1, E2. subst. now rewrite String.eqb_refl in E0.
      * exact IH.
Qed.
End DictMoreFacts.

(** X10: [setdefault] followed by [append] behaves as a map update: the
    list under the key grows by the value at its end (starting from the
    empty list for a new key), the lists under the other keys are
    untouched, and keys stay unique, a new key going last. *)
Theorem setdefault_append_lookup (d : dict finding) (k k' : string) (v : finding) :
  NoDup (keys d) ->
  item (setdefault_append d k v) k = item d k ++ [v]
  /\ (k' <> k -> get (setdefault_append d k v) k' = get d k')
  /\ NoDup (keys (setdefault_append d k v))
  /\ keys (setdefault_append d k v) = (if PyStr.mem k (keys d) then keys d else keys d ++ [k]).
Proof.
  intros Hnd. split; [|split; [|split]].
  - rewrite item_setdefault_append. now rewrite String.eqb_refl.
  - intros Hne. induction d as [|[k0 vs0] d IH]; simpl.
    + apply String.eqb_neq in Hne. rewrite String.eqb_sym. now rewrite Hne.
    + destruct (String.eqb k0 k) eqn:E0; simpl.
      * apply String.eqb_eq in E0. subst k0.
        apply String.eqb_neq in Hne. rewrite String.eqb_sym. now rewrite Hne.
      * destruct (String.eqb k0 k'); [reflexivity|]. apply IH.
        now apply NoDup_cons_iff in Hnd as [_ Hnd].
  - now apply NoDup_setdefault_append.
  - apply keys_setdefault_append.
Qed.

Lemma setdefault_append_lookup_witness :
  item (setdefault_append [("app", [demo_finding])] "lib" demo_finding) "lib"
  = item [("app", [demo_finding])] "lib" ++ [demo_finding]
  /\ keys (setdefault_append [("app", [demo_finding])] "lib" demo_finding) = ["app"; "lib"].
Proof.
  pose proof (setdefault_append_lookup [("app", [demo_finding])] "lib" "app" demo_finding) as H.
  split; apply H; repeat constructor; simpl; tauto.
Defined.

Lemma member_key {V : Type} (d : dict V) (k : string) (v : V) :
  member d k v -> In k (keys d).
Proof.
  intros [vs [Hin _]]. unfold keys. apply in_map_iff. exists (k, vs). auto.
Qed.

Lemma scan_files_NoDup w a markers repo_name remote branch files st :
  NoDup (keys (aggregated st)) ->
  NoDup (keys (aggregated (scan_files w a markers repo_name remote branch files st))).
Proof.
  unfold scan_files.
  apply (fold_left_invariant _ (fun st => NoDup (keys (aggregated st)))).
  intros st' pf _.
  apply (fold_left_invariant _ (fun st => NoDup (keys (aggregated st)))).
  intros st'' e _ H. rewrite add_entry_finding_of. simpl.
  now apply NoDup_setdefault_append.
Qed.

Lemma scan_repos_NoDup (w : world) (a : args) (repos : list string) :
  NoDup (keys (aggregated (scan_repos w a repos))).
Proof.
  unfold scan_repos.
  apply (fold_left_invariant _ (fun st => NoDup (keys (aggregated st)))); [|constructor].
  intros st name _ Hst. unfold scan_repo.
  destruct (repo_dir_of w name); [|assumption].
  now apply scan_files_NoDup.
Qed.

(** X11: the report has one entry per repo that has findings: its keys
    are pairwise distinct, and a name is a key if and only if it is one of
    the repo names and some finding was found in its directory. *)
Theorem report_keys (w : world) (a : args) (r : result) (repos : list string) :
  main w a = Some r ->
  parse_repos w a = Some repos ->
  NoDup (keys (r_report r))
  /\ forall k, In k (keys (r_report r))
               <-> In k repos /\ exists fd, found_in w a k fd.
Proof.
  intros Hmain Hrepos. split.
  - apply main_Some in Hmain as (repos' & _ & E & _). rewrite E, sort_within_repos_keys.
    apply scan_repos_NoDup.
  - intros k. split.
    + intros Hk. destruct (report_key_member w a r k Hmain Hk) as [fd Hm].
      apply (report_member_iff w a r repos k fd Hmain Hrepos) in Hm as [Hin Hf].
      split; [assumption | now exists fd].
    + intros [Hin [fd Hf]]. apply (member_key _ _ fd).
      apply (report_member_iff w a r repos k fd Hmain Hrepos). auto.
Qed.

Lemma report_keys_witness :
  exists r,
    main demo_world default_args = Some r
    /\ NoDup (keys (r_report r))
    /\ ~ In "empty" (keys (r_report r)).
Proof.
  eexists. split; [vm_compute; reflexivity|].
  pose proof (report_keys demo_world default_args _ ["app"; "empty"; ".tools"]
                eq_refl eq_refl) as [Hnd _].
  split; [exact Hnd|]. vm_compute. intros [H | [H | []]]; discriminate.
Defined.

Lemma fold_group_item (items : list finding) :
  forall (d : dict finding) (m : string),
    item (fold_left (fun by_marker it => setdefault_append by_marker (fd_marker it) it) items d) m
    = item d m ++ with_marker m items.
Proof.
  induction items as [|it items IH]; intros d m; simpl; [now rewrite app_nil_r|].
  rewrite IH, item_setdefault_append.
  destruct (String.eqb (fd_marker it) m) eqn:E; [|reflexivity].
  apply String.eqb_eq in E. subst m. now rewrite <- app_assoc.
Qed.

Lemma fold_group_keys (items : list finding) :
  forall (d : dict finding) (m : string),
    In m (keys d) \/ (exists it, In it items /\ fd_marker it = m) ->
    In m (keys (fold_left (fun by_marker it => setdefault_append by_marker (fd_marker it) it)
                          items d)).
Proof.
  induction items as [|it items IH]; intros d m; simpl.
  - intros [H | [it [[] _]]]. assumption.
  - intros H. apply IH. rewrite keys_setdefault_append.
    destruct (PyStr.mem (fd_marker it) (keys d)) eqn:E.
    + destruct H as [H | [it' [[<- | Hin] Hm]]]; auto.
      * left. subst m. now apply mem_In.
      * right. now exists it'.
    + destruct H as [H | [it' [[<- | Hin] Hm]]].
      * left. apply in_or_app. now left.
      * left. apply in_or_app. right. subst m. now left.
      * right. now exists it'.
Qed.

Lemma with_marker_In (fd : finding) (items : list finding) :
  In fd items -> In fd (with_marker (fd_marker fd) items).
Proof.
  intros H. unfold with_marker. apply filter_In. split; [assumption | apply String.eqb_refl].
Qed.

Lemma md_repo_section_rendered (d : dict finding) (k : string) (fd : finding) :
  In fd (item d k) ->
  In ("## " +:+ k +:+ " (" +:+ PyStr.of_nat (List.length (item d k)) +:+ ")")
     (md_repo_section d k)
  /\ In ("### " +:+ fd_marker fd +:+ " ("
                +:+ PyStr.of_nat (List.length (with_marker (fd_marker fd) (item d k))) +:+ ")")
        (md_repo_section d k)
  /\ In (md_bullet fd) (md_repo_section d k).
Proof.
  intros Hfd. unfold md_repo_section. split; [now left|].
  assert (Hkey : In (fd_marker fd)
                    (sorted String.leb (keys (group_by_marker (item d k))))).
  { apply sorted_In. unfold group_by_marker. apply fold_group_keys. right. now exists fd. }
  assert (Hitem : item (group_by_marker (item d k)) (fd_marker fd)
                  = with_marker (fd_marker fd) (item d k)).
  { unfold group_by_marker. now rewrite fold_group_item. }
  split; apply in_or_app; right; apply in_or_app; left; apply in_flat_map;
    exists (fd_marker fd); (split; [assumption|]); unfold md_marker_block; rewrite Hitem.
  - now left.
  - apply in_or_app. right. apply in_or_app. left. apply in_map. now apply with_marker_In.
Qed.

(** X12: every finding of the report is rendered: the Markdown has the
    heading of its repo with the number of findings of that repo, the
    sub-heading of its marker with the number of the repo's findings that
    carry the marker, and the bullet of the finding. *)
Theorem report_rendered (w : world) (a : args) (r : result)
        (k : string) (items : list finding) (fd : finding) :
  main w a = Some r ->
  In (k, items) (r_report r) ->
  In fd items ->
  In ("## " +:+ k +:+ " (" +:+ PyStr.of_nat (List.length items) +:+ ")") (r_md_lines r)
  /\ In ("### " +:+ fd_marker fd +:+ " ("
                +:+ PyStr.of_nat (List.length (with_marker (fd_marker fd) items)) +:+ ")")
        (r_md_lines r)
  /\ In (md_bullet fd) (r_md_lines r).
Proof.
  intros Hmain Hin Hfd.
  assert (Hitem : item (r_report r) k = items).
  { unfold item. rewrite (get_In (r_report r) k items); [reflexivity | | assumption].
    apply main_Some in Hmain as (repos & _ & E & _). rewrite E, sort_within_repos_keys.
    apply scan_repos_NoDup. }
  assert (Hk : In k (sorted String.leb (keys (r_report r)))).
  { apply sorted_In. unfold keys. apply in_map_iff. exists (k, items). auto. }
  apply main_Some in Hmain as (repos & _ & _ & E & _). rewrite E. unfold md_lines.
  rewrite <- Hitem in Hfd. destruct (md_repo_section_rendered _ _ _ Hfd) as (H1 & H2 & H3).
  rewrite Hitem in H1, H2.
  repeat split; apply in_or_app; right; apply in_flat_map; exists k; auto.
Qed.

Lemma report_rendered_witness :
  exists r,
    main demo_world default_args = Some r
    /\ In "## app (2)" (r_md_lines r)
    /\ In "### TODO (1)" (r_md_lines r)
    /\ In (md_bullet demo_finding) (r_md_lines r).
Proof.
  eexists. split; [vm_compute; reflexivity|].
  assert (Hin : In demo_finding [demo_fixme; demo_finding]) by (right; left; reflexivity).
  refine (report_rendered demo_world default_args _ "app" [demo_fixme; demo_finding]
            demo_finding eq_refl _ Hin).
  vm_compute. right. left. reflexivity.
Defined.

Lemma total_count_length (d : dict finding) :
  total_count d = List.length (List.concat (values d)).
Proof.
  unfold total_count, values. induction d as [|[k vs] d IH]; simpl; [reflexivity|].
  now rewrite length_app, IH.
Qed.

Lemma md_lines_quote (w : world) (repos markers : list string) (d : dict finding)
      (line : string) :
  In line (md_lines w repos markers d) ->
  PyStr.startswith "> " line = true ->
  total_count d = 0.
Proof.
  unfold md_lines. intros H Hs. apply in_app_or in H as [H | H].
  - unfold md_header in H.
    apply in_app_or in H as [H | H]; [|apply in_app_or in H as [H | H]].
    + simpl in H. repeat (destruct H as [<- | H]; [discriminate Hs|]). destruct H.
    + destruct (Nat.eqb (total_count d) 0) eqn:E; [now apply Nat.eqb_eq in E | destruct H].
    + simpl in H. repeat (destruct H as [<- | H]; [discriminate Hs|]). destruct H.
  - exfalso. apply in_flat_map in H as [k [_ H]]. unfold md_repo_section in H.
    apply in_app_or in H as [H | H]; [|apply in_app_or in H as [H | H]].
    + simpl in H. repeat (destruct H as [<- | H]; [discriminate Hs|]). destruct H.
    + apply in_flat_map in H as [m [_ H]]. unfold md_marker_block in H.
      apply in_app_or in H as [H | H]; [|apply in_app_or in H as [H | H]].
      * simpl in H. repeat (destruct H as [<- | H]; [discriminate Hs|]). destruct H.
      * apply in_map_iff in H as [it [<- _]]. discriminate Hs.
      * simpl in H. repeat (destruct H as [<- | H]; [discriminate Hs|]). destruct H.
    + simpl in H. repeat (destruct H as [<- | H]; [discriminate Hs|]). destruct H.
Qed.

(** X13: the total the Markdown shows is the number of findings of the
    report, which is also the number of items of the JSON file when one is
    written; and the empty-state line is in the Markdown exactly when that
    number is zero. *)
Theorem report_total (w : world) (a : args) (r : result) :
  main w a = Some r ->
  let n := List.length (List.concat (values (r_report r))) in
  In ("**Total items:** " +:+ PyStr.of_nat n) (r_md_lines r)
  /\ (forall items, r_json_items r = Some items -> List.length items = n)
  /\ (In ("> " +:+ PARTY +:+ " No TODO-like markers found in the scanned repositories.")
         (r_md_lines r)
      <-> n = 0).
Proof.
  intros Hmain n.
  assert (Hjson : r_json_items r
                  = if PyStr.truthy (arg_out_json a)
                    then Some (List.concat (values (r_report r))) else None).
  { destruct (main_Some_run w a r Hmain) as (repos & _ & _ & _ & _ & _ & ->). reflexivity. }
  apply main_Some in Hmain as (repos & _ & _ & E & _). rewrite E. subst n.
  rewrite <- total_count_length. split; [|split].
  - unfold md_lines, md_header. apply in_or_app. left. apply in_or_app. left.
    simpl. auto 10.
  - intros items Hi. rewrite Hjson in Hi. destruct (PyStr.truthy (arg_out_json a));
      [|discriminate]. injection Hi as <-. symmetry. apply total_count_length.
  - split.
    + intros H. eapply md_lines_quote; [exact H | reflexivity].
    + intros H0. unfold md_lines, md_header. apply in_or_app. left.
      apply in_or_app. right. apply in_or_app. left. rewrite H0. simpl. auto.
Qed.

Lemma report_total_witness :
  exists r, main demo_world default_args = Some r /\ In "**Total items:** 3" (r_md_lines r).
Proof.
  eexists. split; [vm_compute; reflexivity|].
  apply (report_total demo_world default_args _ eq_refl).
Defined.

(* ------------------------------------------------------------------ *)
(** ** Further properties: file discovery *)

Lemma textchars_spec (b : Byte.byte) :
  textchars b = true
  <-> In (Byte.to_nat b) [7; 8; 9; 10; 12; 13; 27] \/ 32 <= Byte.to_nat b.
Proof.
  unfold textchars. rewrite orb_true_iff, existsb_exists, andb_true_iff.
  assert (Hlt : Byte.to_nat b < 256) by (destruct b; vm_compute; lia).
  split.
  - intros [[n [Hin E]] | [H _]].
    + apply Nat.eqb_eq in E. subst n. now left.
    + right. now apply Nat.leb_le.
  - intros [H | H].
    + left. exists (Byte.to_nat b). split; [assumption | apply Nat.eqb_refl].
    + right. split; [now apply Nat.leb_le | now apply Nat.ltb_lt].
Qed.

Lemma nontext_nil (chunk : list Byte.byte) :
  nontext chunk = [] <-> Forall (fun b => textchars b = true) chunk.
Proof.
  unfold nontext. induction chunk as [|b chunk IH]; simpl.
  - split; [constructor | reflexivity].
  - destruct (textchars b) eqn:E; simpl.
    + rewrite IH. split; [now constructor | now inversion 1].
    + split; [discriminate | inversion 1; congruence].
Qed.

(** X14: a file is taken as text exactly when it can be read and every
    one of its first 1024 bytes is BEL, BS, TAB, LF, FF, CR, ESC or at
    least 32; in particular a single NUL or other control byte in the
    sample makes it binary, and the bytes after the first 1024 play no
    part. *)
Theorem is_binary_file_iff (f : file) :
  (is_binary_file f = false
   <-> exists content,
         f_bytes f = Some content
         /\ Forall (fun b => In (Byte.to_nat b) [7; 8; 9; 10; 12; 13; 27]
                             \/ 32 <= Byte.to_nat b)
                   (firstn 1024 content))
  /\ (forall chunk more text text',
         List.length chunk = 1024 ->
         is_binary_file (File (Some (chunk ++ more)) text)
         = is_binary_file (File (Some chunk) text')).
Proof.
  split.
  - unfold is_binary_file, sample. destruct (f_bytes f) as [content|].
    + assert (Hnul : existsb (Byte.eqb Byte.x00) (firstn 1024 content) = true ->
                     nontext (firstn 1024 content) <> []).
      { intros H E. apply existsb_exists in H as [b [Hin Hb]].
        apply nontext_nil in E. rewrite Forall_forall in E. specialize (E b Hin).
        destruct b; try discriminate Hb. discriminate E. }
      split.
      * intros H. exists content. split; [reflexivity|].
        destruct (existsb (Byte.eqb Byte.x00) (firstn 1024 content)); [discriminate|].
        destruct (nontext (firstn 1024 content)) eqn:E; [|discriminate].
        apply nontext_nil in E. eapply Forall_impl; [|exact E].
        intros b. apply textchars_spec.
      * intros [content' [E Hall]]. injection E as <-.
        assert (E : nontext (firstn 1024 content) = []).
        { apply nontext_nil. eapply Forall_impl; [|exact Hall]. intros b. apply textchars_spec. }
        destruct (existsb (Byte.eqb Byte.x00) (firstn 1024 content)) eqn:En.
        -- now contradiction (Hnul eq_refl).
        -- now rewrite E.
    + split; [discriminate | intros [content [E _]]; discriminate].
  - intros chunk more text text' Hlen. unfold is_binary_file, sample. cbn [f_bytes].
    rewrite firstn_app, Hlen, Nat.sub_diag. simpl (firstn 0 more). rewrite app_nil_r.
    reflexivity.
Qed.

Lemma file_entries_In (entries : list (string * node)) (name : string) (f : file) :
  In (name, f) (file_entries entries) <-> In (name, F f) entries.
Proof.
  unfold file_entries. rewrite in_flat_map. split.
  - intros [[nm [f' | es]] [Hin H]]; simpl in H; [|destruct H].
    destruct H as [E | []]. injection E as -> ->. assumption.
  - intros H. exists (name, F f). split; [assumption | now left].
Qed.

Lemma os_walk_head (keep : string -> bool) (top : path) (entries : list (string * node)) :
  In (top, filter keep (dir_names entries), file_entries entries)
     (os_walk keep top (D entries)).
Proof. simpl. now left. Qed.

Lemma os_walk_descend (keep : string -> bool) (top : path) (entries : list (string * node))
      (d : string) (sub : node) t :
  In (d, sub) entries -> keep d = true -> In t (os_walk keep (top ++ [d]) sub) ->
  In t (os_walk keep top (D entries)).
Proof.
  intros Hin Hk Ht. simpl. right. induction entries as [|[nm child] es IH]; [destruct Hin|].
  apply in_or_app. destruct Hin as [E | Hin].
  - injection E as -> ->. left. destruct sub as [f | es']; [destruct Ht|].
    now rewrite Hk.
  - right. auto.
Qed.

(** The walk yields exactly the directories reached through kept names. *)
Lemma os_walk_iff (keep : string -> bool) (n : node) :
  forall top t ds fs,
    In (t, ds, fs) (os_walk keep top n)
    <-> exists rel entries,
          t = top ++ rel /\ dir_at rel n entries
          /\ Forall (fun d => keep d = true) rel
          /\ ds = filter keep (dir_names entries) /\ fs = file_entries entries.
Proof.
  intros top t ds fs. split.
  - revert top. induction n as [f | entries IH] using node_induction; intros top; simpl;
      [intros []|].
    intros [E | Hin].
    + injection E as <- <- <-. exists [], entries. rewrite app_nil_r. simpl. auto.
    + assert (Hgen : forall es0,
                 Forall (fun e => forall top,
                             In (t, ds, fs) (os_walk keep top (snd e)) ->
                             exists rel entries0,
                               t = top ++ rel /\ dir_at rel (snd e) entries0
                               /\ Forall (fun d => keep d = true) rel
                               /\ ds = filter keep (dir_names entries0)
                               /\ fs = file_entries entries0) es0 ->
                 In (t, ds, fs)
                    ((fix descend (es : list (string * node)) :=
                        match es with
                        | [] => []
                        | (name, child) :: es' =>
                            match child with
                            | D _ => if keep name then os_walk keep (top ++ [name]) child else []
                            | F _ => []
                            end ++ descend es'
                        end) es0) ->
                 exists d sub rel entries0,
                   In (d, sub) es0 /\ keep d = true
                   /\ t = (top ++ [d]) ++ rel /\ dir_at rel sub entries0
                   /\ Forall (fun d => keep d = true) rel
                   /\ ds = filter keep (dir_names entries0) /\ fs = file_entries entries0).
      { induction es0 as [|[nm child] es0 IHes]; [intros _ []|].
        intros Hall H. apply Forall_cons_iff in Hall as [Hc Hall]. simpl in Hc.
        apply in_app_or in H as [H | H].
        - destruct child as [f | sub]; [destruct H|].
          destruct (keep nm) eqn:Hk; [|destruct H].
          apply Hc in H as (rel & entries0 & Ht & Hd & Hrel & Hds & Hfs).
          exists nm, (D sub), rel, entries0. simpl. auto 10.
        - destruct (IHes Hall H) as (d & sub & rel & entries0 & Hin' & Hrest).
          exists d, sub, rel, entries0. simpl. auto. }
      destruct (Hgen entries IH Hin)
        as (d & sub & rel & entries0 & Hin' & Hk & Ht & Hd & Hrel & Hds & Hfs).
      exists (d :: rel), entries0. rewrite Ht, <- app_assoc. simpl. repeat split; auto.
      exists entries, sub. auto.
  - intros (rel & entries & -> & Hd & Hrel & -> & ->). revert n top Hd Hrel.
    induction rel as [|d rel IH]; intros n top Hd Hrel; simpl in Hd.
    + subst n. rewrite app_nil_r. apply os_walk_head.
    + destruct Hd as (es & sub & -> & Hin & Hd). apply Forall_cons_iff in Hrel as [Hk Hrel].
      eapply os_walk_descend; eauto.
      replace (top ++ d :: rel) with ((top ++ [d]) ++ rel) by now rewrite <- app_assoc.
      now apply IH.
Qed.

(** X15: the eligible files of a repo are exactly the files that sit in
    its tree below directories none of which satisfies the exclusion rule,
    whose extension (or whole name) is in the allow-list and that are not
    binary; each comes with its path below the repo. *)
Theorem collect_files_exact (repo_dir : node) (include_exts excluded_dirs : list string)
        (p : path) (f : file) :
  In (p, f) (collect_files repo_dir include_exts excluded_dirs)
  <-> exists dirs name,
        p = dirs ++ [name]
        /\ file_at dirs repo_dir name f
        /\ Forall (fun d => should_exclude_dir d excluded_dirs = false) dirs
        /\ PyStr.mem (ext_of name) include_exts = true
        /\ is_binary_file f = false.
Proof.
  unfold collect_files. rewrite in_flat_map. split.
  - intros [[[root ds] files] [Hwalk Hin]].
    apply os_walk_iff in Hwalk as (rel & entries & E & Hd & Hrel & _ & ->). simpl in E.
    subst root. apply in_flat_map in Hin as [[name f'] [Hf Hin]].
    destruct (PyStr.mem (ext_of name) include_exts) eqn:Hext; [|destruct Hin].
    destruct (is_binary_file f') eqn:Hbin; [destruct Hin|].
    destruct Hin as [E | []]. injection E as <- <-.
    exists rel, name. repeat split; auto.
    + exists entries. split; [assumption | now apply file_entries_In].
    + eapply Forall_impl; [|exact Hrel]. simpl. intros d Hk. now apply negb_true_iff in Hk.
  - intros (dirs & name & -> & [entries [Hd Hin]] & Hdirs & Hext & Hbin).
    exists (dirs, filter (fun d => negb (should_exclude_dir d excluded_dirs)) (dir_names entries),
            file_entries entries). split.
    + apply os_walk_iff. exists dirs, entries. repeat split; auto.
      eapply Forall_impl; [|exact Hdirs]. simpl. intros d Hk. now apply negb_true_iff.
    + apply in_flat_map. exists (name, f). split; [now apply file_entries_In|].
      rewrite Hext, Hbin. now left.
Qed.

Lemma rfind_absent (c : ascii) (s : string) : has c s = false -> rfind c s = None.
Proof.
  intros H. induction s as [|x s IH]; simpl in *; [reflexivity|].
  apply orb_false_iff in H as [Hx Hs]. rewrite (IH Hs). now rewrite Hx.
Qed.

Lemma rfind_append (c : ascii) (a b : string) :
  rfind c (a +:+ b)
  = match rfind c b with
    | Some i => Some (String.length a + i)
    | None => rfind c a
    end.
Proof.
  induction a as [|x a IH]; simpl.
  - now destruct (rfind c b).
  - rewrite IH. destruct (rfind c b); [reflexivity|]. reflexivity.
Qed.

Lemma lower_append (a b : string) :
  PyStr.lower (a +:+ b) = PyStr.lower a +:+ PyStr.lower b.
Proof. unfold PyStr.lower. induction a as [|x a IH]; simpl; [reflexivity | now rewrite IH]. Qed.

Lemma rfind_last_dot (stem e : string) :
  has "." e = false -> rfind "." (stem +:+ "." +:+ e) = Some (String.length stem).
Proof.
  intros Hd. rewrite rfind_append. pose proof (rfind_absent "." e Hd) as He.
  change (rfind "." ("." +:+ e)) with
    (match rfind "." e with
     | Some i => Some (S i)
     | None => if Ascii.eqb "." "." then Some 0 else None
     end).
  rewrite He. simpl. f_equal. lia.
Qed.

Lemma suffix_of_extension (stem e : string) :
  stem <> "" -> e <> "" -> has "." e = false ->
  suffix (stem +:+ "." +:+ e) = "." +:+ e.
Proof.
  intros Hs He Hd. unfold suffix. rewrite (rfind_last_dot stem e Hd).
  rewrite append_length.
  change (String.length ("." +:+ e)) with (S (String.length e)).
  assert (H1 : Nat.ltb 0 (String.length stem) = true).
  { apply Nat.ltb_lt. destruct stem; [congruence | simpl; lia]. }
  assert (H2 : Nat.ltb (String.length stem) (String.length stem + S (String.length e) - 1) = true).
  { apply Nat.ltb_lt. destruct e; [congruence | simpl; lia]. }
  rewrite H1, H2. cbn [andb].
  replace (String.length stem + S (String.length e) - String.length stem)
    with (String.length ("." +:+ e)) by (simpl; lia).
  pose proof (substring_middle stem ("." +:+ e) "") as H.
  rewrite append_nil_r in H. exact H.
Qed.

Lemma suffix_without_dot (name : string) : has "." name = false -> suffix name = "".
Proof. intros H. unfold suffix. now rewrite (rfind_absent "." name H). Qed.

Lemma suffix_leading_dot (e : string) : has "." e = false -> suffix ("." +:+ e) = "".
Proof.
  intros H. unfold suffix. simpl (rfind "." ("." +:+ e)).
  rewrite (rfind_absent "." e H). reflexivity.
Qed.

Lemma suffix_trailing_dot (stem : string) : suffix (stem +:+ ".") = "".
Proof.
  unfold suffix. pose proof (rfind_last_dot stem "" eq_refl) as H. simpl in H. rewrite H.
  rewrite append_length. simpl (String.length ".").
  replace (Nat.ltb (String.length stem) (String.length stem + 1 - 1)) with false.
  - now rewrite andb_false_r.
  - symmetry. apply Nat.ltb_ge. lia.
Qed.

(** X16: the extension tested against the allow-list is the
    lower-cased part of the name from its last dot on, when that dot is
    neither the first nor the last character; otherwise (no dot, a leading
    dot only, a trailing dot) it is the whole name lower-cased. *)
Theorem ext_of_cases :
  (forall stem e, stem <> "" -> e <> "" -> has "." e = false ->
                  ext_of (stem +:+ "." +:+ e) = "." +:+ PyStr.lower e)
  /\ (forall name, has "." name = false -> ext_of name = PyStr.lower name)
  /\ (forall e, has "." e = false -> ext_of ("." +:+ e) = "." +:+ PyStr.lower e)
  /\ (forall stem, ext_of (stem +:+ ".") = PyStr.lower (stem +:+ ".")).
Proof.
  unfold ext_of. repeat split.
  - intros stem e Hs He Hd. rewrite (suffix_of_extension stem e Hs He Hd). reflexivity.
  - intros name H. now rewrite (suffix_without_dot name H).
  - intros e H. now rewrite (suffix_leading_dot e H).
  - intros stem. now rewrite suffix_trailing_dot.
Qed.

Lemma ext_of_cases_witness :
  ext_of "Setup.PY" = ".py"
  /\ ext_of "Dockerfile" = "dockerfile"
  /\ ext_of ".gitignore" = ".gitignore".
Proof.
  destruct ext_of_cases as (H1 & H2 & H3 & _). split; [|split].
  - apply (H1 "Setup" "PY"); [discriminate | discriminate | reflexivity].
  - apply (H2 "Dockerfile"). reflexivity.
  - apply (H3 "gitignore"). reflexivity.
Defined.

(** X17: a directory name is pruned exactly when it is one of the default
    names, or one of the names given by [--extra-exclude], or begins with
    a dot and is longer than the dot alone: the option can only add to
    the defaults. *)
Theorem should_exclude_dir_iff (a : args) (d : string) :
  should_exclude_dir d (parse_excluded_dirs a) = true
  <-> In d DEFAULT_EXCLUDED_DIRS
      \/ In d (csv (arg_extra_exclude a))
      \/ exists rest, d = "." +:+ rest /\ rest <> "".
Proof.
  unfold should_exclude_dir, parse_excluded_dirs.
  rewrite orb_true_iff, mem_In, in_app_iff, andb_true_iff, negb_true_iff.
  assert (Hextra : In d (if PyStr.truthy (arg_extra_exclude a)
                         then csv (arg_extra_exclude a) else [])
                   <-> In d (csv (arg_extra_exclude a))).
  { destruct (arg_extra_exclude a); simpl; [|reflexivity]. vm_compute. tauto. }
  rewrite Hextra.
  assert (Hdot : PyStr.startswith "." d = true /\ PyStr.mem d ["."] = false
                 <-> exists rest, d = "." +:+ rest /\ rest <> "").
  { split.
    - intros [Hs Hm]. apply startswith_spec in Hs as [rest ->]. exists rest.
      split; [reflexivity|]. intros ->. discriminate Hm.
    - intros [rest [-> Hr]]. split; [reflexivity|].
      destruct rest; [congruence | reflexivity]. }
  rewrite Hdot. tauto.
Qed.

(** X18: without [--repos], the repos scanned are the directories under
    the root other than [super], so the report then never has an entry
    for [super], and every entry is for a directory of the root. *)
Theorem default_discovery (w : world) (a : args) (r : result) :
  arg_repos a = "" ->
  main w a = Some r ->
  exists entries,
    w_entries w = Some entries
    /\ parse_repos w a
       = Some (filter (fun n => negb (String.eqb n "super")) (dir_names entries))
    /\ ~ In "super" (keys (r_report r))
    /\ forall k, In k (keys (r_report r)) -> exists sub, In (k, D sub) entries.
Proof.
  intros Hrepos Hmain.
  assert (Hp : parse_repos w a
               = match w_entries w with
                 | Some entries =>
                     Some (filter (fun n => negb (String.eqb n "super")) (dir_names entries))
                 | None => None
                 end).
  { unfold parse_repos. now rewrite Hrepos. }
  destruct (w_entries w) as [entries|] eqn:He.
  2:{ unfold main in Hmain. rewrite Hp in Hmain. discriminate. }
  exists entries. split; [reflexivity|]. split; [assumption|].
  assert (Hk : forall k, In k (keys (r_report r)) ->
                         k <> "super" /\ exists sub, In (k, D sub) entries).
  { intros k Hin. destruct (report_key_member w a r k Hmain Hin) as [fd Hm].
    apply (report_member_iff w a r _ k fd Hmain Hp) in Hm as [Hin' _].
    apply filter_In in Hin' as [Hd Hs]. split.
    - intros ->. discriminate Hs.
    - unfold dir_names in Hd. apply in_flat_map in Hd as [[nm [f | sub]] [Hin' H]];
        simpl in H; [destruct H|]. destruct H as [<- | []]. now exists sub. }
  split.
  - intros H. now apply Hk in H as [H _].
  - intros k H. now apply Hk in H as [_ H].
Qed.

Lemma default_discovery_witness :
  exists r entries,
    main demo_world default_args = Some r
    /\ w_entries demo_world = Some entries
    /\ ~ In "super" (keys (r_report r)).
Proof.
  eexists. eexists. split; [vm_compute; reflexivity|].
  destruct (default_discovery demo_world default_args _ eq_refl eq_refl)
    as (entries & He & _ & Hs & _).
  split; [reflexivity | exact Hs].
Defined.

(* ------------------------------------------------------------------ *)
(** ** Further properties: remote URLs *)

Lemma split_once_first (c : ascii) (a b : string) :
  has c a = false -> PyStr.split_once c (a +:+ String c b) = Some (a, b).
Proof.
  induction a as [|x a IH]; simpl; intros H.
  - now rewrite Ascii.eqb_refl.
  - apply orb_false_iff in H as [Hx Ha]. rewrite Hx, (IH Ha). reflexivity.
Qed.

Lemma split_nonempty (sep : ascii) (s : string) : PyStr.split sep s <> [].
Proof.
  induction s as [|x s IH]; simpl; [discriminate|].
  destruct (PyStr.split sep s); [congruence|]. destruct (Ascii.eqb x sep); discriminate.
Qed.

Lemma split_whole (sep : ascii) (a : string) :
  has sep a = false -> PyStr.split sep a = [a].
Proof.
  induction a as [|x a IH]; simpl; intros H; [reflexivity|].
  apply orb_false_iff in H as [Hx Ha]. now rewrite (IH Ha), Hx.
Qed.

Lemma split_append (sep : ascii) (a b : string) :
  has sep a = false -> PyStr.split sep (a +:+ String sep b) = a :: PyStr.split sep b.
Proof.
  induction a as [|x a IH]; simpl; intros H.
  - rewrite Ascii.eqb_refl. destruct (PyStr.split sep b) eqn:E; [|reflexivity].
    now apply split_nonempty in E.
  - apply orb_false_iff in H as [Hx Ha]. now rewrite (IH Ha), Hx.
Qed.

Lemma endswith_append (u suf : string) : PyStr.endswith suf (u +:+ suf) = true.
Proof.
  unfold PyStr.endswith. rewrite append_length.
  replace (String.length u + String.length suf - String.length suf) with (String.length u) by lia.
  pose proof (substring_middle u suf "") as H. rewrite append_nil_r in H. rewrite H.
  rewrite String.eqb_refl.
  replace (Nat.leb (String.length suf) (String.length u + String.length suf)) with true;
    [reflexivity|]. symmetry. apply Nat.leb_le. lia.
Qed.

Lemma drop_last_append (u suf : string) : PyStr.drop_last (String.length suf) (u +:+ suf) = u.
Proof.
  unfold PyStr.drop_last. rewrite append_length.
  replace (String.length u + String.length suf - String.length suf) with (String.length u) by lia.
  apply (substring_middle "" u suf).
Qed.

Lemma detect_remote_info_unfold (g : git_env) :
  detect_remote_info g
  = match _git (git_remote_get_url g) with
    | None => None
    | Some remote_url =>
        match parse_remote_url (normalize_url remote_url) with
        | Some (Some h, Some o) =>
            if PyStr.truthy h && PyStr.truthy o
            then Some (RemoteInfo h o (PyStr.last_item (PyStr.split "/" o)) (detect_branch g))
            else None
        | _ => None
        end
    end.
Proof.
  unfold detect_remote_info, normalize_url.
  destruct (_git (git_remote_get_url g)) as [url|]; [|reflexivity].
  destruct (parse_remote_url _) as [[[h|] [o|]]|]; simpl; try reflexivity.
  - destruct (PyStr.truthy h), (PyStr.truthy o); reflexivity.
  - now destruct (PyStr.truthy h).
Qed.

(** X19: a detected remote is never partial: its host and its org/repo
    path are not empty, its repo name is the last segment of that path,
    and the URL it was read from, stripped and without one trailing
    [.git], begins with [git@], [https://] or [http://]. *)
Theorem remote_info_well_formed (g : git_env) (info : remote_info) :
  detect_remote_info g = Some info ->
  host info <> ""
  /\ orgrepo info <> ""
  /\ repo info = PyStr.last_item (PyStr.split "/" (orgrepo info))
  /\ exists raw,
       git_remote_get_url g = Some raw
       /\ let url := normalize_url (PyStr.strip raw) in
          PyStr.startswith "git@" url = true
          \/ PyStr.startswith "https://" url = true
          \/ PyStr.startswith "http://" url = true.
Proof.
  rewrite detect_remote_info_unfold. unfold _git.
  destruct (git_remote_get_url g) as [raw|]; [|discriminate]. cbn [option_map].
  destruct (parse_remote_url (normalize_url (PyStr.strip raw))) as [[[h|] [o|]]|] eqn:Hp;
    try discriminate.
  destruct (PyStr.truthy h) eqn:Hh; [|discriminate].
  destruct (PyStr.truthy o) eqn:Ho; [|discriminate].
  intros H; injection H as <-. cbn [host orgrepo repo].
  split; [intros ->; discriminate|]. split; [intros ->; discriminate|].
  split; [reflexivity|]. exists raw. split; [reflexivity|]. cbv zeta.
  unfold parse_remote_url in Hp.
  destruct (PyStr.startswith "git@" _); [now left|].
  destruct (PyStr.startswith "https://" _); [right; now left|].
  destruct (PyStr.startswith "http://" _); [right; now right | discriminate].
Qed.

Lemma remote_info_well_formed_witness :
  host (RemoteInfo "github.com" "acme/widgets" "widgets" "main") <> ""
  /\ orgrepo (RemoteInfo "github.com" "acme/widgets" "widgets" "main") <> "".
Proof.
  pose proof (remote_info_well_formed (github_remote None None)
                (RemoteInfo "github.com" "acme/widgets" "widgets" "main") eq_refl) as H.
  split; apply H.
Defined.

(** X20: normalising a remote URL removes one trailing [.git] and
    nothing else: a URL followed by [.git] gives the URL back, and a URL
    that does not end in [.git] is left as it is. *)
Theorem normalize_url_git_suffix (u : string) :
  normalize_url (u +:+ ".git") = u
  /\ (PyStr.endswith ".git" u = false -> normalize_url u = u).
Proof.
  unfold normalize_url. split.
  - rewrite endswith_append. apply (drop_last_append u ".git").
  - now intros ->.
Qed.

(** X21: an SSH-style remote [git@HOST:PATH] (after stripping and the
    removal of [.git]) is split at its first colon: the host is what
    stands between [git@] and that colon, the org/repo path is all that
    follows it, and the repo name is the last segment of the path. *)
Theorem detect_ssh_remote (g : git_env) (raw h p : string) :
  git_remote_get_url g = Some raw ->
  normalize_url (PyStr.strip raw) = "git@" +:+ h +:+ ":" +:+ p ->
  has ":" h = false -> h <> "" -> p <> "" ->
  detect_remote_info g
  = Some (RemoteInfo h p (PyStr.last_item (PyStr.split "/" p)) (detect_branch g)).
Proof.
  intros Hraw Hurl Hc Hh Hp. rewrite detect_remote_info_unfold. unfold _git.
  rewrite Hraw. simpl. rewrite Hurl.
  assert (Hparse : parse_remote_url ("git@" +:+ h +:+ ":" +:+ p) = Some (Some h, Some p)).
  { unfold parse_remote_url.
    replace (PyStr.startswith "git@" ("git@" +:+ h +:+ ":" +:+ p)) with true by reflexivity.
    replace (PyStr.split_once "@" ("git@" +:+ h +:+ ":" +:+ p))
      with (Some ("git", h +:+ String ":" p)) by reflexivity.
    now rewrite (split_once_first ":" h p Hc). }
  rewrite Hparse. destruct h; [congruence|]. destruct p; [congruence|]. reflexivity.
Qed.

Lemma detect_ssh_remote_witness :
  detect_remote_info (github_remote None None)
  = Some (RemoteInfo "github.com" "acme/widgets" "widgets" "main").
Proof.
  apply (detect_ssh_remote (github_remote None None) "git@github.com:acme/widgets.git"
           "github.com" "acme/widgets");
    try reflexivity; discriminate.
Defined.

(** X22: an HTTP(S) remote [scheme://HOST/ORG/NAME] (after stripping and
    the removal of [.git]), possibly followed by further segments, gives
    the host, the path [ORG/NAME] made of the first two segments, and
    [NAME] as the repo name; what follows the second segment is
    ignored. *)
Theorem detect_http_remote (g : git_env) (raw scheme h org name tail : string) :
  git_remote_get_url g = Some raw ->
  scheme = "https:" \/ scheme = "http:" ->
  normalize_url (PyStr.strip raw) = scheme +:+ "//" +:+ h +:+ "/" +:+ org +:+ "/" +:+ name +:+ tail ->
  tail = "" \/ (exists t, tail = "/" +:+ t) ->
  has "/" h = false -> has "/" org = false -> has "/" name = false -> h <> "" ->
  detect_remote_info g
  = Some (RemoteInfo h (org +:+ "/" +:+ name) name (detect_branch g)).
Proof.
  intros Hraw Hscheme Hurl Htail Hh Ho Hn Hne. rewrite detect_remote_info_unfold.
  unfold _git. rewrite Hraw. simpl. rewrite Hurl.
  assert (Hsplit : exists more,
             PyStr.split "/" (scheme +:+ "//" +:+ h +:+ "/" +:+ org +:+ "/" +:+ name +:+ tail)
             = scheme :: "" :: h :: org :: name :: more).
  { assert (Hs : has "/" scheme = false) by (destruct Hscheme as [-> | ->]; reflexivity).
    change (scheme +:+ "//" +:+ h +:+ "/" +:+ org +:+ "/" +:+ name +:+ tail)
      with (scheme +:+ String "/" ("" +:+ String "/" (h +:+ String "/"
              (org +:+ String "/" (name +:+ tail))))).
    rewrite (split_append "/" scheme _ Hs), (split_append "/" "" _ eq_refl),
      (split_append "/" h _ Hh), (split_append "/" org _ Ho).
    destruct Htail as [-> | [t ->]].
    - rewrite append_nil_r, (split_whole "/" name Hn). now exists [].
    - change (name +:+ "/" +:+ t) with (name +:+ String "/" t).
      rewrite (split_append "/" name _ Hn). now exists (PyStr.split "/" t). }
  destruct Hsplit as [more Hsplit].
  assert (Hparse : parse_remote_url
                     (scheme +:+ "//" +:+ h +:+ "/" +:+ org +:+ "/" +:+ name +:+ tail)
                   = Some (Some h, Some (org +:+ "/" +:+ name))).
  { unfold parse_remote_url. rewrite Hsplit.
    destruct Hscheme as [-> | ->]; reflexivity. }
  rewrite Hparse.
  assert (Hlast : PyStr.last_item (PyStr.split "/" (org +:+ "/" +:+ name)) = name).
  { change (org +:+ "/" +:+ name) with (org +:+ String "/" name).
    rewrite (split_append "/" org _ Ho), (split_whole "/" name Hn). reflexivity. }
  rewrite Hlast. destruct h; [congruence|].
  replace (PyStr.truthy (org +:+ "/" +:+ name)) with true; [reflexivity|].
  destruct org; reflexivity.
Qed.

Lemma detect_http_remote_witness :
  detect_remote_info (GitEnv (Some "https://gitlab.com/acme/widgets/-/tree/main") None None)
  = Some (RemoteInfo "gitlab.com" "acme/widgets" "widgets" "main").
Proof.
  apply (detect_http_remote (GitEnv (Some "https://gitlab.com/acme/widgets/-/tree/main") None None)
           "https://gitlab.com/acme/widgets/-/tree/main"
           "https:" "gitlab.com" "acme" "widgets" "/-/tree/main");
    try reflexivity.
  - now left.
  - right. now exists "-/tree/main".
  - discriminate.
Defined.

(* ------------------------------------------------------------------ *)
(** ** Further properties: option lists and the critical heuristic *)

Lemma lstrip_idempotent (s : string) : PyStr.lstrip (PyStr.lstrip s) = PyStr.lstrip s.
Proof.
  induction s as [|c s IH]; simpl; [reflexivity|].
  destruct (PyStr.isspace c) eqn:E; [assumption|]. simpl. now rewrite E.
Qed.

Lemma rstrip_idempotent (s : string) : PyStr.rstrip (PyStr.rstrip s) = PyStr.rstrip s.
Proof.
  induction s as [|c s IH]; simpl; [reflexivity|].
  destruct (PyStr.rstrip s) as [|x r] eqn:Hr.
  - destruct (PyStr.isspace c) eqn:E; [reflexivity|]. simpl. now rewrite E.
  - change (PyStr.rstrip (String c (String x r)))
      with (match PyStr.rstrip (String x r) with
            | "" => if PyStr.isspace c then "" else String c ""
            | r0 => String c r0
            end).
    now rewrite IH.
Qed.

Lemma lstrip_rstrip_lstrip (s : string) :
  PyStr.lstrip (PyStr.rstrip (PyStr.lstrip s)) = PyStr.rstrip (PyStr.lstrip s).
Proof.
  assert (H : forall t, (match t with "" => True | String c _ => PyStr.isspace c = false end) ->
                        PyStr.lstrip (PyStr.rstrip t) = PyStr.rstrip t).
  { intros [|c t] Hc; [reflexivity|]. simpl.
    destruct (PyStr.rstrip t); simpl; rewrite ?Hc; simpl; rewrite ?Hc; reflexivity. }
  apply H. induction s as [|c s IH]; simpl; [exact I|].
  destruct (PyStr.isspace c) eqn:E; [assumption | assumption].
Qed.

Lemma strip_idempotent (s : string) : PyStr.strip (PyStr.strip s) = PyStr.strip s.
Proof.
  unfold PyStr.strip. now rewrite lstrip_rstrip_lstrip, rstrip_idempotent.
Qed.

Lemma has_substring_of (c : ascii) (a b : string) :
  substring_of a b -> has c b = false -> has c a = false.
Proof.
  intros [p [q ->]]. rewrite !has_append. intros H.
  apply orb_false_iff in H as [_ H]. now apply orb_false_iff in H as [H _].
Qed.

Lemma split_pieces (sep : ascii) (s : string) :
  Forall (fun piece => has sep piece = false) (PyStr.split sep s).
Proof.
  induction s as [|c s IH]; simpl; [repeat constructor|].
  destruct (PyStr.split sep s) as [|w ws]; [repeat constructor|].
  apply Forall_cons_iff in IH as [Hw Hws].
  destruct (Ascii.eqb c sep) eqn:E; repeat constructor; auto.
  simpl. now rewrite E, Hw.
Qed.

Lemma csv_In (s x : string) :
  In x (csv s) <-> x <> "" /\ exists piece, In piece (PyStr.split "," s) /\ x = PyStr.strip piece.
Proof.
  unfold csv. rewrite filter_In, in_map_iff. split.
  - intros [[piece [<- Hin]] Ht]. split; [intros E; rewrite E in Ht; discriminate|].
    now exists piece.
  - intros [Hne [piece [Hin ->]]]. split; [now exists piece|].
    destruct (PyStr.strip piece); [congruence | reflexivity].
Qed.

Lemma map_chars_nonempty (f : ascii -> ascii) (s : string) :
  s <> "" -> PyStr.map_chars f s <> "".
Proof. destruct s; [congruence | discriminate]. Qed.

(** X23: the comma-separated options are read into clean lists: no item
    is empty, has surrounding whitespace or contains a comma; the markers
    are moreover in upper case and the extensions in lower case. *)
Theorem option_lists_clean (a : args) :
  (forall s x, In x (csv s) -> x <> "" /\ PyStr.strip x = x /\ has "," x = false)
  /\ (forall m, In m (parse_markers a) -> m <> "" /\ PyStr.upper m = m)
  /\ (forall e, In e (parse_include_exts a) -> e <> "" /\ PyStr.lower e = e)
  /\ (forall d, In d (parse_excluded_dirs a) -> d <> "").
Proof.
  assert (Hcsv : forall s x, In x (csv s) ->
                             x <> "" /\ PyStr.strip x = x /\ has "," x = false).
  { intros s x H. apply csv_In in H as [Hne [piece [Hin ->]]].
    split; [assumption|]. split; [apply strip_idempotent|].
    eapply has_substring_of; [apply strip_substring_of|].
    pose proof (split_pieces "," s) as Hall. rewrite Forall_forall in Hall. auto. }
  split; [exact Hcsv|]. split; [|split].
  - intros m H. unfold parse_markers in H. apply in_map_iff in H as [x [<- Hx]].
    split; [apply map_chars_nonempty; now apply Hcsv in Hx | apply upper_idempotent].
  - intros e H. unfold parse_include_exts in H. apply in_map_iff in H as [x [<- Hx]].
    split; [apply map_chars_nonempty; now apply Hcsv in Hx | apply lower_idempotent].
  - intros d H. unfold parse_excluded_dirs in H. apply in_app_or in H as [H | H].
    + intros ->. vm_compute in H. repeat (destruct H as [H | H]; [discriminate H|]). destruct H.
    + destruct (PyStr.truthy (arg_extra_exclude a)); [|destruct H]. now apply Hcsv in H.
Qed.

Lemma option_lists_clean_witness :
  "FIXME" <> "" /\ PyStr.upper "FIXME" = "FIXME".
Proof.
  apply (proj1 (proj2 (option_lists_clean ghost_args)) "FIXME").
  vm_compute. right. left. reflexivity.
Defined.

Lemma ascii_text_map_chars (f : ascii -> ascii) (t : string) :
  (forall c, is_ascii (f c) = is_ascii c) ->
  ascii_text (PyStr.map_chars f t) = ascii_text t.
Proof.
  intros Hf. unfold ascii_text. induction t as [|c t IH]; simpl; [reflexivity|].
  now rewrite Hf, IH.
Qed.

Lemma ascii_text_upper (t : string) : ascii_text (PyStr.upper t) = ascii_text t.
Proof.
  apply ascii_text_map_chars. intros c. destruct c as [[] [] [] [] [] [] [] []]; reflexivity.
Qed.

Lemma ascii_text_lower (t : string) : ascii_text (PyStr.lower t) = ascii_text t.
Proof.
  apply ascii_text_map_chars. intros c. destruct c as [[] [] [] [] [] [] [] []]; reflexivity.
Qed.

Lemma ascii_text_append (a b : string) :
  ascii_text (a +:+ b) = ascii_text a && ascii_text b.
Proof. apply all_chars_append. Qed.

Lemma all_chars_substring_of (p : ascii -> bool) (x s : string) :
  substring_of x s -> all_chars p s = true -> all_chars p x = true.
Proof.
  intros [a [b ->]]. rewrite !all_chars_append. intros H.
  apply andb_true_iff in H as [_ H]. now apply andb_true_iff in H as [H _].
Qed.

Lemma split_all_chars (p : ascii -> bool) (sep : ascii) (s : string) :
  all_chars p s = true ->
  Forall (fun piece => all_chars p piece = true) (PyStr.split sep s).
Proof.
  induction s as [|c s IH]; simpl; [repeat constructor|].
  intros H. apply andb_true_iff in H as [Hc Hs]. specialize (IH Hs).
  destruct (PyStr.split sep s) as [|w ws]; [repeat constructor|].
  apply Forall_cons_iff in IH as [Hw Hws].
  destruct (Ascii.eqb c sep); repeat constructor; auto.
  simpl. now rewrite Hc, Hw.
Qed.

(** An ASCII [--marker] option gives ASCII markers. *)
Lemma parse_markers_ascii (a : args) (m : string) :
  ascii_text (arg_marker a) = true -> In m (parse_markers a) -> ascii_text m = true.
Proof.
  intros Ha H. unfold parse_markers in H. apply in_map_iff in H as [x [<- Hx]].
  rewrite ascii_text_upper. apply csv_In in Hx as [_ [piece [Hin ->]]].
  eapply all_chars_substring_of; [apply strip_substring_of|].
  pose proof (split_all_chars is_ascii "," (arg_marker a) Ha) as Hall.
  rewrite Forall_forall in Hall. auto.
Qed.

(** X6: every finding of a report carries a marker that is a spelling of
    TODO, FIXME or BUG under the flag i of the pattern.  When the
    [--marker] option is in ASCII, the marker is one of the configured
    markers, is in upper case, and is one of TODO, FIXME and BUG. *)
Theorem report_markers (w : world) (a : args) (r : result) (k : string) (fd : finding) :
  main w a = Some r ->
  member (r_report r) k fd ->
  spells_keyword (fd_marker fd) = true
  /\ (ascii_text (arg_marker a) = true ->
      In (fd_marker fd) (parse_markers a)
      /\ PyStr.upper (fd_marker fd) = fd_marker fd
      /\ In (fd_marker fd) DEFAULT_MARKERS).
Proof.
  intros Hmain Hm.
  destruct (report_provenance w a r k fd Hmain Hm)
    as (d & p & f & e & _ & _ & He & _ & _ & _ & Hmk & _).
  rewrite Hmk. assert (Hin : In (e_marker e) (parse_markers a)) by (eapply scan_file_marker; eauto).
  assert (Hup := parse_markers_upper a _ Hin).
  rewrite scan_file_entries in He. apply entries_of_In in He as [n [line [_ Hs]]].
  apply scan_line_marker_keyword in Hs as [Hk _].
  split; [assumption|]. intros Ha.
  split; [assumption|]. split; [assumption|].
  pose proof (spells_keyword_ascii _ Hk (parse_markers_ascii a _ Ha Hin)) as Hl.
  rewrite <- Hup, <- upper_lower.
  destruct Hl as [<- | [<- | [<- | []]]]; simpl; auto.
Qed.

Lemma report_markers_witness :
  exists r,
    main demo_world default_args = Some r
    /\ spells_keyword "TODO" = true
    /\ (ascii_text (arg_marker default_args) = true ->
        In "TODO" (parse_markers default_args)
        /\ PyStr.upper "TODO" = "TODO"
        /\ In "TODO" DEFAULT_MARKERS).
Proof.
  eexists. split; [vm_compute; reflexivity|].
  apply (report_markers demo_world default_args _ "app" demo_finding eq_refl).
  vm_compute. eexists. split; [right; left; reflexivity | right; left; reflexivity].
Defined.

Lemma critical_words_lower (word : string) :
  In word CRITICAL_WORDS -> PyStr.lower word = word.
Proof. intros H. repeat (destruct H as [<- | H]; [reflexivity|]). destruct H. Qed.

Lemma critical_words_ascii (word : string) :
  In word CRITICAL_WORDS -> ascii_text word = true.
Proof. intros H. repeat (destruct H as [<- | H]; [reflexivity|]). destruct H. Qed.

(** X24: on ASCII text, which [str.lower] lowers letter by letter, the
    critical test ignores letter case, and it fires on a keyword anywhere
    in the text, also inside a longer word and in upper case. *)
Theorem looks_critical_case (lower : string -> string) :
  (forall t, ascii_text t = true -> lower t = PyStr.lower t) ->
  (forall t, ascii_text t = true ->
             looks_critical lower (PyStr.upper t) = looks_critical lower t
             /\ looks_critical lower (PyStr.lower t) = looks_critical lower t)
  /\ (forall word pre post,
         In word CRITICAL_WORDS -> ascii_text pre = true -> ascii_text post = true ->
         looks_critical lower (pre +:+ word +:+ post) = true
         /\ looks_critical lower (pre +:+ PyStr.upper word +:+ post) = true).
Proof.
  intros Hl. split.
  - intros t Ht. unfold looks_critical.
    rewrite !Hl by (rewrite ?ascii_text_upper, ?ascii_text_lower; exact Ht).
    now rewrite lower_upper, lower_idempotent.
  - intros word pre post Hin Hpre Hpost.
    pose proof (critical_words_ascii word Hin) as Hw.
    split; apply looks_critical_spec; exists word; (split; [assumption|]);
      rewrite Hl by (rewrite !ascii_text_append, ?ascii_text_upper, Hpre, Hw, Hpost;
                     reflexivity);
      rewrite !lower_append; [|rewrite lower_upper];
      rewrite (critical_words_lower word Hin);
      exists (PyStr.lower pre), (PyStr.lower post); reflexivity.
Qed.

Lemma looks_critical_case_witness :
  looks_critical PyStr.lower ("fix the re" +:+ "prod" +:+ "ucer") = true
  /\ looks_critical PyStr.lower ("fix the re" +:+ PyStr.upper "prod" +:+ "ucer") = true.
Proof.
  apply (proj2 (looks_critical_case PyStr.lower (fun t _ => eq_refl))
           "prod" "fix the re" "ucer"); [simpl; auto | reflexivity | reflexivity].
Defined.

(* ------------------------------------------------------------------ *)
(** ** Further properties: the text and the tag of an entry *)

(** A pattern consumes a prefix of what is left and advances by its
    length. *)
Lemma reach_consumes (r : Re.regex) :
  forall c c',
    reach r c c' ->
    exists t, Re.rest c = t +:+ Re.rest c' /\ Re.pos c' = Re.pos c + String.length t.
Proof.
  induction r as [| |p|l|r1 IH1 r2 IH2|r1 IH1 r2 IH2|r1 IH1|p|p|p|g r1 IH1];
    simpl; intros c c'.
  - intros [_ ->]. exists "". simpl. auto.
  - intros [_ ->]. exists "". simpl. auto.
  - intros (ch & s' & Hr & _ & ->). exists (String ch ""). simpl. split; [assumption | lia].
  - intros (t & s' & Hr & _ & ->). exists t. simpl. auto.
  - intros (c1 & H1 & H2). apply IH1 in H1 as (t1 & Hr1 & Hp1).
    apply IH2 in H2 as (t2 & Hr2 & Hp2). exists (t1 +:+ t2).
    rewrite append_assoc, append_length, <- Hr2. split; [assumption | lia].
  - intros [H | H]; [now apply IH1 | now apply IH2].
  - intros [H | ->]; [now apply IH1 | exists ""; simpl; auto].
  - intros (t & s' & Hr & _ & ->). exists t. simpl. auto.
  - intros (t & s' & Hr & _ & _ & ->). exists t. simpl. auto.
  - intros (t & s' & Hr & _ & ->). exists t. simpl. auto.
  - intros (c1 & H1 & ->). simpl. now apply IH1.
Qed.

Lemma substring_at (line pre t post : string) (n m : nat) :
  line = pre +:+ t +:+ post -> n = String.length pre -> m = n + String.length t ->
  substring n (m - n) line = t.
Proof.
  intros -> -> ->.
  replace (String.length pre + String.length t - String.length pre) with (String.length t) by lia.
  apply substring_middle.
Qed.

(** How a match of [TODO_PATTERN] cuts its line. *)
Lemma search_parts (line : string) (m : Re.spans) :
  Re.search TODO_PATTERN line = Some m ->
  exists pre mk mid tail eol,
    line = pre +:+ mk +:+ mid +:+ tail +:+ eol
    /\ Re.group_text line m Re.G_marker = Some mk
    /\ Re.group_text line m Re.G_text = Some tail
    /\ (eol = "" \/ eol = String Re.newline "")
    /\ all_chars dot tail = true
    /\ (Re.group_text line m Re.G_tag = None
        \/ exists ws1 ws2 inner ws3 more,
             mid = ws1 +:+ "(" +:+ ws2 +:+ inner +:+ ws3 +:+ ")" +:+ more
             /\ Re.group_text line m Re.G_tag = Some inner
             /\ inner <> ""
             /\ all_chars not_rparen inner = true
             /\ all_chars PyStr.isspace ws1 = true
             /\ all_chars PyStr.isspace ws2 = true
             /\ all_chars PyStr.isspace ws3 = true).
Proof.
  unfold Re.search. intros H.
  apply search_from_sound in H as (pre0 & s0 & c' & -> & H & ->).
  unfold TODO_PATTERN in H.
  destruct H as (c1 & H1 & c2 & H2 & c3 & H3 & c4 & H4 & H5).
  destruct H5 as [Heol ->].
  destruct H4 as (c4' & (tail & s' & Hr3 & Hdot & ->) & ->). cbn [Re.rest Re.pos Re.caps] in *.
  pose proof (reach_consumes _ _ _ H1) as (t1 & Hr0 & Hp1). cbn [Re.rest Re.pos] in Hr0, Hp1.
  assert (Hm3 : Re.span_of Re.G_marker (Re.caps c3) = Re.span_of Re.G_marker (Re.caps c2))
    by (eapply reach_span_other; [|exact H3]; reflexivity).
  assert (Ht1 : Re.span_of Re.G_tag (Re.caps c1) = None)
    by (erewrite reach_span_other; [| |exact H1]; reflexivity).
  assert (Ht2 : Re.span_of Re.G_tag (Re.caps c2) = None)
    by (erewrite reach_span_other; [exact Ht1| |exact H2]; reflexivity).
  pose proof (reach_consumes _ _ _ H3) as (mid & Hr2 & Hp3).
  destruct H2 as (c2' & HM & ->). cbn [Re.rest Re.pos Re.caps] in *.
  pose proof (reach_consumes _ _ _ HM) as (mk & Hr1 & Hp2).
  assert (Hline : pre0 +:+ s0 = (pre0 +:+ t1) +:+ mk +:+ mid +:+ tail +:+ s').
  { rewrite Hr0, Hr1, Hr2, Hr3. now rewrite !append_assoc. }
  exists (pre0 +:+ t1), mk, mid, tail, s'.
  split; [exact Hline|].
  split.
  { unfold Re.group_text. cbn [Re.span_of Re.group_eqb]. rewrite Hm3.
    cbn [Re.span_of Re.group_eqb].
    f_equal. eapply substring_at; [exact Hline | rewrite append_length; lia | lia]. }
  split.
  { unfold Re.group_text. cbn [Re.span_of Re.group_eqb]. f_equal.
    apply (substring_at _ ((pre0 +:+ t1) +:+ mk +:+ mid) tail s').
    - rewrite Hline. now rewrite !append_assoc.
    - rewrite !append_length. lia.
    - lia. }
  split; [exact Heol|]. split; [exact Hdot|].
  unfold Re.group_text. cbn [Re.span_of Re.group_eqb].
  destruct H3 as [[HA1 | HA2] | ->]; [left | right | left].
  - erewrite reach_span_other; [| |exact HA1]; [|reflexivity].
    cbn [Re.span_of Re.group_eqb Re.caps] in *. now rewrite Ht2.
  - destruct HA2 as (ca & (ws1 & sa & Hra & Hws1 & ->)
                        & cb & (ch & sb & Hrb & Hch & ->)
                        & cc & (ws2 & sc & Hrc & Hws2 & ->)
                        & cd & (cd' & (inner & sd & Hrd & Hin & Hne & ->) & ->)
                        & H6).
    cbn [Re.rest Re.pos Re.caps] in *.
    destruct H6 as (ce & (ws3 & se & Hre & Hws3 & ->)
                       & cf & (ch' & sf & Hrf & Hch' & ->)
                       & H7).
    cbn [Re.rest Re.pos Re.caps] in *.
    pose proof (reach_consumes _ _ _ H7) as (more & Hrg & Hpg).
    cbn [Re.rest Re.pos] in Hrg, Hpg.
    assert (Hs7 : Re.span_of Re.G_tag (Re.caps c3)
                  = Some (S (Re.pos c2' + String.length ws1) + String.length ws2,
                          S (Re.pos c2' + String.length ws1) + String.length ws2
                          + String.length inner)).
    { erewrite reach_span_other; [| |exact H7]; [|reflexivity]. reflexivity. }
    unfold char_is in Hch, Hch'. apply Ascii.eqb_eq in Hch, Hch'. subst ch ch'.
    assert (Hmid : mid = ws1 +:+ "(" +:+ ws2 +:+ inner +:+ ws3 +:+ ")" +:+ more).
    { apply (f_equal String.length) in Hline as Hlen.
      assert (E : mid +:+ Re.rest c3
                  = (ws1 +:+ "(" +:+ ws2 +:+ inner +:+ ws3 +:+ ")" +:+ more) +:+ Re.rest c3).
      { rewrite <- Hr2, Hra, Hrb, Hrc, Hrd, Hre, Hrf, Hrg.
        repeat (progress (rewrite ?append_assoc; simpl)). reflexivity. }
      revert E. generalize (ws1 +:+ "(" +:+ ws2 +:+ inner +:+ ws3 +:+ ")" +:+ more).
      intros x E.
      assert (Hlx : String.length mid = String.length x).
      { apply (f_equal String.length) in E. rewrite !append_length in E. lia. }
      clear - E Hlx. revert x E Hlx. induction mid as [|a mid IH]; intros [|b x] E Hlx;
        simpl in *; try discriminate; [reflexivity|].
      injection E as -> E. f_equal. apply IH; [assumption | lia]. }
    exists ws1, ws2, inner, ws3, more. split; [exact Hmid|].
    split; [|auto].
    rewrite Hs7. f_equal.
    apply (substring_at _ ((pre0 +:+ t1) +:+ mk +:+ ws1 +:+ "(" +:+ ws2) inner
                        (ws3 +:+ ")" +:+ more +:+ tail +:+ s')).
    + rewrite Hline, Hmid. repeat (progress (rewrite ?append_assoc; simpl)). reflexivity.
    + repeat (progress (rewrite ?append_length; simpl)). lia.
    + lia.
  - cbn [Re.span_of Re.group_eqb Re.caps] in *. now rewrite Ht2.
Qed.

Lemma all_chars_absent (c : ascii) (s : string) :
  all_chars (fun x => negb (char_is c x)) s = true -> has c s = false.
Proof.
  induction s as [|x s IH]; simpl; [reflexivity|].
  intros H. apply andb_true_iff in H as [Hx Hs]. rewrite (IH Hs).
  unfold char_is in Hx. apply negb_true_iff in Hx. now rewrite Hx.
Qed.

Lemma scan_line_parts (markers : list string) (i : nat) (line : string) (e : entry) :
  scan_line markers i line = Some e ->
  exists pre mid tail eol,
    line = pre +:+ e_marker e +:+ mid +:+ tail +:+ eol
    /\ (eol = "" \/ eol = String Re.newline "")
    /\ has Re.newline tail = false
    /\ e_text e = PyStr.strip tail
    /\ (e_tag e = ""
        \/ exists ws1 ws2 inner ws3 more,
             mid = ws1 +:+ "(" +:+ ws2 +:+ inner +:+ ws3 +:+ ")" +:+ more
             /\ e_tag e = PyStr.strip inner
             /\ has ")" inner = false
             /\ all_chars PyStr.isspace ws1 = true
             /\ all_chars PyStr.isspace ws2 = true
             /\ all_chars PyStr.isspace ws3 = true).
Proof.
  unfold scan_line. destruct (Re.search TODO_PATTERN line) as [m|] eqn:Hs; [|discriminate].
  apply search_parts in Hs
    as (pre & mk & mid & tail & eol & Hline & -> & -> & Heol & Hdot & Htag).
  destruct (negb (PyStr.mem mk markers)); [discriminate|].
  intros H; injection H as <-. cbn [e_marker e_text e_tag].
  exists pre, mid, tail, eol. split; [exact Hline|]. split; [exact Heol|].
  split; [now apply all_chars_absent|]. split; [reflexivity|].
  destruct Htag as [-> | (ws1 & ws2 & inner & ws3 & more & Hmid & -> & Hne & Hin & Hw)].
  - now left.
  - right. exists ws1, ws2, inner, ws3, more. split; [exact Hmid|].
    split; [destruct inner; [congruence | reflexivity]|].
    split; [now apply all_chars_absent | exact Hw].
Qed.



(** X26: a non-empty tag comes from a parenthesised group right after the
    marker: the line reads marker, optional whitespace, an opening
    parenthesis, optional whitespace, a run of characters other than the
    closing parenthesis, optional whitespace and the closing parenthesis,
    and the tag is that run stripped. *)
Theorem scan_file_tag_parenthesised (s : stream) (markers : list string) (e : entry) :
  In e (scan_file s markers) ->
  e_tag e <> "" ->
  exists line pre ws1 ws2 inner ws3 post,
    In line (delivered s)
    /\ line = pre +:+ e_marker e +:+ ws1 +:+ "(" +:+ ws2 +:+ inner +:+ ws3 +:+ ")" +:+ post
    /\ all_chars PyStr.isspace ws1 = true
    /\ all_chars PyStr.isspace ws2 = true
    /\ all_chars PyStr.isspace ws3 = true
    /\ has ")" inner = false
    /\ e_tag e = PyStr.strip inner.
Proof.
  rewrite scan_file_entries. intros H Htag. apply entries_of_In in H as [n [line [Hn Hs]]].
  apply scan_line_parts in Hs as (pre & mid & tail & eol & Hline & _ & _ & _ & Ht).
  destruct Ht as [E | (ws1 & ws2 & inner & ws3 & more & Hmid & Hi & Hr & Hw1 & Hw2 & Hw3)];
    [congruence|].
  exists line, pre, ws1, ws2, inner, ws3, (more +:+ tail +:+ eol).
  split; [eapply nth_error_In; eauto|]. split; [|auto 10].
  rewrite Hline, Hmid. repeat (progress (rewrite ?append_assoc; simpl)). reflexivity.
Qed.

Lemma scan_file_tag_parenthesised_witness :
  exists line pre ws1 ws2 inner ws3 post,
    In line ["# TODO( #123 ): tidy up"]
    /\ line = pre +:+ "TODO" +:+ ws1 +:+ "(" +:+ ws2 +:+ inner +:+ ws3 +:+ ")" +:+ post
    /\ all_chars PyStr.isspace ws1 = true
    /\ all_chars PyStr.isspace ws2 = true
    /\ all_chars PyStr.isspace ws3 = true
    /\ has ")" inner = false
    /\ "#123" = PyStr.strip inner.
Proof.
  apply (scan_file_tag_parenthesised (text_stream ["# TODO( #123 ): tidy up"])
           DEFAULT_MARKERS (Entry 1 "TODO" "#123" "tidy up" "# TODO( #123 ): tidy up")).
  - vm_compute. left. reflexivity.
  - discriminate.
Defined.

(* ------------------------------------------------------------------ *)
(** ** Further properties: the contents of the report, repo by repo *)

Lemma item_add_entries w a repo_name remote branch rel (entries : list entry) (k : string) :
  forall st,
    item (aggregated (fold_left (add_entry w a repo_name remote branch rel) entries st)) k
    = item (aggregated st) k
      ++ (if String.eqb repo_name k
          then map (finding_of a repo_name remote branch rel) entries else []).
Proof.
  induction entries as [|e es IH]; intros st; simpl.
  - destruct (String.eqb repo_name k); now rewrite app_nil_r.
  - rewrite IH, add_entry_finding_of. cbn [aggregated]. rewrite item_setdefault_append.
    destruct (String.eqb repo_name k) eqn:E; [|reflexivity].
    apply String.eqb_eq in E. subst k. now rewrite <- app_assoc.
Qed.

Lemma item_scan_files w a markers repo_name remote branch (files : list (path * file))
      (k : string) :
  forall st,
    item (aggregated (scan_files w a markers repo_name remote branch files st)) k
    = item (aggregated st) k
      ++ (if String.eqb repo_name k
          then flat_map (fun pf : path * file =>
                           map (finding_of a repo_name remote branch (relpath (fst pf)))
                               (scan_file (f_text (snd pf)) markers)) files
          else []).
Proof.
  unfold scan_files. induction files as [|pf files IH]; intros st; simpl.
  - destruct (String.eqb repo_name k); now rewrite app_nil_r.
  - rewrite IH, item_add_entries. destruct (String.eqb repo_name k); [|now rewrite app_nil_r].
    now rewrite <- app_assoc.
Qed.

Lemma item_scan_repo w a st repo_name k :
  item (aggregated (scan_repo w a st repo_name)) k
  = item (aggregated st) k
    ++ (if String.eqb repo_name k then repo_findings w a repo_name else []).
Proof.
  unfold scan_repo, repo_findings. destruct (repo_dir_of w repo_name) as [repo_dir|].
  - apply item_scan_files.
  - destruct (String.eqb repo_name k); now rewrite app_nil_r.
Qed.

Lemma item_fold_scan_repo w a (names : list string) (k : string) :
  forall st,
    item (aggregated (fold_left (scan_repo w a) names st)) k
    = item (aggregated st) k
      ++ List.concat (repeat (repo_findings w a k) (count_occ string_dec names k)).
Proof.
  induction names as [|n names IH]; intros st; simpl; [now rewrite app_nil_r|].
  rewrite IH, item_scan_repo. destruct (string_dec n k) as [->|Hne].
  - rewrite String.eqb_refl. simpl. now rewrite <- app_assoc.
  - apply String.eqb_neq in Hne. rewrite Hne. now rewrite app_nil_r.
Qed.

Lemma item_sort_within_repos (d : dict finding) (k : string) :
  item (sort_within_repos d) k = sorted key_le (item d k).
Proof.
  unfold item, sort_within_repos. induction d as [|[k0 vs] d IH]; simpl; [reflexivity|].
  destruct (String.eqb k0 k); [reflexivity | exact IH].
Qed.

(** X27: under each repo name the report lists, sorted by the key,
    exactly the findings one turn of the loop appends for that name, once
    for each time the name occurs among the repo names: a name given
    twice has its findings twice, and a name that is not given has
    none. *)
Theorem report_contents (w : world) (a : args) (r : result) (repos : list string)
        (k : string) :
  main w a = Some r ->
  parse_repos w a = Some repos ->
  item (r_report r) k
  = sorted key_le
      (List.concat (repeat (repo_findings w a k) (count_occ string_dec repos k))).
Proof.
  intros Hmain Hrepos. apply main_Some in Hmain as (repos' & Hrepos' & E & _).
  assert (repos' = repos) by congruence. subst repos'.
  rewrite E, item_sort_within_repos. unfold scan_repos. rewrite item_fold_scan_repo.
  cbn [aggregated item get app]. f_equal. f_equal. f_equal.
  apply Permutation_count_occ. apply sorted_perm.
Qed.

Lemma report_contents_witness :
  exists r,
    main demo_world ghost_args = Some r
    /\ item (r_report r) "app"
       = sorted key_le (List.concat (repeat (repo_findings demo_world ghost_args "app") 1)).
Proof.
  eexists. split; [vm_compute; reflexivity|].
  apply (report_contents demo_world ghost_args _ ["app"; "ghost"] "app" eq_refl eq_refl).
Defined.
